(** * htz-stateful-btn: a shallow embedding and its verified properties

    The development follows the two source modules of the package:
    - [lib/wrap-inner.js]: [wrapInner], which moves the content of an element
      into a wrapping element;
    - the main module: the [statefulBtn] factory with its closure variables and
      methods ([init], [destroy], [enableState], [disableState], [toggle], the
      accessors), the module-level registry [allInstances] and [getInstance].

    The browser is not part of the package.  The part of it that the code
    touches is modelled in [Module Dom]: a store of elements addressed by node
    identifiers, with the child-list mutations of the DOM standard
    ([appendChild], [insertBefore], [removeChild]), attributes and class
    tokens, each with the exception it raises.  The document is an HTML
    document: [createElement] and [setAttribute] refuse a name that is not a
    name of XML and put the name in lower case.  The [class] attribute of an
    element is kept as its token list, apart from the map of its other
    attributes; [getAttribute] and [removeAttribute], which the package calls
    with fixed names in lower case other than [class], look the name up as it
    is written. *)

From Stdlib Require Import Ascii.
From stdpp Require Import base option list gmap strings relations.

#[local] Set Warnings "-clear-no-such-hyp".

Local Open Scope string_scope.
Local Open Scope list_scope.

(** ** JavaScript control: state with exceptions *)

(** The exceptions the modelled code can raise.  [Diverged] is not a
    JavaScript exception: it marks the exhaustion of the bound that the model
    gives to a [while] loop.  The loop of [wrapInner] is shown to stay
    within it on every document, the loop of [destroy] on well-formed
    ones. *)
Inductive exn :=
| TypeError
| RangeError
| SyntaxError
| InvalidCharacterError
| HierarchyRequestError
| NotFoundError
| Diverged.

#[global] Instance exn_eq_dec : EqDecision exn.
Proof. solve_decision. Defined.

(** A computation either returns a value or throws; the state reached so far
    is kept in both cases, since a JavaScript exception does not roll back the
    mutations made before it. *)
Inductive outcome (S A : Type) :=
| Ok (a : A) (s : S)
| Throw (e : exn) (s : S).
Arguments Ok {S A} a s.
Arguments Throw {S A} e s.

Definition M (S A : Type) : Type := S → outcome S A.

Definition ret {S A} (a : A) : M S A := λ s, Ok a s.
Definition throw {S A} (e : exn) : M S A := λ s, Throw e s.
Definition bind {S A B} (m : M S A) (k : A → M S B) : M S B :=
  λ s, match m s with
       | Ok a s' => k a s'
       | Throw e s' => Throw e s'
       end.
Definition get {S} : M S S := λ s, Ok s s.
Definition modify {S} (f : S → S) : M S unit := λ s, Ok tt (f s).

Definition final_state {S A} (o : outcome S A) : S :=
  match o with Ok _ s => s | Throw _ s => s end.

Definition returned {S A} (o : outcome S A) : option A :=
  match o with Ok a _ => Some a | Throw _ _ => None end.

#[global] Instance M_ret {S} : MRet (M S) := λ A, @ret S A.
#[global] Instance M_bind {S} : MBind (M S) := λ A B k m, bind m k.
#[global] Instance M_fmap {S} : FMap (M S) :=
  λ A B f m, bind m (λ a, ret (f a)).

(** ** The document object model *)

Abbreviation node_id := nat (only parsing).

Module Dom.

(** An element: its tag, attribute map, class token list and child list.
    The tag is the name of the element as the document holds it: in lower
    case for an element that [createElement] made.  The attribute map holds
    the attributes other than [class], whose tokens are the class token
    list.  A child is any node; nodes that are not elements (text, comments)
    are the identifiers the store has no entry for. *)
Record element := Element {
  tagName : string;
  attributes : gmap string string;
  classList : list string;
  childNodes : list node_id;
}.

Abbreviation document := (gmap nat element) (only parsing).

Definition set_attributes (f : gmap string string → gmap string string)
    (e : element) : element :=
  Element (tagName e) (f (attributes e)) (classList e) (childNodes e).
Definition set_classList (f : list string → list string)
    (e : element) : element :=
  Element (tagName e) (attributes e) (f (classList e)) (childNodes e).
Definition set_childNodes (f : list node_id → list node_id)
    (e : element) : element :=
  Element (tagName e) (attributes e) (classList e) (f (childNodes e)).

Definition children_of (d : document) (n : node_id) : list node_id :=
  match d !! n with
  | Some e => childNodes e
  | None => []
  end.

(** *** Names

    A string is a sequence of bytes, a character outside ASCII being the
    bytes of its UTF-8 encoding.  [code_points] gives the characters of a
    string, and [None] for bytes that are no UTF-8. *)
Definition continuation_byte (b : N) : bool :=
  ((128 <=? b) && (b <? 192))%N.

Fixpoint code_points (s : string) : option (list N) :=
  match s with
  | EmptyString => Some []
  | String c0 s0 =>
      let b0 := N_of_ascii c0 in
      if (b0 <? 128)%N then cons b0 <$> code_points s0
      else
        match s0 with
        | EmptyString => None
        | String c1 s1 =>
            let b1 := N_of_ascii c1 in
            if negb (continuation_byte b1) then None
            else if (b0 <? 224)%N then
              let cp := ((b0 - 192) * 64 + (b1 - 128))%N in
              if (128 <=? cp)%N then cons cp <$> code_points s1 else None
            else
              match s1 with
              | EmptyString => None
              | String c2 s2 =>
                  let b2 := N_of_ascii c2 in
                  if negb (continuation_byte b2) then None
                  else if (b0 <? 240)%N then
                    let cp := ((b0 - 224) * 4096 + (b1 - 128) * 64
                               + (b2 - 128))%N in
                    if ((2048 <=? cp) &&
                        negb ((55296 <=? cp) && (cp <=? 57343)))%N
                    then cons cp <$> code_points s2 else None
                  else
                    match s2 with
                    | EmptyString => None
                    | String c3 s3 =>
                        let b3 := N_of_ascii c3 in
                        if negb (continuation_byte b3) then None
                        else
                          let cp := ((b0 - 240) * 262144 + (b1 - 128) * 4096
                                     + (b2 - 128) * 64 + (b3 - 128))%N in
                          if ((65536 <=? cp) && (cp <=? 1114111))%N
                          then cons cp <$> code_points s3 else None
                    end
              end
        end
  end.

Definition in_ranges (ranges : list (N * N)) (cp : N) : bool :=
  existsb (λ r, (r.1 <=? cp) && (cp <=? r.2))%N ranges.

(** The productions [NameStartChar] and [NameChar] of XML 1.0, which the
    DOM standard names for the local name of a new element and for the name
    of an attribute.  Later revisions of the standard accept every such
    name, and some more. *)
Definition name_start_char : N → bool :=
  in_ranges [ (58, 58); (65, 90); (95, 95); (97, 122);
              (192, 214); (216, 246); (248, 767); (880, 893); (895, 8191);
              (8204, 8205); (8304, 8591); (11264, 12271); (12289, 55295);
              (63744, 64975); (65008, 65533); (65536, 983039) ]%N.

Definition name_char (cp : N) : bool :=
  name_start_char cp ||
  in_ranges [ (45, 46); (48, 57); (183, 183); (768, 879);
              (8255, 8256) ]%N cp.

Definition valid_name (s : string) : bool :=
  match code_points s with
  | Some (cp :: cps) => name_start_char cp && forallb name_char cps
  | _ => false
  end.

(** ASCII lower case: the letters [A] to [Z] only. *)
Definition ascii_lower (c : ascii) : ascii :=
  let n := nat_of_ascii c in
  if bool_decide (65 ≤ n ≤ 90)%nat then ascii_of_nat (n + 32) else c.

Fixpoint ascii_lowercase (s : string) : string :=
  match s with
  | EmptyString => EmptyString
  | String c s' => String (ascii_lower c) (ascii_lowercase s')
  end.

(** The identifiers that a document uses, as an element or in a child
    list, and one that it does not use. *)
Definition node_ids (d : document) : list node_id :=
  map_to_list d ≫= λ '(n, e), n :: childNodes e.

Definition fresh_node (d : document) : node_id := S (max_list (node_ids d)).

(** [document.createElement]: an [InvalidCharacterError] for a name that is
    no name of XML; otherwise the new node has the name in lower case, and
    an identifier that no element and no child list of the document uses. *)
Definition createElement (tag : string) : M document node_id :=
  λ d, if valid_name tag then
         let n := fresh_node d in
         Ok n (<[n := Element (ascii_lowercase tag) ∅ [] []]> d)
       else Throw InvalidCharacterError d.

(** [a.contains(b)]: [b] is [a] or one of its descendants.  A path without
    repetition has at most [size d] edges. *)
Fixpoint contains_upto (fuel : nat) (d : document) (a b : node_id) : bool :=
  bool_decide (a = b) ||
  match fuel with
  | O => false
  | S fuel' => existsb (λ c, contains_upto fuel' d c b) (children_of d a)
  end.

Definition contains (d : document) (a b : node_id) : bool :=
  contains_upto (size d) d a b.

(** Removing a node from the child list of its parent. *)
Definition detach (n : node_id) (d : document) : document :=
  set_childNodes (filter (λ c, c ≠ n)) <$> d.

Definition firstChild (n : node_id) : M document (option node_id) :=
  λ d, match d !! n with
       | Some e => Ok (head (childNodes e)) d
       | None => Throw TypeError d
       end.

(** [parent.appendChild(node)].  A [null] argument is a [TypeError]; a node
    that contains the parent is refused; otherwise the node leaves its
    former parent and becomes the last child. *)
Definition appendChild (parent : node_id) (node : option node_id)
    : M document unit :=
  λ d, match d !! parent, node with
       | None, _ => Throw TypeError d
       | Some _, None => Throw TypeError d
       | Some _, Some n =>
           if contains d n parent then Throw HierarchyRequestError d
           else Ok tt (alter (set_childNodes (λ cs, cs ++ [n])) parent
                             (detach n d))
       end.

(** Inserting [x] in front of the first occurrence of [ref]. *)
Fixpoint insert_before (x ref : node_id) (cs : list node_id)
    : list node_id :=
  match cs with
  | [] => []
  | c :: cs' =>
      if decide (c = ref) then x :: c :: cs'
      else c :: insert_before x ref cs'
  end.

(** [parent.insertBefore(node, ref)] with a non-null reference child. *)
Definition insertBefore (parent : node_id) (node : option node_id)
    (ref : node_id) : M document unit :=
  λ d, match d !! parent, node with
       | None, _ => Throw TypeError d
       | Some _, None => Throw TypeError d
       | Some e, Some n =>
           if contains d n parent then Throw HierarchyRequestError d
           else if bool_decide (ref ∈ childNodes e) then
             if decide (n = ref) then Ok tt d
             else Ok tt (alter (set_childNodes (insert_before n ref)) parent
                               (detach n d))
           else Throw NotFoundError d
       end.

(** [parent.removeChild(child)]. *)
Definition removeChild (parent child : node_id) : M document unit :=
  λ d, match d !! parent with
       | None => Throw TypeError d
       | Some e =>
           if bool_decide (child ∈ childNodes e)
           then Ok tt (detach child d)
           else Throw NotFoundError d
       end.

Definition getAttribute (n : node_id) (name : string)
    : M document (option string) :=
  λ d, match d !! n with
       | Some e => Ok (attributes e !! name) d
       | None => Throw TypeError d
       end.

Definition removeAttribute (n : node_id) (name : string)
    : M document unit :=
  λ d, match d !! n with
       | Some e => Ok tt (<[n := set_attributes (delete name) e]> d)
       | None => Throw TypeError d
       end.

(** [classList.add] and [classList.remove] check every token first: an
    empty token is a [SyntaxError], a token with ASCII whitespace an
    [InvalidCharacterError]. *)
Definition is_ascii_whitespace (c : ascii) : bool :=
  bool_decide (c ∈ ["009"; "010"; "012"; "013"; " "]%char).

Fixpoint has_whitespace (s : string) : bool :=
  match s with
  | EmptyString => false
  | String c s' => is_ascii_whitespace c || has_whitespace s'
  end.

Fixpoint validate_tokens (tokens : list string) : option exn :=
  match tokens with
  | [] => None
  | t :: tokens' =>
      if bool_decide (t = "") then Some SyntaxError
      else if has_whitespace t then Some InvalidCharacterError
      else validate_tokens tokens'
  end.

Definition add_token (cl : list string) (t : string) : list string :=
  if bool_decide (t ∈ cl) then cl else cl ++ [t].

(** The tokens of the value of a [class] attribute: the pieces between
    ASCII whitespace, each once, in the order of their first occurrence. *)
Fixpoint pieces_from (piece s : string) : list string :=
  match s with
  | EmptyString => if bool_decide (piece = "") then [] else [piece]
  | String c s' =>
      if is_ascii_whitespace c
      then (if bool_decide (piece = "") then [] else [piece])
           ++ pieces_from "" s'
      else pieces_from (piece +:+ String c "") s'
  end.

Definition parse_tokens (value : string) : list string :=
  foldl add_token [] (pieces_from "" value).

(** [element.setAttribute(name, value)]: an [InvalidCharacterError] for a
    name that is no name of XML; otherwise the attribute with the name in
    lower case gets the value.  Setting [class] sets the token list. *)
Definition setAttribute (n : node_id) (name value : string)
    : M document unit :=
  λ d, match d !! n with
       | None => Throw TypeError d
       | Some e =>
           if valid_name name then
             let name' := ascii_lowercase name in
             if bool_decide (name' = "class")
             then Ok tt (<[n := set_classList (λ _, parse_tokens value) e]> d)
             else Ok tt (<[n := set_attributes (<[name' := value]>) e]> d)
           else Throw InvalidCharacterError d
       end.

Definition classList_add (n : node_id) (tokens : list string)
    : M document unit :=
  λ d, match d !! n with
       | None => Throw TypeError d
       | Some e =>
           match validate_tokens tokens with
           | Some x => Throw x d
           | None =>
               Ok tt (<[n := set_classList (λ cl, foldl add_token cl tokens) e]> d)
           end
       end.

Definition classList_remove (n : node_id) (tokens : list string)
    : M document unit :=
  λ d, match d !! n with
       | None => Throw TypeError d
       | Some e =>
           match validate_tokens tokens with
           | Some x => Throw x d
           | None =>
               Ok tt (<[n := set_classList (filter (λ t, t ∉ tokens)) e]> d)
           end
       end.

End Dom.
Export Dom.

(** ** lib/wrap-inner.js *)

Module WrapInner.

(** The [wrapper] parameter: a tag name or an element. *)
Inductive wrapper_spec :=
| TagName (tag : string)
| ElementRef (n : node_id).

(** One property met by [for (const attr in attrs)]: its name, its value
    and whether the object owns it (the loop also meets inherited
    enumerable properties).  [attrs] is the list of the properties in
    enumeration order; an absent [attrs] is the empty list. *)
Record property := Property {
  prop_name : string;
  prop_value : string;
  prop_own : bool;
}.

Fixpoint set_attrs (wrapperElem : node_id) (attrs : list property)
    : M document unit :=
  match attrs with
  | [] => mret tt
  | p :: attrs' =>
      (if prop_own p
       then setAttribute wrapperElem (prop_name p) (prop_value p)
       else mret tt) ;;
      set_attrs wrapperElem attrs'
  end.

(** [while (parent.firstChild !== wrapperElem)
       wrapperElem.appendChild(parent.firstChild);] *)
Fixpoint move_children (fuel : nat) (parent wrapperElem : node_id)
    : M document unit :=
  match fuel with
  | O => throw Diverged
  | S fuel' =>
      first ← firstChild parent;
      if decide (first = Some wrapperElem) then mret tt
      else appendChild wrapperElem first ;;
           move_children fuel' parent wrapperElem
  end.

Definition wrapInner (parent : node_id) (wrapper : wrapper_spec)
    (attrs : list property) : M document (node_id * node_id) :=
  wrapperElem ← match wrapper with
                | TagName tag => createElement tag
                | ElementRef n => mret n
                end;
  set_attrs wrapperElem attrs ;;
  appendChild parent (Some wrapperElem) ;;
  d ← get;
  move_children (S (length (children_of d parent))) parent wrapperElem ;;
  mret (parent, wrapperElem).

End WrapInner.
Export WrapInner.

(** ** The main module: stateful buttons *)

Abbreviation inst_id := nat (only parsing).

Module StatefulBtn.

(** The values that the label text and the class names take: a string,
    [undefined] (a parameter that was not passed) or [null] (what
    [getAttribute] returns for a missing attribute). *)
Inductive value :=
| Undefined
| Null
| Str (s : string).

#[global] Instance value_eq_dec : EqDecision value.
Proof. solve_decision. Defined.

(** JavaScript truthiness: the empty string is falsy, as [undefined] and
    [null] are. *)
Definition truthy (v : value) : bool :=
  match v with
  | Str s => negb (bool_decide (s = ""))
  | _ => false
  end.

Definition of_attribute (o : option string) : value :=
  match o with
  | Some s => Str s
  | None => Null
  end.

(** [s.split(' ')]: the pieces between the spaces, empty pieces included. *)
Fixpoint split_from (piece s : string) : list string :=
  match s with
  | EmptyString => [piece]
  | String c s' =>
      if bool_decide (c = " "%char) then piece :: split_from "" s'
      else split_from (piece +:+ String c "") s'
  end.

Definition split_space (s : string) : list string := split_from "" s.

(** The variables of one call of [statefulBtn]: the three parameters and the
    [let] variables of the closure. *)
Record closure := Closure {
  btn : node_id;
  inStateText : value;
  inStateClass : value;
  isInState : bool;
  isInit : bool;
  a11yText : value;
  inStateClassName : value;
  wrapper : option node_id;
}.

Definition set_isInState (b : bool) (c : closure) : closure :=
  Closure (btn c) (inStateText c) (inStateClass c) b (isInit c)
          (a11yText c) (inStateClassName c) (wrapper c).
Definition set_isInit (b : bool) (c : closure) : closure :=
  Closure (btn c) (inStateText c) (inStateClass c) (isInState c) b
          (a11yText c) (inStateClassName c) (wrapper c).
Definition set_a11yText (v : value) (c : closure) : closure :=
  Closure (btn c) (inStateText c) (inStateClass c) (isInState c) (isInit c)
          v (inStateClassName c) (wrapper c).
Definition set_inStateClassName (v : value) (c : closure) : closure :=
  Closure (btn c) (inStateText c) (inStateClass c) (isInState c) (isInit c)
          (a11yText c) v (wrapper c).
Definition set_wrapper (o : option node_id) (c : closure) : closure :=
  Closure (btn c) (inStateText c) (inStateClass c) (isInState c) (isInit c)
          (a11yText c) (inStateClassName c) o.

(** A dispatched custom event: its target, its type and the [isInState]
    field of its detail. *)
Record event := Event {
  ev_target : node_id;
  ev_type : string;
  ev_isInState : bool;
}.

#[global] Instance event_eq_dec : EqDecision event.
Proof. solve_decision. Defined.

(** The state of the page: the document, the closures of the calls of
    [statefulBtn] made so far (an instance object is identified with the
    index of its closure), the module-level array [allInstances], and the
    events dispatched so far, oldest first. *)
Record world := World {
  doc : document;
  closures : list closure;
  allInstances : list inst_id;
  dispatched : list event;
}.

Definition set_doc (f : document → document) (w : world) : world :=
  World (f (doc w)) (closures w) (allInstances w) (dispatched w).
Definition set_closures (f : list closure → list closure) (w : world)
    : world :=
  World (doc w) (f (closures w)) (allInstances w) (dispatched w).
Definition set_allInstances (f : list inst_id → list inst_id) (w : world)
    : world :=
  World (doc w) (closures w) (f (allInstances w)) (dispatched w).
Definition set_dispatched (f : list event → list event) (w : world) : world :=
  World (doc w) (closures w) (allInstances w) (f (dispatched w)).

(** A DOM operation run on the document of the page. *)
Definition dom {A} (m : M document A) : M world A :=
  λ w, match m (doc w) with
       | Ok a d => Ok a (set_doc (λ _, d) w)
       | Throw e d => Throw e (set_doc (λ _, d) w)
       end.

(** Reading and assigning a variable of the closure of instance [i].  An
    identifier without closure stands for no object at all. *)
Definition var {A} (i : inst_id) (proj : closure → A) : M world A :=
  λ w, match closures w !! i with
       | Some c => Ok (proj c) w
       | None => Throw TypeError w
       end.

Definition assign (i : inst_id) (f : closure → closure) : M world unit :=
  modify (set_closures (alter f i)).

(** [x || y], with [y] evaluated only when [x] is falsy. *)
Definition or_else (x : value) (y : M world value) : M world value :=
  if truthy x then mret x else y.

(** [v.split(' ')]: a [TypeError] on [undefined] and [null]. *)
Definition split (v : value) : M world (list string) :=
  match v with
  | Str s => mret (split_space s)
  | _ => throw TypeError
  end.

(** A method applied to the wrapper variable: a [TypeError] when it is
    [undefined]. *)
Definition on_wrapper {A} (o : option node_id) (f : node_id → M document A)
    : M world A :=
  match o with
  | Some n => dom (f n)
  | None => throw TypeError
  end.

(** [while (wrapper.firstChild) btn.insertBefore(wrapper.firstChild, wrapper);] *)
Fixpoint unwrap (fuel : nat) (btn wrapper : node_id) : M document unit :=
  match fuel with
  | O => throw Diverged
  | S fuel' =>
      first ← firstChild wrapper;
      match first with
      | None => mret tt
      | Some _ =>
          insertBefore btn first wrapper ;;
          unwrap fuel' btn wrapper
      end
  end.

Definition destroy (i : inst_id) : M world unit :=
  init_ ← var i isInit;
  if init_ : bool then
    b ← var i btn;
    dom (removeAttribute b "aria-live") ;;
    dom (removeAttribute b "aria-label") ;;
    cls ← var i inStateClassName;
    tokens ← split cls;
    dom (classList_remove b tokens) ;;
    wr ← var i wrapper;
    on_wrapper wr (λ w, d ← get;
                        unwrap (S (length (children_of d w))) b w) ;;
    on_wrapper wr (λ w, removeChild b w) ;;
    assign i (set_wrapper None) ;;
    assign i (set_isInit false) ;;
    assign i (set_isInState false)
  else mret tt.

Definition init (i : inst_id) : M world unit :=
  init_ ← var i isInit;
  (if init_ : bool then destroy i else mret tt) ;;
  b ← var i btn;
  pw ← dom (wrapInner b (TagName "span") []);
  assign i (set_wrapper (Some pw.2)) ;;
  text ← var i inStateText;
  a11y ← or_else text (of_attribute <$> dom (getAttribute b "data-in-state-text"));
  assign i (set_a11yText a11y) ;;
  cls ← var i inStateClass;
  clsName ← or_else cls (of_attribute <$> dom (getAttribute b "data-in-state-class"));
  assign i (set_inStateClassName clsName) ;;
  dom (setAttribute b "aria-live" "polite") ;;
  assign i (set_isInit true).

(** [statefulBtn(btn, inStateText, inStateClass)]: a new closure, [init()],
    the instance object, and its registration.  The instance object is new,
    so [allInstances.indexOf(instance)] compares it with the references
    already in the array. *)
Definition statefulBtn (b : node_id) (text cls : value) : M world inst_id :=
  w ← get;
  let i := length (closures w) in
  modify (set_closures
            (λ cs, cs ++ [Closure b text cls false false
                                  Undefined Undefined None])) ;;
  init i ;;
  w' ← get;
  (if bool_decide (i ∈ allInstances w') then mret tt
   else modify (set_allInstances (λ l, l ++ [i]))) ;;
  mret i.

(** The methods of an instance that change something. *)
Inductive method :=
| Init
| Destroy
| Toggle
| EnableState
| DisableState
| SetA11yText (v : value)
| SetStateClass (v : value).

(** What the page does with the package, at top level or in an event
    listener: calls of [statefulBtn] and of instance methods, mutations of
    the document, [event.preventDefault()], reads of the state, and
    [try { ... } catch (e) {}].  An exception ends the script. *)
Inductive script :=
| SDone
| SPreventDefault (k : script)
| SCall (i : inst_id) (m : method) (k : script)
| SNew (b : node_id) (text cls : value) (k : script)
| SDom (f : document → document) (k : script)
| STry (body k : script)
| SRead (k : world → script).

(** A computation of the page, run while an event is dispatched: the flag is
    the [defaultPrevented] of the event. *)
Definition page {A} (m : M world A) : M (world * bool) A :=
  λ st, match m st.1 with
        | Ok a w => Ok a (w, st.2)
        | Throw e w => Throw e (w, st.2)
        end.

Section methods.

(** The listeners that receive an event, in the order they are called. *)
Variable observers : event → list script.

(** The methods as an event listener calls them, one call deeper. *)
Variable invoke : inst_id → method → M world unit.

Fixpoint run_script (s : script) : M (world * bool) unit :=
  match s with
  | SDone => mret tt
  | SPreventDefault k => modify (λ st, (st.1, true)) ;; run_script k
  | SCall i m k => page (invoke i m) ;; run_script k
  | SNew b text cls k => page (statefulBtn b text cls) ;; run_script k
  | SDom f k => page (dom (modify f)) ;; run_script k
  | STry body k =>
      (λ st, Ok tt (final_state (run_script body st))) ;; run_script k
  | SRead k => st ← get; run_script (k st.1)
  end.

(** Modelled from the spec: [dispatchEvent(target, type, detail)] is imported
    from the package [htz-dispatch-event], whose code is not part of this
    module.  The event is dispatched on the target and its listeners run in
    order, synchronously; any of them may veto a "before" event by calling
    [preventDefault], and the result is [false] exactly then.  As for every
    DOM event, an exception of a listener ends that listener only. *)
Definition dispatchEvent (target : node_id) (type : string) (detail : bool)
    : M world bool :=
  λ w, let ev := Event target type detail in
       let st := foldl (λ st s, final_state (run_script s st))
                       (set_dispatched (λ l, l ++ [ev]) w, false)
                       (observers ev) in
       Ok (negb st.2) st.1.

Definition enableState (i : inst_id) : M world unit :=
  init_ ← var i isInit;
  if init_ : bool then
    b ← var i btn;
    st ← var i isInState;
    allowed ← dispatchEvent b "stateful-btn:enable-before" st;
    if allowed : bool then
      wr ← var i wrapper;
      on_wrapper wr (λ w, setAttribute w "aria-hidden" "true") ;;
      text ← var i a11yText;
      (match text with
       | Str s => if truthy text then dom (setAttribute b "aria-label" s)
                  else mret tt
       | _ => mret tt
       end) ;;
      cls ← var i inStateClassName;
      (if truthy cls then tokens ← split cls; dom (classList_add b tokens)
       else mret tt) ;;
      assign i (set_isInState true) ;;
      st' ← var i isInState;
      dispatchEvent b "stateful-btn:enable-after" st' ;;
      mret tt
    else mret tt
  else mret tt.

Definition disableState (i : inst_id) : M world unit :=
  init_ ← var i isInit;
  if init_ : bool then
    b ← var i btn;
    st ← var i isInState;
    allowed ← dispatchEvent b "htz-stateful-btn:disable-before" st;
    if allowed : bool then
      text ← var i a11yText;
      (if truthy text then dom (removeAttribute b "aria-label")
       else mret tt) ;;
      cls ← var i inStateClassName;
      (if truthy cls then tokens ← split cls; dom (classList_remove b tokens)
       else mret tt) ;;
      wr ← var i wrapper;
      on_wrapper wr (λ w, removeAttribute w "aria-hidden") ;;
      assign i (set_isInState false) ;;
      st' ← var i isInState;
      dispatchEvent b "htz-stateful-btn:disable-after" st' ;;
      mret tt
    else mret tt
  else mret tt.

Definition toggle (i : inst_id) : M world unit :=
  init_ ← var i isInit;
  if init_ : bool then
    st ← var i isInState;
    if st : bool then disableState i else enableState i
  else mret tt.

(** The methods and the setters of the instance object. *)
Definition call (i : inst_id) (m : method) : M world unit :=
  match m with
  | Init => init i
  | Destroy => destroy i
  | Toggle => toggle i
  | EnableState => enableState i
  | DisableState => disableState i
  | SetA11yText v => var i btn ;; assign i (set_a11yText v)
  | SetStateClass v => var i btn ;; assign i (set_inStateClassName v)
  end.

End methods.

(** The call stack is finite: a call nested deeper than [depth] in event
    listeners is a [RangeError]. *)
Fixpoint invoke_at (depth : nat) (observers : event → list script)
    : inst_id → method → M world unit :=
  match depth with
  | O => λ _ _, throw RangeError
  | S depth' => call observers (invoke_at depth' observers)
  end.

(** A script run at top level. *)
Definition run (depth : nat) (observers : event → list script) (s : script)
    (w : world) : world :=
  (final_state (run_script (invoke_at depth observers) s (w, false))).1.

(** *** [getInstance] *)

(** The argument of [getInstance]: a string or an element. *)
Inductive reference :=
| RefString (s : string)
| RefElement (n : node_id).

#[global] Instance reference_eq_dec : EqDecision reference.
Proof. solve_decision. Defined.

(** [Object.prototype.toString.call(btn)]. *)
Definition class_name (r : reference) : string :=
  match r with
  | RefString _ => "String"
  | RefElement _ => "HTMLElement"
  end.

Definition object_toString (r : reference) : string :=
  "[object " +:+ class_name r +:+ "]".

(** The group captured by [/^\[object\s+(.*?)\]$/], for a string with one
    space after [object]. *)
Definition capture (s : string) : option string :=
  if String.prefix "[object " s then
    let rest := String.substring 8 (String.length s - 8) s in
    match String.get (String.length rest - 1) rest with
    | Some "]"%char => Some (String.substring 0 (String.length rest - 1) rest)
    | _ => None
    end
  else None.

Definition lower (c : ascii) : ascii :=
  let n := nat_of_ascii c in
  if bool_decide (65 ≤ n ≤ 90)%nat then ascii_of_nat (n + 32) else c.

Fixpoint toLowerCase (s : string) : string :=
  match s with
  | EmptyString => EmptyString
  | String c s' => String (lower c) (toLowerCase s')
  end.

Definition to_string (r : reference) : string :=
  match r with
  | RefString s => s
  | RefElement _ => object_toString r
  end.

(** [item.btn === elem] for the instance object [i]. *)
Definition has_target (w : world) (elem : option reference) (i : inst_id)
    : bool :=
  match closures w !! i with
  | Some c => bool_decide (Some (RefElement (btn c)) = elem)
  | None => false
  end.

Section lookup.

(** [document.getElementById]. *)
Variable getElementById : document → string → option node_id.

Definition getInstance (r : reference) : M world (option inst_id) :=
  group ← match capture (object_toString r) with
          | Some g => mret g
          | None => throw TypeError
          end;
  let instanceType :=
    toLowerCase (if bool_decide (group = "") then "" else group) in
  w ← get;
  let elem := if bool_decide (instanceType = "string")
              then RefElement <$> getElementById (doc w) (to_string r)
              else Some r in
  let instance :=
    head (filter (λ i, has_target w elem i) (allInstances w)) in
  mret instance.

End lookup.

End StatefulBtn.
Export StatefulBtn.
(** ** Vocabulary of the statements about documents *)

(** [child_of d p c]: [c] is in the child list of [p]. *)
Definition child_of (d : document) (p c : node_id) : Prop :=
  c ∈ children_of d p.

(** [descends d a b]: [b] is [a] or a descendant of [a]. *)
Definition descends (d : document) : relation node_id := rtc (child_of d).

(** Two documents with the same elements up to their child lists. *)
Definition shell (e : element) : string * gmap string string * list string :=
  (tagName e, attributes e, classList e).

Definition same_shells (d d' : document) : Prop :=
  ∀ k, shell <$> d' !! k = shell <$> d !! k.

(** *** Well-formed documents

    The nodes of a document form a forest: child lists have no repetition,
    a node is in the child list of at most one node, and no node is its own
    descendant. *)
Record well_formed (d : document) : Prop := WellFormed {
  wf_nodup : ∀ p, NoDup (children_of d p);
  wf_parent : ∀ p p' c, child_of d p c → child_of d p' c → p = p';
  wf_acyclic : ∀ p c, child_of d p c → ¬ descends d c p;
}.

Ltac unfold_M :=
  unfold mbind, M_bind, bind, mret, M_ret, ret, throw, get, modify; simpl.

(** The value of an attribute of a node, [None] when the node is not an
    element or has no such attribute. *)
Definition attr_of (d : document) (n : node_id) (name : string)
    : option string :=
  d !! n ≫= λ e, attributes e !! name.

(** The class tokens of a node, none when the node is not an element. *)
Definition classes_of (d : document) (n : node_id) : list string :=
  match d !! n with
  | Some e => classList e
  | None => []
  end.

(** An own property of [attrs] sets the attribute with its name in lower
    case.  [own_value attrs name] is the value that the loop of [wrapInner]
    leaves for the attribute [name]: the value of the last own property that
    sets it. *)
Fixpoint own_value (attrs : list property) (name : string) : option string :=
  match attrs with
  | [] => None
  | p :: attrs' =>
      match own_value attrs' name with
      | Some v => Some v
      | None =>
          if prop_own p && bool_decide (ascii_lowercase (prop_name p) = name)
          then Some (prop_value p) else None
      end
  end.

(** Every own property of [attrs] has a name that [setAttribute] accepts. *)
Definition accepted_names (attrs : list property) : bool :=
  forallb (λ p, negb (prop_own p) || valid_name (prop_name p)) attrs.

(** A name that [setAttribute] stores as it is written: a valid name in
    lower case other than [class]. *)
Definition plain_name (name : string) : bool :=
  valid_name name && bool_decide (ascii_lowercase name = name) &&
  negb (bool_decide (name = "class")).

(** The element that [wrapInner] uses as the wrapper. *)
Definition wrapper_elem (d : document) (wrapper : wrapper_spec) : node_id :=
  match wrapper with
  | TagName _ => fresh_node d
  | ElementRef n => n
  end.

(** A wrapper that the DOM accepts: a tag name must be a valid name, and an
    element given as the wrapper must not contain the parent (and so is not
    the parent itself). *)
Definition usable_wrapper (d : document) (parent : node_id)
    (wrapper : wrapper_spec) : Prop :=
  match wrapper with
  | TagName tag => valid_name tag = true
  | ElementRef n => is_Some (d !! n) ∧ ¬ descends d n parent
  end.


(** A check that computes and implies [well_formed]: child lists without
    repetition, every child with a larger identifier than its parent, and
    no node in two child lists. *)
Definition forest_check (d : document) : Prop :=
  Forall (λ pe : node_id * element,
            NoDup (childNodes pe.2) ∧
            Forall (λ c, pe.1 < c ∧
                         Forall (λ qe : node_id * element,
                                   c ∈ childNodes qe.2 → qe.1 = pe.1)
                                (map_to_list d))
                   (childNodes pe.2))
         (map_to_list d).

(** The reading of the net effect of [wrapInner] for every wrapper: the
    call returns the pair of the parent and the wrapper, the wrapper is the
    only child of the parent, and the wrapper holds the former children of
    the parent, in order. *)
Definition wraps_all_children (d : document) (parent : node_id)
    (wrapper : wrapper_spec) (attrs : list property) : Prop :=
  ∃ w d', wrapInner parent wrapper attrs d = Ok (parent, w) d' ∧
    children_of d' parent = [w] ∧
    children_of d' w = children_of d parent.

(** ** Vocabulary of the statements about instances *)

Arguments dispatchEvent : simpl never.

(** Hoare triples with an exceptional postcondition. *)
Definition triple {S A} (P : S → Prop) (m : M S A)
    (Q : A → S → Prop) (E : S → Prop) : Prop :=
  ∀ s, P s → match m s with
             | Ok a s' => Q a s'
             | Throw _ s' => E s'
             end.

(** A computation that keeps [P], whether it returns or throws. *)
Definition keeps {S A} (P : S → Prop) (m : M S A) : Prop :=
  triple P m (λ _, P) P.

(** The two state invariants of an instance: the wrapper is defined exactly
    when the instance is initialized, and an active instance is
    initialized. *)
Definition closure_ok (c : closure) : Prop :=
  (is_Some (wrapper c) ↔ isInit c = true) ∧
  (isInState c = true → isInit c = true).

Definition state_invariant (w : world) : Prop :=
  Forall closure_ok (closures w).

(** [x || attribute] as a value. *)
Definition resolved (x : value) (attribute : option string) : value :=
  if truthy x then x else of_attribute attribute.

(** Instance [i], if it exists, is not initialized. *)
Definition uninitialized (i : inst_id) (w : world) : Prop :=
  ∀ c, closures w !! i = Some c → isInit c = false.

(** Instance [i] exists and its wrapper is defined. *)
Definition wrapped (i : inst_id) (w : world) : Prop :=
  ∃ c, closures w !! i = Some c ∧ is_Some (wrapper c).

(** The statements of [init] that follow the call of [wrapInner]. *)
Definition init_tail (i : inst_id) (b : node_id) (pw : node_id * node_id)
    : M world unit :=
  assign i (set_wrapper (Some pw.2)) ;;
  text ← var i inStateText;
  a11y ← or_else text (of_attribute <$> dom (getAttribute b "data-in-state-text"));
  assign i (set_a11yText a11y) ;;
  cls ← var i inStateClass;
  clsName ← or_else cls (of_attribute <$> dom (getAttribute b "data-in-state-class"));
  assign i (set_inStateClassName clsName) ;;
  dom (setAttribute b "aria-live" "polite") ;;
  assign i (set_isInit true).

(** The closure that [init] leaves: initialized, with the resolved label
    text and class names, around the wrapper [wr]. *)
Definition initialized_closure (c : closure) (e : element) (wr : node_id)
    : closure :=
  Closure (btn c) (inStateText c) (inStateClass c) (isInState c) true
          (resolved (inStateText c) (attributes e !! "data-in-state-text"))
          (resolved (inStateClass c) (attributes e !! "data-in-state-class"))
          (Some wr).

(** A listener that only looks at the page. *)
Inductive bystander : script → Prop :=
| bystander_done : bystander SDone
| bystander_try body k :
    bystander body → bystander k → bystander (STry body k)
| bystander_read k : (∀ w, bystander (k w)) → bystander (SRead k).

(** A listener that only looks at the page and may veto the event. *)
Inductive onlooker : script → Prop :=
| onlooker_done : onlooker SDone
| onlooker_prevent k : onlooker k → onlooker (SPreventDefault k)
| onlooker_try body k :
    onlooker body → onlooker k → onlooker (STry body k)
| onlooker_read k : (∀ w, onlooker (k w)) → onlooker (SRead k).

(** The page with one more dispatched event. *)
Definition logged (ev : event) (w : world) : world :=
  set_dispatched (λ l, l ++ [ev]) w.

(** The class names are tokens that [classList] accepts. *)
Definition accepted_classes (v : value) : Prop :=
  match v with
  | Str s => s ≠ "" → validate_tokens (split_space s) = None
  | _ => True
  end.

(** The tokens of the class names, none when the value is falsy. *)
Definition class_tokens (v : value) : list string :=
  match v with
  | Str s => if bool_decide (s = "") then [] else split_space s
  | _ => []
  end.

(** The button as [enableState] leaves it. *)
Definition enabled_button (text cls : value) (e : element) : element :=
  Element (tagName e)
          (match text with
           | Str s => if bool_decide (s = "") then attributes e
                      else <["aria-label" := s]> (attributes e)
           | _ => attributes e
           end)
          (foldl add_token (classList e) (class_tokens cls))
          (childNodes e).

(** The button as [disableState] leaves it. *)
Definition disabled_button (text cls : value) (e : element) : element :=
  Element (tagName e)
          (if truthy text then delete "aria-label" (attributes e)
           else attributes e)
          (filter (λ t, t ∉ class_tokens cls) (classList e))
          (childNodes e).

(** A property of the page that the document, the variables of the
    existing closures and the event log do not affect. *)
Record stable (P : world → Prop) : Prop := Stable {
  stable_doc : ∀ w f, P w → P (set_doc f w);
  stable_assign : ∀ w i f, P w → P (set_closures (alter f i) w);
  stable_dispatched : ∀ w f, P w → P (set_dispatched f w);
}.

(** The registry lists instance objects that exist, each at most once. *)
Definition registry_ok (w : world) : Prop :=
  NoDup (allInstances w) ∧
  Forall (λ i, i < length (closures w)) (allInstances w).

(** At most one registered instance per element. *)
Definition one_instance_per_element (w : world) : Prop :=
  ∀ i j ci cj,
    i ∈ allInstances w → j ∈ allInstances w →
    closures w !! i = Some ci → closures w !! j = Some cj →
    btn ci = btn cj → i = j.

(** The states of the page that constructor and method calls reach from a
    page with an empty registry. *)
Inductive reachable (observers : event → list script) : world → Prop :=
| reachable_start d : reachable observers (World d [] [] [])
| reachable_run depth s w :
    reachable observers w → reachable observers (run depth observers s w).

(** How [init] resolves the label text or the class names: a truthy
    argument (a non-empty string) is kept; otherwise the value of the data
    attribute, or [null] when the button has no such attribute. *)
Definition resolves_to (argument : value) (attribute : option string)
    (result : value) : Prop :=
  (∀ s, argument = Str s → s ≠ "" → result = Str s) ∧
  (truthy argument = false →
   ∀ v, attribute = Some v → result = Str v) ∧
  (truthy argument = false → attribute = None → result = Null).

(** The reading of the resolution in which every argument that was passed
    wins: the argument unless it is [undefined], else the attribute, else
    [undefined]. *)
Definition argument_first (argument : value) (attribute : option string)
    : value :=
  match argument with
  | Undefined =>
      match attribute with
      | Some s => Str s
      | None => Undefined
      end
  | _ => argument
  end.

(** The reading in which a second [disableState()] in a row is a no-op that
    fires no event: it leaves the page as the first one left it. *)
Definition second_disable_is_silent (observers : event → list script)
    (i : inst_id) (w : world) : Prop :=
  ∀ depth w1,
    disableState observers (invoke_at depth observers) i w = Ok tt w1 →
    disableState observers (invoke_at depth observers) i w1 = Ok tt w1.

(** The reading in which the removal of the label by [destroy] is guarded
    by the label text: with the label text unset (falsy), [destroy] leaves
    the [aria-label] of the button as it was. *)
Definition label_kept_when_unset (i : inst_id) (w : world) : Prop :=
  ∀ c, closures w !! i = Some c → truthy (a11yText c) = false →
       attr_of (doc (final_state (destroy i w))) (btn c) "aria-label"
       = attr_of (doc w) (btn c) "aria-label".


(** ** Example pages *)

(** A button with an element child and a text child. *)
Definition button_doc : document :=
  {[ 1 := Element "button" {[ "data-in-state-text" := "Loading" ]}
                  ["o-btn"] [2; 3];
     2 := Element "b" ∅ [] [] ]}.

(** The page before any call of the package. *)
Definition button_page : world := World button_doc [] [] [].

(** No listener at all. *)
Definition no_observers : event → list script := λ _, [].

(** A listener of [enable-before] that destroys instance 0. *)
Definition destroying_observers : event → list script :=
  λ ev, if bool_decide (ev_type ev = "stateful-btn:enable-before")
        then [SCall 0 Destroy SDone] else [].

(** The page after [statefulBtn(btn, undefined, 'busy')]. *)
Definition busy_page : world :=
  final_state (statefulBtn 1 Undefined (Str "busy") button_page).

(** A listener that vetoes both "before" events. *)
Definition vetoing_observers : event → list script :=
  λ ev, if bool_decide (ev_type ev = "stateful-btn:enable-before") ||
           bool_decide (ev_type ev = "htz-stateful-btn:disable-before")
        then [SPreventDefault SDone] else [].

(** The page after two calls [statefulBtn(btn)] for the same button. *)
Definition twice_page : world :=
  run 1 no_observers
      (SNew 1 Undefined (Str "busy") (SNew 1 Undefined (Str "busy") SDone))
      button_page.

(** The page after [enableState()] and [disableState()]. *)
Definition cycled_page : world :=
  run 1 no_observers (SCall 0 EnableState (SCall 0 DisableState SDone))
      busy_page.

(** The page after [statefulBtn(btn)], without class names: the button has
    no [data-in-state-class] attribute either. *)
Definition plain_page : world :=
  final_state (statefulBtn 1 Undefined Undefined button_page).

(** The page after [enableState()], [disableState()] and a second
    [disableState()]. *)
Definition disabled_twice_page : world :=
  run 1 no_observers (SCall 0 DisableState SDone) cycled_page.

(** A button that carries an [aria-label] of its own and no data
    attribute. *)
Definition labelled_doc : document :=
  {[ 1 := Element "button" {[ "aria-label" := "Send" ]} [] [2];
     2 := Element "b" ∅ [] [] ]}.

(** The page after [statefulBtn(btn)] for that button: neither a label text
    nor class names. *)
Definition labelled_page : world :=
  final_state (statefulBtn 1 Undefined Undefined (World labelled_doc [] [] [])).


(** ** Vocabulary of the further properties *)

(** The outcome of a computation that reached the bound of a loop. *)
Definition diverged {S A} (o : outcome S A) : bool :=
  match o with
  | Throw Diverged _ => true
  | _ => false
  end.

(** No own property of [attrs] sets the attribute [name]: every property
    whose name in lower case is [name] is inherited. *)
Definition not_own (attrs : list property) (name : string) : Prop :=
  ∀ pr : property, pr ∈ attrs → ascii_lowercase (prop_name pr) = name →
                   prop_own pr = false.

(** The part of a closure that the call of [statefulBtn] fixes: its three
    parameters. *)
Definition parameters (c : closure) : node_id * value * value :=
  (btn c, inStateText c, inStateClass c).

(** A property of the page that depends on the registry and on the
    parameters of the existing closures only: the document, the event log
    and the [let] variables of a closure do not affect it. *)
Record settled (P : world → Prop) : Prop := Settled {
  settled_doc : ∀ w f, P w → P (set_doc f w);
  settled_assign : ∀ w i f,
    (∀ c, parameters (f c) = parameters c) →
    P w → P (set_closures (alter f i) w);
  settled_dispatched : ∀ w f, P w → P (set_dispatched f w);
}.

(** The page [w] holds what the page [w0] held and possibly more: the
    registry of [w0] is the beginning of the registry of [w], and the
    instances of [w0] are instances of [w] with the parameters they had. *)
Definition grows_from (w0 w : world) : Prop :=
  allInstances w0 `prefix_of` allInstances w ∧
  (parameters <$> closures w0) `prefix_of` (parameters <$> closures w).

(** The page after [statefulBtn(btn, undefined, 'busy')] and
    [enableState()]. *)
Definition active_page : world :=
  run 1 no_observers (SCall 0 EnableState SDone) busy_page.

(** The page after [statefulBtn(btn, undefined, 'busy')] and
    [instance.stateClass = ''] . *)
Definition blank_class_page : world :=
  run 1 no_observers (SCall 0 (SetStateClass (Str "")) SDone) busy_page.


(** [n] calls of [toggle()] in a row. *)
Fixpoint toggles (n : nat) (i : inst_id) : script :=
  match n with
  | O => SDone
  | S n' => SCall i Toggle (toggles n' i)
  end.

(** A listener of [enable-after] that calls [disableState()] on
    instance 0. *)
Definition undoing_observers : event → list script :=
  λ ev, if bool_decide (ev_type ev = "stateful-btn:enable-after")
        then [SCall 0 DisableState SDone] else [].

(** ** Facts about the document model *)

Section dom_facts.
Implicit Types (d : document) (e : element) (n p c w : node_id).

Lemma same_shells_refl d : same_shells d d.
Proof. by intros k. Qed.

Lemma same_shells_trans d1 d2 d3 :
  same_shells d1 d2 → same_shells d2 d3 → same_shells d1 d3.
Proof. intros H1 H2 k. by rewrite H2, H1. Qed.

Lemma same_shells_lookup d d' k e :
  same_shells d d' → d !! k = Some e →
  ∃ e', d' !! k = Some e' ∧ shell e' = shell e.
Proof.
  intros H Hk. specialize (H k). rewrite Hk in H.
  destruct (d' !! k) as [e'|]; [|done].
  apply (inj Some) in H. eauto.
Qed.

Lemma same_shells_is_Some d d' k :
  same_shells d d' → is_Some (d' !! k) ↔ is_Some (d !! k).
Proof.
  intros H. specialize (H k). rewrite <-!(fmap_is_Some shell). by rewrite H.
Qed.

Lemma contains_upto_sound fuel d a b :
  contains_upto fuel d a b = true → descends d a b.
Proof.
  revert a. induction fuel as [|fuel IH]; intros a; simpl.
  - rewrite orb_false_r. intros ->%bool_decide_eq_true. constructor.
  - intros [->%bool_decide_eq_true|H]%orb_true_iff; [constructor|].
    apply existsb_exists in H as (c & Hc & Hcb).
    eapply rtc_l; [|by apply IH].
    by apply list_elem_of_In.
Qed.

Lemma contains_false d a b : ¬ descends d a b → contains d a b = false.
Proof.
  intros H. destruct (contains d a b) eqn:E; [|done].
  destruct H. by eapply contains_upto_sound.
Qed.

Lemma lookup_detach n d k :
  detach n d !! k = set_childNodes (filter (λ c, c ≠ n)) <$> d !! k.
Proof. unfold detach. by rewrite lookup_fmap. Qed.

Lemma children_of_detach n d k :
  children_of (detach n d) k = filter (λ c, c ≠ n) (children_of d k).
Proof.
  unfold children_of. rewrite lookup_detach. by destruct (d !! k).
Qed.

Lemma same_shells_detach n d : same_shells d (detach n d).
Proof. intros k. rewrite lookup_detach. by destruct (d !! k). Qed.

Lemma same_shells_alter_children f p d :
  same_shells d (alter (set_childNodes f) p d).
Proof.
  intros k. destruct (decide (p = k)) as [->|].
  - rewrite lookup_alter_eq. by destruct (d !! k).
  - by rewrite lookup_alter_ne.
Qed.

Lemma children_of_alter f p d k :
  children_of (alter (set_childNodes f) p d) k =
  if decide (k = p) then
    match d !! p with Some e => f (childNodes e) | None => [] end
  else children_of d k.
Proof.
  unfold children_of. case_decide as Hk; subst.
  - rewrite lookup_alter_eq. by destruct (d !! p).
  - by rewrite lookup_alter_ne.
Qed.

Lemma children_of_is_Some d p c : c ∈ children_of d p → is_Some (d !! p).
Proof.
  unfold children_of. destruct (d !! p); [eauto|]. by intros ?%elem_of_nil.
Qed.

Lemma filter_id {A} (P : A → Prop) `{∀ x, Decision (P x)} (l : list A) :
  (∀ x, x ∈ l → P x) → filter P l = l.
Proof.
  induction l as [|x l IH]; intros HP; [done|].
  rewrite filter_cons_True by (apply HP; left).
  f_equal. apply IH. intros y Hy. apply HP. by right.
Qed.

Lemma filter_ne_notin (l : list node_id) c :
  c ∉ l → filter (λ x, x ≠ c) l = l.
Proof. intros Hc. apply filter_id. by intros x Hx ->. Qed.

Lemma descends_ext d d' a b :
  (∀ k, children_of d' k = children_of d k) →
  descends d' a b → descends d a b.
Proof.
  intros Hext. apply rtc_subrel. intros x y. unfold child_of.
  by rewrite Hext.
Qed.

Lemma well_formed_ext d d' :
  (∀ k, children_of d' k = children_of d k) →
  well_formed d → well_formed d'.
Proof.
  intros Hext [H1 H2 H3]. split.
  - intros p. rewrite Hext. apply H1.
  - intros p p' c. unfold child_of. rewrite !Hext. apply H2.
  - intros p c. unfold child_of. rewrite Hext. intros Hc Hd.
    apply (H3 p c Hc). by eapply descends_ext.
Qed.

Lemma well_formed_empty : well_formed ∅.
Proof.
  split; unfold child_of, children_of.
  - intros p. rewrite lookup_empty. constructor.
  - intros p p' c. rewrite lookup_empty. by intros ?%elem_of_nil.
  - intros p c. rewrite lookup_empty. by intros ?%elem_of_nil.
Qed.

(** A descendant other than the node itself is reached through its
    parent. *)
Lemma descends_inv_parent d a b q :
  well_formed d → descends d a b → a ≠ b → child_of d q b → descends d a q.
Proof.
  intros Hwf Hab Hne Hq. apply rtc_inv_r in Hab as [->|(q' & Haq & Hq')];
    [done|].
  by rewrite (wf_parent d Hwf q q' b).
Qed.

(** Moving the subtree of [n] below [p]: the edges into [n] are replaced by
    the edge from [p]. *)
Lemma descends_move d d1 p n a b :
  (∀ k c, child_of d1 k c → (k = p ∧ c = n) ∨ (c ≠ n ∧ child_of d k c)) →
  descends d1 a b →
  descends d a b ∨ (descends d a p ∧ descends d n b).
Proof.
  intros Hedge H. revert a H. apply rtc_ind_l; [left; constructor|].
  intros x y Hxy _ IH.
  destruct (Hedge _ _ Hxy) as [[? ?]|[_ Hxy']]; simplify_eq.
  - right. split; [constructor|]. destruct IH as [?|[_ ?]]; done.
  - destruct IH as [?|[? ?]]; [left|right; split; [|done]];
      by eapply rtc_l.
Qed.

Lemma well_formed_move d d1 p n :
  well_formed d → ¬ descends d n p →
  (∀ k, NoDup (children_of d1 k)) →
  (∀ k c, child_of d1 k c → (k = p ∧ c = n) ∨ (c ≠ n ∧ child_of d k c)) →
  well_formed d1.
Proof.
  intros Hwf Hnp Hnd Hedge. split; [done| |].
  - intros k k' c Hk Hk'.
    destruct (Hedge _ _ Hk) as [[? ?]|[? ?]],
             (Hedge _ _ Hk') as [[? ?]|[? ?]]; simplify_eq; try done.
    by eapply (wf_parent d Hwf).
  - intros k c Hk Hd.
    apply (descends_move d _ _ _ _ _ Hedge) in Hd.
    destruct (Hedge _ _ Hk) as [[? ?]|[? Hk0]]; simplify_eq.
    + destruct Hd as [?|[? ?]]; done.
    + destruct Hd as [?|[Hcp Hnk]]; [by eapply (wf_acyclic d Hwf)|].
      apply Hnp. etrans; [done|]. by eapply rtc_l.
Qed.

Lemma well_formed_prune d d1 :
  well_formed d →
  (∀ k, NoDup (children_of d1 k)) →
  (∀ k c, child_of d1 k c → child_of d k c) →
  well_formed d1.
Proof.
  intros Hwf Hnd Hedge. split; [done| |].
  - intros k k' c Hk Hk'. eapply (wf_parent d Hwf); eauto.
  - intros k c Hk Hd. eapply (wf_acyclic d Hwf); [eauto|].
    eapply rtc_subrel; [|done]. eauto.
Qed.

(** What a successful [appendChild] does to the child lists. *)
Lemma appendChild_ok d p n :
  is_Some (d !! p) → ¬ descends d n p →
  ∃ d', appendChild p (Some n) d = Ok tt d' ∧
    same_shells d d' ∧
    ∀ k, children_of d' k =
         if decide (k = p)
         then filter (λ c, c ≠ n) (children_of d p) ++ [n]
         else filter (λ c, c ≠ n) (children_of d k).
Proof.
  intros [e He] Hn. eexists. split.
  { unfold appendChild. rewrite He, contains_false by done. done. }
  split.
  { eapply same_shells_trans;
      [apply same_shells_detach|apply same_shells_alter_children]. }
  intros k. rewrite children_of_alter, lookup_detach, He. simpl.
  case_decide; [|apply children_of_detach].
  unfold children_of. by rewrite He.
Qed.

Lemma appendChild_well_formed d d' p n :
  well_formed d → ¬ descends d n p →
  (∀ k, children_of d' k =
        if decide (k = p)
        then filter (λ c, c ≠ n) (children_of d p) ++ [n]
        else filter (λ c, c ≠ n) (children_of d k)) →
  well_formed d'.
Proof.
  intros Hwf Hn Hch. apply (well_formed_move d d' p n); [done..| |].
  - intros k. rewrite Hch. case_decide.
    + apply NoDup_app. split_and!.
      * apply NoDup_filter, Hwf.
      * intros x [Hx _]%list_elem_of_filter ->%list_elem_of_singleton. done.
      * apply NoDup_singleton.
    + apply NoDup_filter, Hwf.
  - intros k c. unfold child_of. rewrite Hch. case_decide; subst.
    + rewrite elem_of_app, list_elem_of_filter, list_elem_of_singleton.
      naive_solver.
    + rewrite list_elem_of_filter. naive_solver.
Qed.

End dom_facts.

Section wrap_inner_facts.
Implicit Types (d : document) (e : element) (n p c w : node_id).

(** The loop moves the children that precede the wrapper, one by one and
    in order, to the end of the wrapper's child list. *)
Lemma move_children_ok parent w rest :
  ∀ fuel d,
    well_formed d →
    w ≠ parent →
    children_of d parent = rest ++ [w] →
    is_Some (d !! w) →
    length rest < fuel →
    ∃ d', move_children fuel parent w d = Ok tt d' ∧
      same_shells d d' ∧
      well_formed d' ∧
      children_of d' parent = [w] ∧
      children_of d' w = children_of d w ++ rest ∧
      (∀ k, k ≠ parent → k ≠ w → children_of d' k = children_of d k).
Proof.
  induction rest as [|c rest IH]; intros fuel d Hwf Hwp Hp Hw Hfuel;
    (destruct fuel as [|fuel]; [simpl in Hfuel; lia|]);
    (assert (is_Some (d !! parent)) as [ep Hep];
      [apply (children_of_is_Some d parent w); rewrite Hp; set_solver|]).
  - exists d. simpl. unfold_M. unfold firstChild.
    unfold children_of in Hp. rewrite Hep in Hp |- *. rewrite Hp. simpl.
    rewrite decide_True by done.
    split_and!; [done|apply same_shells_refl|done| |by rewrite app_nil_r|done].
    unfold children_of. by rewrite Hep.
  - pose proof (wf_nodup d Hwf parent) as Hnd. rewrite Hp in Hnd.
    apply NoDup_cons in Hnd as [Hc Hnd].
    assert (c ≠ w) as Hcw by set_solver.
    assert (child_of d parent c) as Hpc.
    { unfold child_of. rewrite Hp. set_solver. }
    assert (child_of d parent w) as Hpw.
    { unfold child_of. rewrite Hp. set_solver. }
    assert (¬ descends d c w) as Hncw.
    { intros Hd. apply (wf_acyclic d Hwf parent c Hpc).
      by eapply descends_inv_parent. }
    assert (c ∉ children_of d w) as Hcnw.
    { intros Hwc. apply Hwp. by eapply (wf_parent d Hwf). }
    destruct (appendChild_ok d w c) as (d1 & Happ & Hsh & Hch); [done..|].
    destruct (IH fuel d1) as (d' & Hloop & Hsh' & Hwf' & Hp' & Hw' & Hk').
    + by eapply appendChild_well_formed.
    + done.
    + rewrite Hch, decide_False by done. rewrite Hp, <-app_comm_cons.
      rewrite filter_cons_False by naive_solver.
      apply filter_ne_notin. set_solver.
    + by apply (same_shells_is_Some d d1).
    + simpl in Hfuel. lia.
    + exists d'. split_and!.
      * simpl. unfold_M. unfold firstChild.
        unfold children_of in Hp. rewrite Hep in Hp |- *. rewrite Hp. simpl.
        rewrite decide_False by congruence.
        by rewrite Happ.
      * by eapply same_shells_trans.
      * done.
      * done.
      * rewrite Hw', Hch, decide_True by done.
        by rewrite filter_ne_notin, <-app_assoc.
      * intros k Hkp Hkw. rewrite Hk', Hch, decide_False by done.
        apply filter_ne_notin. intros Hkc. apply Hkp.
        by eapply (wf_parent d Hwf).
Qed.

Lemma attr_of_same_shells d d' n name :
  same_shells d d' → attr_of d' n name = attr_of d n name.
Proof.
  intros Hsh. unfold attr_of. specialize (Hsh n).
  destruct (d !! n) as [e|], (d' !! n) as [e'|]; simpl in *; try done.
  unfold shell in Hsh. simplify_eq. congruence.
Qed.

Lemma node_ids_lookup d k e : d !! k = Some e → k ∈ node_ids d.
Proof.
  intros Hk. unfold node_ids. apply list_elem_of_bind.
  exists (k, e). split; [left|by apply elem_of_map_to_list].
Qed.

Lemma node_ids_child d k c : c ∈ children_of d k → c ∈ node_ids d.
Proof.
  unfold children_of. destruct (d !! k) as [e|] eqn:Hk;
    [|by intros ?%elem_of_nil].
  intros Hc. unfold node_ids. apply list_elem_of_bind.
  exists (k, e). split; [by right|by apply elem_of_map_to_list].
Qed.

Lemma fresh_node_lookup d : d !! fresh_node d = None.
Proof.
  destruct (d !! fresh_node d) as [e|] eqn:Hk; [|done].
  apply node_ids_lookup, max_list_elem_of_le in Hk.
  unfold fresh_node in Hk. lia.
Qed.

Lemma fresh_node_not_child d k : fresh_node d ∉ children_of d k.
Proof.
  intros Hk%node_ids_child%max_list_elem_of_le.
  unfold fresh_node in Hk. lia.
Qed.

Lemma children_of_insert_fresh d w tag k :
  d !! w = None →
  children_of (<[w := Element tag ∅ [] []]> d) k = children_of d k.
Proof.
  intros Hw. unfold children_of. destruct (decide (w = k)) as [->|].
  - by rewrite lookup_insert_eq, Hw.
  - by rewrite lookup_insert_ne.
Qed.

Lemma classes_of_same_shells d d' n :
  same_shells d d' → classes_of d' n = classes_of d n.
Proof.
  intros Hsh. unfold classes_of. specialize (Hsh n).
  destruct (d !! n) as [e|], (d' !! n) as [e'|]; simpl in *; try done.
  unfold shell in Hsh. simplify_eq. congruence.
Qed.

Lemma tagName_same_shells d d' n :
  same_shells d d' → tagName <$> d' !! n = tagName <$> d !! n.
Proof.
  intros Hsh. specialize (Hsh n).
  destruct (d !! n) as [e|], (d' !! n) as [e'|]; simpl in *; try done.
  unfold shell in Hsh. simplify_eq. congruence.
Qed.

(** [setAttribute] with a name that it accepts. *)
Lemma setAttribute_accepted d n name v e :
  d !! n = Some e → valid_name name = true →
  setAttribute n name v d =
  Ok tt (<[n := if bool_decide (ascii_lowercase name = "class")
                then set_classList (λ _, parse_tokens v) e
                else set_attributes (<[ascii_lowercase name := v]>) e]> d).
Proof.
  intros He Hv. unfold setAttribute. rewrite He, Hv. by case_bool_decide.
Qed.

Lemma set_attrs_ok w attrs :
  ∀ d, is_Some (d !! w) → accepted_names attrs = true →
    ∃ d', set_attrs w attrs d = Ok tt d' ∧
      is_Some (d' !! w) ∧
      (∀ k, k ≠ w → d' !! k = d !! k) ∧
      (∀ k, children_of d' k = children_of d k) ∧
      (∀ name, name ≠ "class" →
               attr_of d' w name =
               match own_value attrs name with
               | Some v => Some v
               | None => attr_of d w name
               end) ∧
      attr_of d' w "class" = attr_of d w "class" ∧
      classes_of d' w =
        match own_value attrs "class" with
        | Some v => parse_tokens v
        | None => classes_of d w
        end ∧
      tagName <$> d' !! w = tagName <$> d !! w.
Proof.
  induction attrs as [|[pn pv po] attrs IH]; intros d [e He] Hacc.
  { exists d. by split_and!. }
  simpl in Hacc. apply andb_prop in Hacc as [Hp Hacc]. simpl.
  set (e1 := if po then
               if bool_decide (ascii_lowercase pn = "class")
               then set_classList (λ _, parse_tokens pv) e
               else set_attributes (<[ascii_lowercase pn := pv]>) e
             else e).
  set (d1 := <[w := e1]> d).
  assert ((if po then setAttribute w pn pv else mret tt) d = Ok tt d1) as Hset.
  { unfold d1, e1. destruct po; simpl in Hp.
    - by apply setAttribute_accepted.
    - unfold_M. by rewrite insert_id. }
  unfold mbind, M_bind, bind. rewrite Hset.
  assert (d1 !! w = Some e1) as He1 by apply lookup_insert_eq.
  destruct (IH d1 (ex_intro _ e1 He1) Hacc)
    as (d' & Hd' & Hw' & Hk' & Hch' & Hat' & Hcl' & Hcs' & Htag').
  assert (childNodes e1 = childNodes e ∧ tagName e1 = tagName e) as [Hch1 Ht1].
  { unfold e1. destruct po; [|done]. by case_bool_decide. }
  exists d'. split_and!; [done..| | | | | |].
  - intros k Hk. rewrite Hk' by done. unfold d1. by rewrite lookup_insert_ne.
  - intros k. rewrite Hch'. unfold d1, children_of.
    destruct (decide (w = k)) as [->|];
      [by rewrite lookup_insert_eq, He|by rewrite lookup_insert_ne].
  - intros name Hname. rewrite Hat' by done.
    destruct (own_value attrs name); [done|].
    unfold attr_of. rewrite He1, He. simpl. unfold e1.
    destruct po; simpl; [|done].
    destruct (bool_decide (ascii_lowercase pn = "class")) eqn:Hclass.
    + apply bool_decide_eq_true in Hclass.
      rewrite bool_decide_eq_false_2 by congruence. done.
    + simpl. destruct (decide (ascii_lowercase pn = name)) as [Heq|Hne].
      * rewrite bool_decide_eq_true_2 by done. rewrite Heq.
        by rewrite lookup_insert_eq.
      * rewrite bool_decide_eq_false_2 by done.
        by rewrite lookup_insert_ne.
  - rewrite Hcl'. unfold attr_of. rewrite He1, He. simpl. unfold e1.
    destruct po; [|done]. case_bool_decide as Hclass; [done|]. simpl.
    by rewrite lookup_insert_ne.
  - rewrite Hcs'. destruct (own_value attrs "class"); [done|].
    unfold classes_of. rewrite He1, He. unfold e1.
    destruct po; simpl; [|done]. by case_bool_decide.
  - rewrite Htag', He1, He. simpl. by rewrite Ht1.
Qed.

Lemma own_value_elem attrs name v :
  own_value attrs name = Some v →
  ∃ pr : property, pr ∈ attrs ∧ prop_own pr = true ∧
                   ascii_lowercase (prop_name pr) = name ∧
                   prop_value pr = v.
Proof.
  revert v. induction attrs as [|pr attrs IH]; intros v; [done|]. simpl.
  destruct (own_value attrs name) as [v'|].
  - intros [= <-]. destruct (IH v' eq_refl) as (pr' & ? & ?).
    exists pr'. split; [by right|done].
  - destruct (prop_own pr) eqn:Ho; [|done]. simpl.
    case_bool_decide; [|done]. intros [= <-].
    exists pr. split; [by left|done].
Qed.

Lemma wrapInner_element d parent w attrs :
  well_formed d → is_Some (d !! parent) →
  is_Some (d !! w) → ¬ descends d w parent →
  accepted_names attrs = true →
  ∃ d', wrapInner parent (ElementRef w) attrs d = Ok (parent, w) d' ∧
    well_formed d' ∧
    children_of d' parent = [w] ∧
    children_of d' w =
      children_of d w ++ filter (λ c, c ≠ w) (children_of d parent) ∧
    (∀ k, k ≠ parent → k ≠ w →
          children_of d' k = filter (λ c, c ≠ w) (children_of d k)) ∧
    (∀ k, k ≠ w → shell <$> d' !! k = shell <$> d !! k) ∧
    is_Some (d' !! w) ∧
    (∀ name, name ≠ "class" →
             attr_of d' w name =
             match own_value attrs name with
             | Some v => Some v
             | None => attr_of d w name
             end) ∧
    attr_of d' w "class" = attr_of d w "class" ∧
    classes_of d' w =
      match own_value attrs "class" with
      | Some v => parse_tokens v
      | None => classes_of d w
      end ∧
    tagName <$> d' !! w = tagName <$> d !! w.
Proof.
  intros Hwf Hp Hw Hnd Hacc.
  assert (w ≠ parent) as Hwp by (intros ->; apply Hnd; constructor).
  destruct (set_attrs_ok w attrs d Hw Hacc)
    as (da & Hda & Hwa & Hka & Hcha & Hata & Hcla & Hcsa & Htaga).
  assert (well_formed da) as Hwfa by by eapply well_formed_ext.
  assert (is_Some (da !! parent)) as Hpa by (by rewrite Hka).
  assert (¬ descends da w parent) as Hnda.
  { intros Hd. apply Hnd. by eapply descends_ext. }
  destruct (appendChild_ok da parent w Hpa Hnda) as (d1 & Hd1 & Hsh1 & Hch1).
  assert (well_formed d1) as Hwf1 by by eapply appendChild_well_formed.
  assert (w ∉ children_of d w) as Hww.
  { intros Hc. apply (wf_acyclic d Hwf w w Hc). constructor. }
  destruct (move_children_ok parent w
              (filter (λ c, c ≠ w) (children_of d parent))
              (S (length (children_of d1 parent))) d1)
    as (d' & Hd' & Hsh' & Hwf' & Hp' & Hw' & Hk'); [done..| | | |].
  { by rewrite Hch1, decide_True, Hcha. }
  { by apply (same_shells_is_Some da d1). }
  { rewrite Hch1, decide_True, Hcha, length_app by done. simpl. lia. }
  assert (same_shells da d') as Hsh by by eapply same_shells_trans.
  exists d'. split_and!.
  - unfold wrapInner, mbind, M_bind, bind, mret, M_ret, ret, get.
    cbv beta iota. rewrite Hda. cbv beta iota. rewrite Hd1. cbv beta iota.
    by rewrite Hd'.
  - done.
  - done.
  - rewrite Hw', Hch1, decide_False, Hcha by done.
    by rewrite filter_ne_notin.
  - intros k Hkp Hkw. by rewrite Hk', Hch1, decide_False, Hcha.
  - intros k Hk. by rewrite Hsh', Hsh1, Hka.
  - by apply (same_shells_is_Some da d').
  - intros name Hname. rewrite <-Hata by done. by apply attr_of_same_shells.
  - rewrite <-Hcla. by apply attr_of_same_shells.
  - rewrite <-Hcsa. by apply classes_of_same_shells.
  - rewrite <-Htaga. by apply tagName_same_shells.
Qed.

Lemma appendChild_lookup p (o : option node_id) d k :
  is_Some (d !! k) → is_Some (final_state (appendChild p o d) !! k).
Proof.
  intros Hk. unfold appendChild.
  destruct (d !! p), o as [n|]; simpl; try done.
  destruct (contains d n p); simpl; [done|].
  apply (same_shells_is_Some d); [|done].
  eapply same_shells_trans;
    [apply same_shells_detach|apply same_shells_alter_children].
Qed.

Lemma move_children_lookup fuel p w k :
  ∀ d, is_Some (d !! k) →
       is_Some (final_state (move_children fuel p w d) !! k).
Proof.
  induction fuel as [|fuel IH]; intros d Hk; simpl; [done|].
  unfold_M. unfold firstChild. destruct (d !! p) as [e|]; simpl; [|done].
  case_decide; simpl; [done|].
  pose proof (appendChild_lookup w (head (childNodes e)) d k Hk) as Hk'.
  destruct (appendChild w (head (childNodes e)) d); simpl in *; [|done].
  by apply IH.
Qed.

Lemma wrapInner_Ok_parent p spec attrs d r d' :
  wrapInner p spec attrs d = Ok r d' → is_Some (d' !! p).
Proof.
  unfold wrapInner, mbind, M_bind, bind, mret, M_ret, ret, get.
  destruct (match spec with
            | TagName tag => createElement tag
            | ElementRef n => λ s, Ok n s
            end d) as [w d0|]; [|done].
  destruct (set_attrs w attrs d0) as [[] da|]; [|done].
  destruct (appendChild p (Some w) da) as [[] d1|] eqn:Happ; [|done].
  assert (is_Some (d1 !! p)) as Hp.
  { pose proof (appendChild_lookup p (Some w) da p) as H.
    rewrite Happ in H. apply H. unfold appendChild in Happ.
    destruct (da !! p); [eauto|done]. }
  pose proof (move_children_lookup (S (length (children_of d1 p))) p w p
                d1 Hp) as H.
  destruct (move_children _ p w d1); [|done]. by intros [= _ <-].
Qed.

Lemma wrapInner_tag d parent tag attrs :
  valid_name tag = true →
  wrapInner parent (TagName tag) attrs d =
  wrapInner parent (ElementRef (fresh_node d)) attrs
            (<[fresh_node d := Element (ascii_lowercase tag) ∅ [] []]> d).
Proof.
  intros Hv. unfold wrapInner, mbind, M_bind, bind, createElement.
  by rewrite Hv.
Qed.

(** A tag name that is no name of XML: [wrapInner] throws at
    [document.createElement], before it changes anything. *)
Lemma wrapInner_invalid_tag d parent tag attrs :
  valid_name tag = false →
  wrapInner parent (TagName tag) attrs d = Throw InvalidCharacterError d.
Proof.
  intros Hv. unfold wrapInner, mbind, M_bind, bind, createElement.
  by rewrite Hv.
Qed.

Lemma descends_childless d a b : children_of d a = [] → descends d a b → a = b.
Proof.
  intros Ha Hd. destruct Hd as [|x y z Hxy _]; [done|].
  unfold child_of in Hxy. rewrite Ha in Hxy. by apply elem_of_nil in Hxy.
Qed.

Lemma wrapInner_new_element d parent tag attrs :
  well_formed d → is_Some (d !! parent) →
  valid_name tag = true → accepted_names attrs = true →
  ∃ d', wrapInner parent (TagName tag) attrs d
          = Ok (parent, fresh_node d) d' ∧
    well_formed d' ∧
    children_of d' parent = [fresh_node d] ∧
    children_of d' (fresh_node d) = children_of d parent ∧
    (∀ k, k ≠ parent → k ≠ fresh_node d →
          children_of d' k = children_of d k) ∧
    (∀ k, k ≠ fresh_node d → shell <$> d' !! k = shell <$> d !! k) ∧
    is_Some (d' !! fresh_node d) ∧
    (∀ name, name ≠ "class" →
             attr_of d' (fresh_node d) name = own_value attrs name) ∧
    attr_of d' (fresh_node d) "class" = None ∧
    classes_of d' (fresh_node d) =
      match own_value attrs "class" with
      | Some v => parse_tokens v
      | None => []
      end ∧
    tagName <$> d' !! fresh_node d = Some (ascii_lowercase tag).
Proof.
  intros Hwf Hp Hv Hacc. rewrite wrapInner_tag by done.
  set (w := fresh_node d).
  set (d0 := <[w := Element (ascii_lowercase tag) ∅ [] []]> d).
  assert (d !! w = None) as Hw by apply fresh_node_lookup.
  assert (∀ k, children_of d0 k = children_of d k) as Hext.
  { intros k. by apply children_of_insert_fresh. }
  assert (w ≠ parent) as Hwp.
  { intros ->. rewrite Hw in Hp. by destruct Hp. }
  destruct (wrapInner_element d0 parent w attrs)
    as (d' & Hd' & Hwf' & Hp' & Hw' & Hk' & Hsh' & Hdw & Hat' & Hcl' & Hcs'
        & Htag').
  - by eapply well_formed_ext.
  - unfold d0. by rewrite lookup_insert_ne.
  - unfold d0. rewrite lookup_insert_eq. eauto.
  - intros Hd. apply Hwp. eapply descends_childless; [|done].
    rewrite Hext. unfold children_of. by rewrite Hw.
  - done.
  - exists d'. split_and!; [done..| | | | | | | |].
    + rewrite Hw', !Hext. unfold children_of at 1. rewrite Hw. simpl.
      apply filter_ne_notin, fresh_node_not_child.
    + intros k Hkp Hkw. rewrite Hk', Hext by done.
      apply filter_ne_notin, fresh_node_not_child.
    + intros k Hk. rewrite Hsh' by done. unfold d0.
      by rewrite lookup_insert_ne.
    + done.
    + intros name Hname. rewrite Hat' by done.
      destruct (own_value attrs name); [done|].
      unfold attr_of, d0. by rewrite lookup_insert_eq.
    + rewrite Hcl'. unfold attr_of, d0. by rewrite lookup_insert_eq.
    + rewrite Hcs'. destruct (own_value attrs "class"); [done|].
      unfold classes_of, d0. by rewrite lookup_insert_eq.
    + rewrite Htag'. unfold d0. by rewrite lookup_insert_eq.
Qed.

(** The loop of [wrapInner] ends on every document, well-formed or not:
    each turn takes the first child away from the parent. *)
Lemma move_children_bounded fuel parent w :
  ∀ d d', w ≠ parent → length (children_of d parent) < fuel →
          move_children fuel parent w d ≠ Throw Diverged d'.
Proof.
  induction fuel as [|fuel IH]; intros d d' Hwp Hlen; [lia|].
  simpl. unfold_M. unfold firstChild, children_of in *.
  destruct (d !! parent) as [e|] eqn:He; simpl; [|done].
  case_decide as Hfirst; [done|].
  destruct (childNodes e) as [|c cs] eqn:Hcs; simpl.
  { unfold appendChild. by destruct (d !! w). }
  unfold appendChild. destruct (d !! w) as [ew|] eqn:Hew; [|done].
  destruct (contains d c w); [done|].
  apply IH; [done|].
  rewrite lookup_alter_ne, lookup_detach, He by done. simpl. rewrite Hcs.
  rewrite filter_cons_False by naive_solver.
  pose proof (length_filter (λ x, x ≠ c) cs). simpl in Hlen. lia.
Qed.

Lemma wrapInner_terminates parent wrapper attrs d d' :
  wrapInner parent wrapper attrs d ≠ Throw Diverged d'.
Proof.
  unfold wrapInner, mbind, M_bind, bind, mret, M_ret, ret, get.
  destruct (match wrapper with
            | TagName tag => createElement tag
            | ElementRef n => λ s, Ok n s
            end d) as [w d0|e d0] eqn:Hw.
  2: { destruct wrapper as [tag|n]; [|done]. unfold createElement in Hw.
       destruct (valid_name tag); [done|]. by injection Hw as <- <-. }
  assert (∀ x, set_attrs w attrs d0 ≠ Throw Diverged x) as Hattrs.
  { clear Hw. revert d0. induction attrs as [|pr attrs IH]; intros d0 x; [done|].
    simpl. unfold_M.
    destruct (prop_own pr); [|apply IH].
    unfold setAttribute. destruct (d0 !! w); [|done].
    destruct (valid_name (prop_name pr)); [|done].
    case_bool_decide; apply IH. }
  destruct (set_attrs w attrs d0) as [[] da|e da] eqn:Hda.
  2: { intros [= -> ->]. by eapply Hattrs. }
  unfold appendChild. destruct (da !! parent) as [ep|] eqn:Hp; [|done].
  destruct (contains da w parent) eqn:Hcont; [done|].
  assert (w ≠ parent) as Hwp.
  { intros ->. unfold contains in Hcont.
    destruct (size da); simpl in Hcont;
      by rewrite bool_decide_eq_true_2 in Hcont. }
  match goal with
  | |- match move_children ?fuel parent w ?d1 with _ => _ end ≠ _ =>
      pose proof (move_children_bounded fuel parent w d1 d' Hwp) as Hb;
      destruct (move_children fuel parent w d1) as [[] d2|e d2]; [done|]
  end.
  intros [= -> ->]. apply Hb; [lia|done].
Qed.

End wrap_inner_facts.

(** ** Unwrapping *)

Section unwrap_facts.
Implicit Types (d : document) (e : element) (n p c w : node_id).

Lemma insert_before_middle n ref (pre post : list node_id) :
  ref ∉ pre →
  insert_before n ref (pre ++ ref :: post) = pre ++ n :: ref :: post.
Proof.
  induction pre as [|x pre IH]; intros Hpre; simpl.
  - by rewrite decide_True.
  - rewrite decide_False by set_solver. f_equal. apply IH. set_solver.
Qed.

Lemma insertBefore_ok d p n ref pre post :
  well_formed d →
  children_of d p = pre ++ ref :: post →
  n ≠ ref → n ∉ pre → n ∉ post → ¬ descends d n p →
  ∃ d', insertBefore p (Some n) ref d = Ok tt d' ∧
    same_shells d d' ∧ well_formed d' ∧
    children_of d' p = pre ++ n :: ref :: post ∧
    ∀ k, k ≠ p → children_of d' k = filter (λ c, c ≠ n) (children_of d k).
Proof.
  intros Hwf Hp Hnref Hpre Hpost Hnd.
  assert (is_Some (d !! p)) as [e He].
  { apply (children_of_is_Some d p ref). rewrite Hp. set_solver. }
  pose proof (wf_nodup d Hwf p) as Hnodup. rewrite Hp in Hnodup.
  assert (ref ∉ pre) as Hrefpre.
  { apply NoDup_app in Hnodup as (_ & Hdisj & _). intros Hin.
    apply (Hdisj ref Hin). by left. }
  assert (childNodes e = pre ++ ref :: post) as Hch.
  { unfold children_of in Hp. by rewrite He in Hp. }
  set (d' := alter (set_childNodes (insert_before n ref)) p (detach n d)).
  assert (∀ k, children_of d' k =
               if decide (k = p) then pre ++ n :: ref :: post
               else filter (λ c, c ≠ n) (children_of d k)) as Hch'.
  { intros k. unfold d'. rewrite children_of_alter, lookup_detach, He. simpl.
    case_decide; [|apply children_of_detach].
    rewrite Hch, filter_ne_notin by set_solver.
    by apply insert_before_middle. }
  exists d'. split_and!.
  - unfold insertBefore. rewrite He, contains_false by done.
    rewrite bool_decide_eq_true_2 by (rewrite Hch; set_solver).
    by rewrite decide_False.
  - eapply same_shells_trans;
      [apply same_shells_detach|apply same_shells_alter_children].
  - apply (well_formed_move d d' p n); [done..| |].
    + intros k. rewrite Hch'. case_decide; [|apply NoDup_filter, Hwf].
      apply NoDup_app in Hnodup as (Hn1 & Hn2 & Hn3).
      apply NoDup_app. split_and!; [done| |].
      * intros x Hx [->|Hx']%elem_of_cons; [done|]. by apply (Hn2 x).
      * by constructor; [set_solver|].
    + intros k c. unfold child_of. rewrite Hch'. case_decide; subst.
      * rewrite Hp. set_solver.
      * rewrite list_elem_of_filter. naive_solver.
  - by rewrite Hch', decide_True.
  - intros k Hk. by rewrite Hch', decide_False.
Qed.

(** The loop moves the children of the wrapper, one by one and in order, in
    front of the wrapper. *)
Lemma unwrap_ok b w rest :
  ∀ fuel d pre post,
    well_formed d →
    children_of d b = pre ++ w :: post →
    children_of d w = rest → is_Some (d !! w) →
    length rest < fuel →
    ∃ d', unwrap fuel b w d = Ok tt d' ∧
      same_shells d d' ∧ well_formed d' ∧
      children_of d' b = pre ++ rest ++ w :: post ∧
      children_of d' w = [] ∧
      (∀ k, k ≠ b → k ≠ w → children_of d' k = children_of d k).
Proof.
  induction rest as [|c rest IH]; intros fuel d pre post Hwf Hb Hw [ew Hew] Hfuel;
    (destruct fuel as [|fuel]; [simpl in Hfuel; lia|]);
    (assert (childNodes ew = children_of d w) as Hchw;
      [by unfold children_of; rewrite Hew|]).
  - exists d. simpl. unfold_M. unfold firstChild. rewrite Hew, Hchw, Hw. simpl.
    split_and!; [done|apply same_shells_refl|done..].
  - assert (child_of d b w) as Hbw.
    { unfold child_of. rewrite Hb. set_solver. }
    assert (child_of d w c) as Hwc.
    { unfold child_of. rewrite Hw. set_solver. }
    assert (w ≠ b) as Hwb.
    { intros ->. apply (wf_acyclic d Hwf b b Hbw). constructor. }
    assert (c ≠ w) as Hcw.
    { intros ->. apply (wf_acyclic d Hwf w w Hwc). constructor. }
    assert (c ∉ children_of d b) as Hcb.
    { intros Hin. apply Hwb. by eapply (wf_parent d Hwf). }
    assert (¬ descends d c b) as Hnd.
    { intros Hd. apply (wf_acyclic d Hwf w c Hwc).
      eapply rtc_r; [exact Hd|done]. }
    rewrite Hb in Hcb.
    destruct (insertBefore_ok d b c w pre post)
      as (d1 & Hins & Hsh1 & Hwf1 & Hb1 & Hk1); [done..|set_solver|set_solver|done|].
    pose proof (wf_nodup d Hwf w) as Hnd_w. rewrite Hw in Hnd_w.
    apply NoDup_cons in Hnd_w as [Hc_rest _].
    destruct (IH fuel d1 (pre ++ [c]) post)
      as (d' & Hun & Hsh' & Hwf' & Hb' & Hw' & Hk').
    + done.
    + by rewrite Hb1, <-app_assoc.
    + rewrite Hk1, Hw by done.
      rewrite filter_cons_False by naive_solver.
      by apply filter_ne_notin.
    + apply (same_shells_is_Some d d1); eauto.
    + simpl in Hfuel. lia.
    + exists d'. split_and!.
      * simpl. unfold_M. unfold firstChild. rewrite Hew, Hchw, Hw. simpl.
        by rewrite Hins.
      * by eapply same_shells_trans.
      * done.
      * by rewrite Hb', <-app_assoc.
      * done.
      * intros k Hkb Hkw. rewrite Hk', Hk1 by done.
        apply filter_ne_notin. intros Hin. apply Hkw.
        by eapply (wf_parent d Hwf).
Qed.

Lemma removeChild_ok d p c pre post :
  well_formed d → children_of d p = pre ++ c :: post →
  ∃ d', removeChild p c d = Ok tt d' ∧
    same_shells d d' ∧ well_formed d' ∧
    children_of d' p = pre ++ post ∧
    ∀ k, k ≠ p → children_of d' k = children_of d k.
Proof.
  intros Hwf Hp.
  assert (is_Some (d !! p)) as [e He].
  { apply (children_of_is_Some d p c). rewrite Hp. set_solver. }
  assert (childNodes e = pre ++ c :: post) as Hch.
  { unfold children_of in Hp. by rewrite He in Hp. }
  pose proof (wf_nodup d Hwf p) as Hnodup. rewrite Hp in Hnodup.
  exists (detach c d). split_and!.
  - unfold removeChild. rewrite He.
    by rewrite bool_decide_eq_true_2 by (rewrite Hch; set_solver).
  - apply same_shells_detach.
  - apply (well_formed_prune d); [done| |].
    + intros k. rewrite children_of_detach. apply NoDup_filter, Hwf.
    + intros k x. unfold child_of. rewrite children_of_detach.
      by intros [_ ?]%list_elem_of_filter.
  - rewrite children_of_detach, Hp, filter_app, filter_cons_False
      by naive_solver.
    apply NoDup_app in Hnodup as (_ & Hdisj & [Hc _]%NoDup_cons).
    rewrite !filter_ne_notin; [done..|].
    intros Hin. apply (Hdisj c Hin). by left.
  - intros k Hk. rewrite children_of_detach. apply filter_ne_notin.
    intros Hin. apply Hk. eapply (wf_parent d Hwf); [done|].
    unfold child_of. rewrite Hp. set_solver.
Qed.

End unwrap_facts.

(** ** [wrapInner]: the net effect *)

Section wrap_inner_theorems.
Implicit Types (d : document) (e : element) (n p c w : node_id).

Lemma forest_check_well_formed d : forest_check d → well_formed d.
Proof.
  intros Hc. unfold forest_check in Hc. rewrite Forall_forall in Hc.
  assert (∀ p c, child_of d p c → ∃ e, d !! p = Some e ∧ c ∈ childNodes e)
    as Hedge.
  { intros p c. unfold child_of, children_of.
    destruct (d !! p) as [e|]; [eauto|by intros ?%elem_of_nil]. }
  assert (∀ p c, child_of d p c → p < c) as Hlt.
  { intros p c (e & He & Hce)%Hedge.
    apply elem_of_map_to_list, Hc in He as [_ He]. simpl in He.
    rewrite Forall_forall in He. by apply He. }
  split.
  - intros p. unfold children_of. destruct (d !! p) as [e|] eqn:He;
      [|constructor].
    by apply elem_of_map_to_list, Hc in He as [? _].
  - intros p p' c (e & He & Hce)%Hedge (e' & He' & Hce')%Hedge.
    apply elem_of_map_to_list, Hc in He as [_ He]. simpl in He.
    rewrite Forall_forall in He. destruct (He c Hce) as [_ Hq].
    rewrite Forall_forall in Hq. apply elem_of_map_to_list in He'.
    symmetry. by apply (Hq (p', e')).
  - intros p c Hpc Hd. apply Hlt in Hpc.
    assert (c ≤ p)%nat; [|lia]. clear Hpc.
    induction Hd as [|x y z Hxy _ IH]; [done|]. apply Hlt in Hxy. lia.
Qed.

(** C1, amended.  In a well-formed document, for a parent that is an
    element, a wrapper that is a tag name that [createElement] accepts, or
    an element that does not contain the parent, and an object [attrs] whose
    own properties have names that [setAttribute] accepts: [wrapInner]
    returns the pair of the parent and the wrapper element; the wrapper is
    then the only child of the parent; a wrapper created from a tag name is
    a new element with that name in lower case and holds the former
    children of the parent in their order, and a wrapper given as an element
    holds the children it had, followed by the former children of the parent
    other than the wrapper itself, in their order; every own property of
    [attrs] is an attribute of the wrapper, under its name in lower case and
    with the value of the last own property of that lower-case name, the
    [class] attribute being seen as the class tokens of its value. *)
Theorem wrapInner_wraps d parent wrapper attrs :
  well_formed d → is_Some (d !! parent) → usable_wrapper d parent wrapper →
  accepted_names attrs = true →
  ∃ d', wrapInner parent wrapper attrs d
          = Ok (parent, wrapper_elem d wrapper) d' ∧
    children_of d' parent = [wrapper_elem d wrapper] ∧
    match wrapper with
    | TagName tag =>
        children_of d' (wrapper_elem d wrapper) = children_of d parent ∧
        tagName <$> d' !! wrapper_elem d wrapper
        = Some (ascii_lowercase tag)
    | ElementRef n =>
        children_of d' n =
        children_of d n ++ filter (λ c, c ≠ n) (children_of d parent)
    end ∧
    (∀ name value,
       own_value attrs name = Some value →
       if bool_decide (name = "class")
       then classes_of d' (wrapper_elem d wrapper) = parse_tokens value
       else attr_of d' (wrapper_elem d wrapper) name = Some value) ∧
    well_formed d'.
Proof.
  intros Hwf Hp Hu Hacc. destruct wrapper as [tag|w]; simpl.
  - simpl in Hu.
    destruct (wrapInner_new_element d parent tag attrs Hwf Hp Hu Hacc)
      as (d' & Hd' & Hwf' & Hp' & Hw' & _ & _ & _ & Hat' & _ & Hcs' & Htag').
    exists d'. split_and!; [done..| |done].
    intros name value Hown. case_bool_decide as Hname.
    + subst name. by rewrite Hcs', Hown.
    + by rewrite Hat'.
  - destruct Hu as [Hw Hnd].
    destruct (wrapInner_element d parent w attrs)
      as (d' & Hd' & Hwf' & Hp' & Hw' & _ & _ & _ & Hat' & _ & Hcs' & _);
      [done..|].
    exists d'. split_and!; [done..| |done].
    intros name value Hown. case_bool_decide as Hname.
    + subst name. by rewrite Hcs', Hown.
    + by rewrite Hat', Hown.
Qed.

Lemma button_doc_well_formed : well_formed button_doc.
Proof.
  apply forest_check_well_formed.
  apply (bool_decide_unpack (forest_check button_doc)). by vm_compute.
Qed.

Lemma wrapInner_wraps_witness :
  ∃ d', wrapInner 1 (TagName "SPAN")
                  [Property "Title" "x" true; Property "class" "inner" true]
                  button_doc = Ok (1, 4) d' ∧
    children_of d' 1 = [4] ∧ children_of d' 4 = [2; 3] ∧
    tagName <$> d' !! 4 = Some "span" ∧
    attr_of d' 4 "title" = Some "x" ∧
    classes_of d' 4 = ["inner"].
Proof.
  destruct (wrapInner_wraps button_doc 1 (TagName "SPAN")
              [Property "Title" "x" true; Property "class" "inner" true])
    as (d' & Hd' & Hp & [Hw Htag] & Hat & _).
  - apply button_doc_well_formed.
  - apply (bool_decide_unpack (is_Some _)). by vm_compute.
  - by vm_compute.
  - by vm_compute.
  - exists d'. split_and!; [done..| |].
    + by apply (Hat "title" "x").
    + by apply (Hat "class" "inner").
Defined.

(** C1 as stated fails for a wrapper that is a child of the parent: the
    wrapper is a former child and does not end up inside itself. *)
Lemma wrapInner_child_wrapper_counterexample :
  ¬ wraps_all_children button_doc 1 (ElementRef 2) [].
Proof.
  intros (w & d' & Hd' & _ & Hw). vm_compute in Hd'.
  injection Hd' as <- <-. vm_compute in Hw. discriminate.
Qed.

End wrap_inner_theorems.

(** ** Stepping through the methods *)

Section stepping.
Implicit Types (w : world) (c : closure) (i : inst_id) (d : document).

Lemma triple_bind {S A B} (P : S → Prop) (m : M S A) (k : A → M S B)
    (Q : A → S → Prop) (R : B → S → Prop) (E : S → Prop) :
  triple P m Q E → (∀ a, triple (Q a) (k a) R E) → triple P (m ≫= k) R E.
Proof.
  intros Hm Hk s Hs. specialize (Hm s Hs). unfold_M.
  destruct (m s) as [a s'|e s']; [by apply Hk|done].
Qed.

Lemma triple_ret {S A} (P : S → Prop) (a : A) (Q : A → S → Prop) E :
  (∀ s, P s → Q a s) → triple P (mret a) Q E.
Proof. intros H s Hs. by apply H. Qed.

Lemma triple_throw {S A} (P : S → Prop) e (Q : A → S → Prop) (E : S → Prop) :
  (∀ s, P s → E s) → triple P (throw e) Q E.
Proof. intros H s Hs. by apply H. Qed.

Lemma triple_conseq {S A} (P P' : S → Prop) (m : M S A)
    (Q Q' : A → S → Prop) (E E' : S → Prop) :
  triple P' m Q' E' →
  (∀ s, P s → P' s) → (∀ a s, Q' a s → Q a s) → (∀ s, E' s → E s) →
  triple P m Q E.
Proof.
  intros Hm HP HQ HE s Hs. specialize (Hm s (HP s Hs)).
  destruct (m s); eauto.
Qed.

Lemma triple_case {S A} (P : S → Prop) (m : M S A) Q E :
  (∀ s, P s → triple (λ s', s' = s) m Q E) → triple P m Q E.
Proof. intros H s Hs. by apply (H s Hs). Qed.

Lemma triple_var {A} i (proj : closure → A) (P : world → Prop) Q E :
  (∀ w c, P w → closures w !! i = Some c → Q (proj c) w) →
  (∀ w, P w → closures w !! i = None → E w) →
  triple P (var i proj) Q E.
Proof.
  intros HQ HE w Hw. unfold var.
  destruct (closures w !! i) eqn:Hi; eauto.
Qed.

Lemma triple_assign i f (P : world → Prop) Q E :
  (∀ w, P w → Q tt (set_closures (alter f i) w)) →
  triple P (assign i f) Q E.
Proof. intros HQ w Hw. by apply HQ. Qed.

(** A DOM operation leaves the closures, the registry and the events as
    they are. *)
Lemma triple_dom {A} (m : M document A) (P : world → Prop) Q E :
  (∀ w a d, P w → m (doc w) = Ok a d → Q a (set_doc (λ _, d) w)) →
  (∀ w e d, P w → m (doc w) = Throw e d → E (set_doc (λ _, d) w)) →
  triple P (dom m) Q E.
Proof.
  intros HQ HE w Hw. unfold dom.
  destruct (m (doc w)) eqn:Hm; eauto.
Qed.

Lemma keeps_dom {A} (m : M document A) (P : world → Prop) :
  (∀ w d, P w → P (set_doc (λ _, d) w)) → keeps P (dom m).
Proof. intros H. apply triple_dom; eauto. Qed.

(** *** Running a method one statement at a time *)

Lemma step_var {A B} i (proj : closure → A) (k : A → M world B) w c :
  closures w !! i = Some c → (var i proj ≫= k) w = k (proj c) w.
Proof. intros Hc. unfold var. unfold_M. by rewrite Hc. Qed.

Lemma step_assign {B} i f (k : unit → M world B) w :
  (assign i f ≫= k) w = k tt (set_closures (alter f i) w).
Proof. done. Qed.

Lemma step_dom {A B} (m : M document A) (k : A → M world B) w a d :
  m (doc w) = Ok a d → (dom m ≫= k) w = k a (set_doc (λ _, d) w).
Proof. intros Hm. unfold dom. unfold_M. by rewrite Hm. Qed.

Lemma step_dom_throw {A B} (m : M document A) (k : A → M world B) w e d :
  m (doc w) = Throw e d → (dom m ≫= k) w = Throw e (set_doc (λ _, d) w).
Proof. intros Hm. unfold dom. unfold_M. by rewrite Hm. Qed.

Lemma step_ret {S A B} (a : A) (k : A → M S B) s : (mret a ≫= k) s = k a s.
Proof. done. Qed.

Lemma step_bind {S A B} (m : M S A) (k : A → M S B) s a s' :
  m s = Ok a s' → (m ≫= k) s = k a s'.
Proof. intros Hm. unfold_M. by rewrite Hm. Qed.

Lemma step_bind_throw {S A B} (m : M S A) (k : A → M S B) s e s' :
  m s = Throw e s' → (m ≫= k) s = Throw e s'.
Proof. intros Hm. unfold_M. by rewrite Hm. Qed.

End stepping.

(** ** The state invariants *)

Section invariants.
Implicit Types (w : world) (c : closure) (i : inst_id) (d : document).

Lemma state_invariant_set_doc w f :
  state_invariant w → state_invariant (set_doc f w).
Proof. done. Qed.

Lemma state_invariant_alter w i f :
  state_invariant w →
  (∀ c, closures w !! i = Some c → closure_ok c → closure_ok (f c)) →
  state_invariant (set_closures (alter f i) w).
Proof. intros Hw Hf. by apply Forall_alter. Qed.

Lemma keeps_var {A} i (proj : closure → A) (P : world → Prop) :
  keeps P (var i proj).
Proof. by apply triple_var. Qed.

Lemma keeps_bind {S A B} (P : S → Prop) (m : M S A) (k : A → M S B) :
  keeps P m → (∀ a, keeps P (k a)) → keeps P (m ≫= k).
Proof. intros Hm Hk. by eapply triple_bind. Qed.

Lemma keeps_ret {S A} (P : S → Prop) (a : A) : keeps P (mret a).
Proof. by apply triple_ret. Qed.

Lemma keeps_throw {S A} (P : S → Prop) e : keeps P (throw (A:=A) e).
Proof. by apply triple_throw. Qed.

Lemma keeps_if {S A} (P : S → Prop) (b : bool) (m1 m2 : M S A) :
  keeps P m1 → keeps P m2 → keeps P (if b then m1 else m2).
Proof. by destruct b. Qed.

Lemma keeps_on_wrapper {A} o (f : node_id → M document A) (P : world → Prop) :
  (∀ w d, P w → P (set_doc (λ _, d) w)) → keeps P (on_wrapper o f).
Proof.
  intros H. destruct o; simpl; [by apply keeps_dom|apply keeps_throw].
Qed.

Lemma keeps_split (P : world → Prop) v : keeps P (split v).
Proof. destruct v; simpl; first [apply keeps_throw|apply keeps_ret]. Qed.

(** [destroy] keeps the invariants and, when it returns, leaves the instance
    uninitialized. *)
Lemma destroy_invariant i :
  triple state_invariant (destroy i)
         (λ _ w, state_invariant w ∧ uninitialized i w) state_invariant.
Proof.
  unfold destroy. eapply triple_bind.
  { apply (triple_var i isInit state_invariant
             (λ b w, state_invariant w ∧ (b = false → uninitialized i w)));
      [|done].
    intros w c Hw Hc. split; [done|]. intros Hb c' Hc'. congruence. }
  intros [|]; [|apply triple_ret; naive_solver].
  eapply triple_conseq with (P' := state_invariant)
    (Q' := λ _ w, state_invariant w ∧ uninitialized i w);
    [|naive_solver|done|done].
  eapply triple_bind; [apply keeps_var|intros b].
  eapply triple_bind; [by apply keeps_dom|intros ?].
  eapply triple_bind; [by apply keeps_dom|intros ?].
  eapply triple_bind; [apply keeps_var|intros cls].
  eapply triple_bind; [apply keeps_split|intros tokens].
  eapply triple_bind; [by apply keeps_dom|intros ?].
  eapply triple_bind; [apply keeps_var|intros wr].
  eapply triple_bind; [by apply keeps_on_wrapper|intros ?].
  eapply triple_bind; [by apply keeps_on_wrapper|intros ?].
  intros w Hw. unfold_M. split.
  - unfold state_invariant. simpl.
    rewrite !list_alter_alter_eq. apply Forall_alter; [done|].
    intros c _ _. split; simpl; [|done]. split; [by intros []|done].
  - intros c. simpl. rewrite !list_alter_alter_eq, list_lookup_alter_eq.
    destruct (closures w !! i); simpl; [|done]. by intros [= <-].
Qed.

Lemma alter_insert (l : list closure) i c f :
  l !! i = Some c → alter f i l = <[i := f c]> l.
Proof.
  intros Hi. apply list_eq. intros j. destruct (decide (i = j)) as [->|].
  - rewrite list_lookup_alter_eq, Hi, list_lookup_insert_eq; [done|].
    by eapply lookup_lt_Some.
  - by rewrite list_lookup_alter_ne, list_lookup_insert_ne.
Qed.

Lemma init_tail_run i b pw w c e :
  closures w !! i = Some c → doc w !! b = Some e →
  init_tail i b pw w =
  Ok tt (World (<[b := set_attributes (<["aria-live" := "polite"]>) e]> (doc w))
               (<[i := initialized_closure c e pw.2]> (closures w))
               (allInstances w) (dispatched w)).
Proof.
  intros Hc He. destruct w as [d cs al ev]. simpl in *.
  unfold init_tail, assign, var, or_else, dom, modify, fmap, M_fmap, resolved,
    set_closures, set_doc, getAttribute, setAttribute.
  unfold_M.
  repeat (rewrite ?list_lookup_alter_eq, ?Hc, ?He; simpl).
  destruct (truthy (inStateText c)) eqn:Ht; simpl;
    repeat (rewrite ?list_lookup_alter_eq, ?Hc, ?He; simpl);
    destruct (truthy (inStateClass c)) eqn:Ht'; simpl;
    repeat (rewrite ?list_lookup_alter_eq, ?Hc, ?He; simpl);
    rewrite !list_alter_alter_eq, (alter_insert cs i c) by done;
    unfold initialized_closure, resolved; rewrite Ht, Ht'; done.
Qed.

Lemma init_invariant i : keeps state_invariant (init i).
Proof.
  unfold keeps, init. eapply triple_bind.
  { apply (triple_var i isInit state_invariant
             (λ b w, state_invariant w ∧ (b = false → uninitialized i w)));
      [|done].
    intros w c Hw Hc. split; [done|]. intros Hb c' Hc'. congruence. }
  intros b. eapply triple_bind.
  { instantiate (1 := λ _ w, state_invariant w ∧ uninitialized i w).
    destruct b.
    - eapply triple_conseq; [apply destroy_invariant|naive_solver|done|done].
    - apply triple_ret. naive_solver. }
  intros ?. eapply triple_bind.
  { apply (triple_var i btn _
             (λ b w, state_invariant w ∧ uninitialized i w ∧
                     ∃ c, closures w !! i = Some c ∧ btn c = b));
      [|naive_solver].
    intros w c [Hw Hun] Hc. eauto 10. }
  intros bt. eapply triple_bind.
  { apply (triple_dom _ _
             (λ _ w, state_invariant w ∧
                     (∃ c, closures w !! i = Some c ∧ btn c = bt) ∧
                     is_Some (doc w !! bt))).
    - intros w pw d (Hw & _ & Hc) Hd. split_and!; [done..|].
      by apply wrapInner_Ok_parent in Hd.
    - intros w e d (Hw & _) _. done. }
  intros pw w (Hw & (c & Hc & Hb) & [e He]).
  pose proof (init_tail_run i bt pw w c e Hc He) as Hrun.
  unfold init_tail in Hrun. rewrite Hrun.
  apply Forall_insert; [done|]. split; simpl; [|done].
  split; [done|eauto].
Qed.

Lemma keeps_modify {S} (P : S → Prop) (f : S → S) :
  (∀ s, P s → P (f s)) → keeps P (modify f).
Proof. intros H s Hs. by apply H. Qed.

Lemma keeps_get {S} (P : S → Prop) : keeps P (get (S:=S)).
Proof. by intros s Hs. Qed.

Lemma statefulBtn_invariant b text cls :
  keeps state_invariant (statefulBtn b text cls).
Proof.
  unfold statefulBtn.
  apply keeps_bind; [apply keeps_get|intros w0].
  apply keeps_bind.
  { apply keeps_modify. intros w Hw. apply Forall_app. split; [done|].
    apply Forall_singleton. split; simpl; [|done].
    split; [by intros []|done]. }
  intros ?. apply keeps_bind; [apply init_invariant|intros ?].
  apply keeps_bind; [apply keeps_get|intros w1].
  apply keeps_bind; [|intros ?; apply keeps_ret].
  apply keeps_if; [apply keeps_ret|by apply keeps_modify].
Qed.

Section methods.
Variable observers : event → list script.
Variable invoke : inst_id → method → M world unit.
Hypothesis invoke_invariant : ∀ i m, keeps state_invariant (invoke i m).

Lemma keeps_page {A} (m : M world A) :
  keeps state_invariant m →
  keeps (λ st : world * bool, state_invariant st.1) (page m).
Proof.
  intros Hm [w p] Hw. specialize (Hm w Hw). unfold page. simpl.
  by destruct (m w).
Qed.

Lemma run_script_invariant s :
  keeps (λ st : world * bool, state_invariant st.1) (run_script invoke s).
Proof.
  induction s as [|k IH|i m k IH|b text cls k IH|f k IH|body IHb k IH|k IH];
    simpl.
  - apply keeps_ret.
  - apply keeps_bind; [by apply keeps_modify|done].
  - apply keeps_bind; [by apply keeps_page|done].
  - apply keeps_bind; [apply keeps_page, statefulBtn_invariant|done].
  - apply keeps_bind; [|done].
    apply keeps_page, keeps_dom. by intros.
  - apply keeps_bind; [|done].
    intros st Hst. specialize (IHb st Hst).
    by destruct (run_script invoke body st).
  - apply keeps_bind; [apply keeps_get|intros st; apply IH].
Qed.

Lemma dispatchEvent_invariant target type detail :
  keeps state_invariant (dispatchEvent observers invoke target type detail).
Proof.
  intros w Hw. unfold dispatchEvent. simpl.
  generalize (observers (Event target type detail)).
  assert (state_invariant
            (set_dispatched (λ l, l ++ [Event target type detail]) w, false).1)
    as Hst by done.
  revert Hst. generalize (set_dispatched
                            (λ l, l ++ [Event target type detail]) w, false).
  intros st Hst l. revert st Hst.
  induction l as [|s l IH]; intros st Hst; simpl; [done|].
  apply IH. pose proof (run_script_invariant s st Hst) as Hs.
  by destruct (run_script invoke s st).
Qed.

Lemma wrapped_set_doc i w f : wrapped i w → wrapped i (set_doc f w).
Proof. done. Qed.

Lemma enableState_invariant i :
  keeps state_invariant (enableState observers invoke i).
Proof.
  unfold enableState.
  apply keeps_bind; [apply keeps_var|intros [|]; [|apply keeps_ret]].
  apply keeps_bind; [apply keeps_var|intros b].
  apply keeps_bind; [apply keeps_var|intros st].
  apply keeps_bind;
    [apply dispatchEvent_invariant|intros [|]; [|apply keeps_ret]].
  set (P := λ w, state_invariant w ∧ wrapped i w).
  eapply triple_bind.
  { apply (triple_var i wrapper _
             (λ wr w, state_invariant w ∧ (is_Some wr → wrapped i w)));
      [|done].
    intros w c Hw Hc. split; [done|]. intros Hwr. by exists c. }
  intros wr. eapply triple_bind.
  { instantiate (1 := λ _, P). destruct wr as [n|]; simpl.
    - apply triple_dom; [|naive_solver]. intros w a d [Hw Hwr] _.
      split; [done|]. apply wrapped_set_doc. eauto.
    - apply triple_throw. naive_solver. }
  intros ?.
  assert (∀ A (m : M document A), triple P (dom m) (λ _, P) state_invariant)
    as Hdom.
  { intros A m. apply triple_dom; [|intros w e d Hp _; apply Hp].
    intros w x d Hp _. apply Hp. }
  assert (∀ A (proj : closure → A),
            triple P (var i proj) (λ _, P) state_invariant) as Hvar.
  { intros A proj. apply triple_var; [done|intros w Hp _; apply Hp]. }
  eapply triple_bind; [apply Hvar|intros text].
  eapply triple_bind.
  { instantiate (1 := λ _, P). destruct text; try by apply triple_ret.
    destruct (truthy _); [apply Hdom|by apply triple_ret]. }
  intros ?. eapply triple_bind; [apply Hvar|intros cls].
  eapply triple_bind.
  { instantiate (1 := λ _, P). destruct (truthy cls); [|by apply triple_ret].
    eapply triple_bind; [|intros tokens; apply Hdom].
    destruct cls; simpl; first [by apply triple_ret|apply triple_throw].
    all: intros w Hp; apply Hp. }
  intros ?. eapply triple_bind.
  { apply (triple_assign i _ P (λ _, state_invariant)).
    intros w [Hw (c & Hc & Hwr)]. apply state_invariant_alter; [done|].
    intros c' Hc' [Hok1 Hok2]. simplify_eq. split; simpl; [done|].
    intros _. by apply Hok1. }
  intros ?. apply keeps_bind; [apply keeps_var|intros st'].
  apply keeps_bind; [apply dispatchEvent_invariant|intros ?; apply keeps_ret].
Qed.

Lemma disableState_invariant i :
  keeps state_invariant (disableState observers invoke i).
Proof.
  unfold disableState.
  apply keeps_bind; [apply keeps_var|intros [|]; [|apply keeps_ret]].
  apply keeps_bind; [apply keeps_var|intros b].
  apply keeps_bind; [apply keeps_var|intros st].
  apply keeps_bind;
    [apply dispatchEvent_invariant|intros [|]; [|apply keeps_ret]].
  apply keeps_bind; [apply keeps_var|intros text].
  apply keeps_bind.
  { apply keeps_if; [by apply keeps_dom|apply keeps_ret]. }
  intros ?. apply keeps_bind; [apply keeps_var|intros cls].
  apply keeps_bind.
  { apply keeps_if; [|apply keeps_ret].
    apply keeps_bind; [apply keeps_split|intros ?; by apply keeps_dom]. }
  intros ?. apply keeps_bind; [apply keeps_var|intros wr].
  apply keeps_bind; [by apply keeps_on_wrapper|intros ?].
  apply keeps_bind.
  { apply triple_assign. intros w Hw. apply state_invariant_alter; [done|].
    intros c _ [Hok1 Hok2]. by split. }
  intros ?. apply keeps_bind; [apply keeps_var|intros st'].
  apply keeps_bind; [apply dispatchEvent_invariant|intros ?; apply keeps_ret].
Qed.

Lemma toggle_invariant i : keeps state_invariant (toggle observers invoke i).
Proof.
  unfold toggle.
  apply keeps_bind; [apply keeps_var|intros [|]; [|apply keeps_ret]].
  apply keeps_bind; [apply keeps_var|intros [|]].
  - apply disableState_invariant.
  - apply enableState_invariant.
Qed.

Lemma call_invariant i m : keeps state_invariant (call observers invoke i m).
Proof.
  destruct m; simpl.
  - apply init_invariant.
  - eapply triple_conseq; [apply destroy_invariant|done|naive_solver|done].
  - apply toggle_invariant.
  - apply enableState_invariant.
  - apply disableState_invariant.
  - apply keeps_bind; [apply keeps_var|intros ?].
    apply triple_assign. intros w Hw. apply state_invariant_alter; [done|].
    by intros c _ [? ?].
  - apply keeps_bind; [apply keeps_var|intros ?].
    apply triple_assign. intros w Hw. apply state_invariant_alter; [done|].
    by intros c _ [? ?].
Qed.

End methods.

Lemma invoke_at_invariant observers depth i m :
  keeps state_invariant (invoke_at depth observers i m).
Proof.
  revert i m. induction depth as [|depth IH]; intros i m; simpl.
  - apply keeps_throw.
  - by apply call_invariant.
Qed.

End invariants.

(** ** Events and their listeners *)

Section events.
Implicit Types (w : world) (c : closure) (i : inst_id) (d : document).
Variable observers : event → list script.
Variable invoke : inst_id → method → M world unit.

Lemma run_script_onlooker s :
  onlooker s →
  ∀ w p, ∃ p', run_script invoke s (w, p) = Ok tt (w, p').
Proof.
  induction 1 as [|k _ IH|body k _ IHb _ IH|k _ IH]; intros w p; simpl.
  - by exists p.
  - unfold_M. apply IH.
  - unfold_M. destruct (IHb w p) as [p1 ->]. simpl. apply IH.
  - unfold_M. apply IH.
Qed.

Lemma run_script_bystander s :
  bystander s → ∀ w p, run_script invoke s (w, p) = Ok tt (w, p).
Proof.
  induction 1 as [|body k _ IHb _ IH|k _ IH]; intros w p; simpl.
  - done.
  - unfold_M. rewrite IHb. simpl. apply IH.
  - unfold_M. apply IH.
Qed.

Lemma dispatchEvent_onlookers target type detail w :
  Forall onlooker (observers (Event target type detail)) →
  ∃ allowed, dispatchEvent observers invoke target type detail w
             = Ok allowed (logged (Event target type detail) w).
Proof.
  intros Hobs. unfold dispatchEvent, logged.
  set (w1 := set_dispatched _ w). generalize false. revert Hobs.
  generalize (observers (Event target type detail)).
  intros l Hl. induction Hl as [|s l Hs _ IH]; intros p; simpl; [by eexists|].
  destruct (run_script_onlooker s Hs w1 p) as [p' ->]. simpl. apply IH.
Qed.

Lemma dispatchEvent_bystanders target type detail w :
  Forall bystander (observers (Event target type detail)) →
  dispatchEvent observers invoke target type detail w
  = Ok true (logged (Event target type detail) w).
Proof.
  intros Hobs. unfold dispatchEvent, logged.
  set (w1 := set_dispatched _ w). revert Hobs.
  generalize (observers (Event target type detail)).
  intros l Hl. induction Hl as [|s l Hs _ IH]; simpl; [done|].
  by rewrite (run_script_bystander s Hs w1 false).
Qed.

End events.

(** ** The registry *)

Section registry.
Implicit Types (w : world) (c : closure) (i : inst_id) (d : document).

Ltac keeps_step :=
  lazymatch goal with
  | |- keeps _ (mret _) => apply keeps_ret
  | |- keeps _ (ret _) => apply keeps_ret
  | |- keeps _ (throw _) => apply keeps_throw
  | |- keeps _ (var _ _) => apply keeps_var
  | |- keeps _ (split _) => apply keeps_split
  | |- keeps _ get => apply keeps_get
  | |- keeps _ (dom _) => apply keeps_dom; intros; by apply stable_doc
  | |- keeps _ (on_wrapper _ _) =>
      apply keeps_on_wrapper; intros; by apply stable_doc
  | |- keeps _ (assign _ _) =>
      apply triple_assign; intros; by apply stable_assign
  | |- keeps _ (mbind _ _) => apply keeps_bind; [|intros ?]
  | |- keeps _ (bind _ _) => apply keeps_bind; [|intros ?]
  | |- keeps _ (or_else _ _) => unfold or_else
  | |- keeps _ (fmap _ _) => unfold fmap, M_fmap
  | |- keeps _ (if _ then _ else _) => apply keeps_if
  | |- keeps _ (match ?x with _ => _ end) => destruct x
  end.

Ltac keeps_steps := repeat keeps_step.

Lemma destroy_stable P i : stable P → keeps P (destroy i).
Proof. intros HP. unfold destroy. keeps_steps. Qed.

Lemma init_stable P i : stable P → keeps P (init i).
Proof.
  intros HP. unfold init. keeps_steps. by apply destroy_stable.
Qed.

Section methods.
Variable observers : event → list script.
Variable invoke : inst_id → method → M world unit.
Variable P : world → Prop.
Hypothesis P_stable : stable P.
Hypothesis invoke_keeps : ∀ i m, keeps P (invoke i m).
Hypothesis statefulBtn_keeps : ∀ b text cls, keeps P (statefulBtn b text cls).

Lemma keeps_page_stable {A} (m : M world A) :
  keeps P m → keeps (λ st : world * bool, P st.1) (page m).
Proof.
  intros Hm [w p] Hw. specialize (Hm w Hw). unfold page. simpl.
  by destruct (m w).
Qed.

Lemma run_script_stable s :
  keeps (λ st : world * bool, P st.1) (run_script invoke s).
Proof.
  induction s as [|k IH|i m k IH|b text cls k IH|f k IH|body IHb k IH|k IH];
    simpl.
  - apply keeps_ret.
  - apply keeps_bind; [by apply keeps_modify|done].
  - apply keeps_bind; [by apply keeps_page_stable|done].
  - apply keeps_bind; [by apply keeps_page_stable|done].
  - apply keeps_bind; [|done].
    apply keeps_page_stable, keeps_dom. intros. by apply stable_doc.
  - apply keeps_bind; [|done].
    intros st Hst. specialize (IHb st Hst).
    by destruct (run_script invoke body st).
  - apply keeps_bind; [apply keeps_get|intros st; apply IH].
Qed.

Lemma dispatchEvent_stable target type detail :
  keeps P (dispatchEvent observers invoke target type detail).
Proof.
  intros w Hw. unfold dispatchEvent. cbv zeta.
  generalize (observers (Event target type detail)).
  assert (P (set_dispatched (λ l, l ++ [Event target type detail]) w, false).1)
    as Hst by by apply stable_dispatched.
  revert Hst. generalize (set_dispatched
                            (λ l, l ++ [Event target type detail]) w, false).
  intros st Hst l. revert st Hst.
  induction l as [|s l IH]; intros st Hst; simpl; [done|].
  apply IH. pose proof (run_script_stable s st Hst) as Hs.
  by destruct (run_script invoke s st).
Qed.

Lemma enableState_stable i : keeps P (enableState observers invoke i).
Proof.
  unfold enableState. pose proof dispatchEvent_stable.
  keeps_steps; done.
Qed.

Lemma disableState_stable i : keeps P (disableState observers invoke i).
Proof.
  unfold disableState. pose proof dispatchEvent_stable.
  keeps_steps; done.
Qed.

Lemma call_stable i m : keeps P (call observers invoke i m).
Proof.
  destruct m; simpl.
  - by apply init_stable.
  - by apply destroy_stable.
  - unfold toggle. keeps_steps.
    + apply disableState_stable.
    + apply enableState_stable.
  - apply enableState_stable.
  - apply disableState_stable.
  - keeps_steps.
  - keeps_steps.
Qed.

End methods.

Lemma registry_ok_stable : stable registry_ok.
Proof.
  split; [done| |done].
  intros w i f [Hnd Hlt]. split; [done|]. simpl.
  by rewrite length_alter.
Qed.

(** A call of [statefulBtn] that returns registers the new instance, and
    only it, after the instances registered before. *)
Lemma statefulBtn_registers b text cls w i w' :
  registry_ok w → statefulBtn b text cls w = Ok i w' →
  i = length (closures w) ∧ (i ∉ allInstances w) ∧
  allInstances w' = allInstances w ++ [i] ∧ registry_ok w'.
Proof.
  intros [Hnd Hlt] Hnew.
  assert (length (closures w) ∉ allInstances w) as Hfresh.
  { intros Hin. rewrite Forall_forall in Hlt. apply Hlt in Hin. lia. }
  unfold statefulBtn in Hnew.
  rewrite (step_bind get _ w w w eq_refl) in Hnew. cbv zeta in Hnew.
  rewrite (step_bind (modify _) _ w tt _ eq_refl) in Hnew.
  set (w1 := set_closures _ w) in Hnew.
  set (Q := λ w2, allInstances w2 = allInstances w ∧
                  length (closures w) < length (closures w2)).
  assert (stable Q) as HQ.
  { split; [done| |done]. intros w2 j f [H1 H2]. split; [done|]. simpl.
    by rewrite length_alter. }
  assert (Q w1) as Hw1.
  { split; [done|]. simpl. rewrite length_app. simpl. lia. }
  pose proof (init_stable Q (length (closures w)) HQ w1 Hw1) as Hinit.
  destruct (init (length (closures w)) w1) as [[] w2|e w2] eqn:Hi;
    [|by rewrite (step_bind_throw _ _ _ _ _ Hi) in Hnew].
  rewrite (step_bind _ _ _ _ _ Hi) in Hnew.
  rewrite (step_bind get _ w2 w2 w2 eq_refl) in Hnew.
  destruct Hinit as [Hal Hlen]. rewrite Hal in Hnew.
  rewrite bool_decide_eq_false_2 in Hnew by done.
  injection Hnew as <- <-. split_and!; [done..|simpl;by rewrite Hal|].
  split; simpl; rewrite Hal.
  - apply NoDup_app. split_and!; [done| |apply NoDup_singleton].
    by intros x Hx ->%list_elem_of_singleton.
  - apply Forall_app. split; [|by apply Forall_singleton].
    eapply Forall_impl; [done|]. simpl. intros. lia.
Qed.

Lemma statefulBtn_registry_ok b text cls :
  keeps registry_ok (statefulBtn b text cls).
Proof.
  intros w Hw. destruct (statefulBtn b text cls w) as [i w'|e w'] eqn:Hnew.
  - by apply statefulBtn_registers in Hnew as (_ & _ & _ & ?).
  - revert Hnew. unfold statefulBtn.
    rewrite (step_bind get _ w w w eq_refl). cbv zeta.
    rewrite (step_bind (modify _) _ w tt _ eq_refl).
    set (w1 := set_closures _ w).
    assert (registry_ok w1) as Hw1.
    { destruct Hw as [Hnd Hlt]. split; [done|]. simpl.
      eapply Forall_impl; [done|]. simpl. intros. rewrite length_app. lia. }
    pose proof (init_stable registry_ok (length (closures w))
                  registry_ok_stable w1 Hw1) as Hinit.
    unfold_M. destruct (init (length (closures w)) w1) as [[] w2|].
    + by destruct (bool_decide _).
    + by intros [= _ <-].
Qed.

Lemma invoke_at_registry_ok observers depth i m :
  keeps registry_ok (invoke_at depth observers i m).
Proof.
  revert i m. induction depth as [|depth IH]; intros i m; simpl.
  - apply keeps_throw.
  - apply call_stable;
      [apply registry_ok_stable|done|apply statefulBtn_registry_ok].
Qed.

End registry.

(** ** [getInstance] *)

Section lookup_facts.

Lemma head_filter_Some {A} (P : A → Prop) `{∀ x, Decision (P x)}
    (l : list A) x :
  head (filter P l) = Some x →
  ∃ l1 l2, l = l1 ++ x :: l2 ∧ P x ∧ Forall (λ y, ¬ P y) l1.
Proof.
  induction l as [|y l IH]; [done|]. rewrite filter_cons.
  destruct (decide (P y)) as [Hy|Hy]; simpl.
  - intros [= ->]. exists [], l. by split_and!.
  - intros (l1 & l2 & -> & Hx & Hl1)%IH.
    exists (y :: l1), l2. split_and!; [done..|by constructor].
Qed.

Lemma head_filter_None {A} (P : A → Prop) `{∀ x, Decision (P x)}
    (l : list A) :
  head (filter P l) = None ↔ Forall (λ y, ¬ P y) l.
Proof.
  induction l as [|y l IH]; [by split; [constructor|]|].
  rewrite filter_cons, Forall_cons. destruct (decide (P y)); simpl.
  - split; [done|]. by intros [? _].
  - rewrite IH. naive_solver.
Qed.

Lemma has_target_spec w elem i :
  has_target w elem i = true ↔
  ∃ c, closures w !! i = Some c ∧ Some (RefElement (btn c)) = elem.
Proof.
  unfold has_target. destruct (closures w !! i) as [c|].
  - rewrite bool_decide_eq_true. naive_solver.
  - naive_solver.
Qed.

End lookup_facts.

(** ** [destroy] without class names *)

Section destroy_facts.
Implicit Types (w : world) (c : closure) (i : inst_id) (d : document).

Lemma removeAttribute_run d n name e :
  d !! n = Some e →
  removeAttribute n name d = Ok tt (<[n := set_attributes (delete name) e]> d).
Proof. intros He. unfold removeAttribute. by rewrite He. Qed.

Lemma destroy_throws_at_split w i c e :
  closures w !! i = Some c → isInit c = true → doc w !! btn c = Some e →
  (∀ s, inStateClassName c ≠ Str s) →
  destroy i w =
  Throw TypeError
        (set_doc (λ _, <[btn c := set_attributes (delete "aria-label")
                                    (set_attributes (delete "aria-live") e)]>
                         (doc w)) w).
Proof.
  intros Hc Hinit He Hcls. unfold destroy.
  rewrite (step_var i isInit _ w c Hc), Hinit. cbv beta iota.
  rewrite (step_var i btn _ w c Hc).
  rewrite (step_dom _ _ w tt _ (removeAttribute_run _ _ "aria-live" e He)).
  set (d1 := <[btn c := set_attributes (delete "aria-live") e]> (doc w)).
  set (w1 := set_doc (λ _, d1) w).
  assert (doc w1 !! btn c = Some (set_attributes (delete "aria-live") e))
    as He1 by apply lookup_insert_eq.
  rewrite (step_dom _ _ w1 tt _ (removeAttribute_run _ _ "aria-label" _ He1)).
  set (w2 := set_doc _ w1).
  rewrite (step_var i inStateClassName _ w2 c Hc).
  assert (split (inStateClassName c) = throw TypeError) as ->.
  { destruct (inStateClassName c) as [| |s]; [done..|]. by destruct (Hcls s). }
  unfold w2, w1, d1, set_doc. simpl. unfold_M.
  by rewrite insert_insert_eq.
Qed.

End destroy_facts.

(** ** [init] and the factory *)

Section init_facts.
Implicit Types (w : world) (c : closure) (i : inst_id) (d : document).

(** [init] on an instance that is not initialized, for a button that is an
    element of a well-formed document. *)
Lemma init_uninitialized i w c e :
  closures w !! i = Some c → isInit c = false →
  well_formed (doc w) → doc w !! btn c = Some e →
  ∃ d' e',
    wrapInner (btn c) (TagName "span") [] (doc w)
      = Ok (btn c, fresh_node (doc w)) d' ∧
    well_formed d' ∧
    children_of d' (btn c) = [fresh_node (doc w)] ∧
    children_of d' (fresh_node (doc w)) = children_of (doc w) (btn c) ∧
    (∀ k, k ≠ btn c → k ≠ fresh_node (doc w) →
          children_of d' k = children_of (doc w) k) ∧
    (∀ k, k ≠ fresh_node (doc w) → shell <$> d' !! k = shell <$> doc w !! k) ∧
    is_Some (d' !! fresh_node (doc w)) ∧
    d' !! btn c = Some e' ∧ shell e' = shell e ∧
    init i w =
    Ok tt (World
             (<[btn c := set_attributes (<["aria-live" := "polite"]>) e']> d')
             (<[i := initialized_closure c e (fresh_node (doc w))]>
                (closures w))
             (allInstances w) (dispatched w)).
Proof.
  intros Hc Hinit Hwf He.
  destruct (wrapInner_new_element (doc w) (btn c) "span" [] Hwf)
    as (d' & Hd' & Hwf' & Hp' & Hw' & Hk' & Hsh' & Hdw & _);
    [eauto|by vm_compute|done|].
  assert (btn c ≠ fresh_node (doc w)) as Hne.
  { intros Heq. pose proof (fresh_node_lookup (doc w)) as Hf.
    rewrite <-Heq, He in Hf. done. }
  pose proof (Hsh' (btn c) Hne) as Hshb. rewrite He in Hshb.
  destruct (d' !! btn c) as [e'|] eqn:He'; [|done].
  apply (inj Some) in Hshb.
  exists d', e'. split_and!; [done..|].
  unfold init.
  rewrite (step_var i isInit _ w c Hc), Hinit. cbv beta iota.
  rewrite step_ret, (step_var i btn _ w c Hc).
  rewrite (step_dom _ _ w _ _ Hd').
  pose proof (init_tail_run i (btn c) (btn c, fresh_node (doc w))
                (set_doc (λ _, d') w) c e' Hc He') as Hrun.
  unfold init_tail in Hrun. cbv beta. rewrite Hrun. simpl.
  unfold initialized_closure. unfold shell in Hshb.
  injection Hshb as Htag Hattr Hcl. by rewrite Hattr.
Qed.

(** The factory, for a button that is an element of a well-formed
    document. *)
Lemma statefulBtn_run b text cls w e :
  well_formed (doc w) → doc w !! b = Some e →
  ∃ w',
    statefulBtn b text cls w = Ok (length (closures w)) w' ∧
    closures w' =
      closures w ++
      [initialized_closure
         (Closure b text cls false false Undefined Undefined None) e
         (fresh_node (doc w))] ∧
    allInstances w' =
      (if bool_decide (length (closures w) ∈ allInstances w)
       then allInstances w else allInstances w ++ [length (closures w)]) ∧
    dispatched w' = dispatched w ∧
    well_formed (doc w') ∧
    children_of (doc w') b = [fresh_node (doc w)] ∧
    children_of (doc w') (fresh_node (doc w)) = children_of (doc w) b ∧
    is_Some (doc w' !! fresh_node (doc w)) ∧
    (∀ name, attr_of (doc w') b name =
             if bool_decide (name = "aria-live") then Some "polite"
             else attributes e !! name) ∧
    (classList <$> doc w' !! b) = Some (classList e).
Proof.
  intros Hwf He. unfold statefulBtn.
  rewrite (step_bind get _ w w w eq_refl). cbv zeta.
  rewrite (step_bind (modify _) _ w tt _ eq_refl).
  set (c0 := Closure b text cls false false Undefined Undefined None).
  set (w1 := set_closures (λ cs, cs ++ [c0]) w).
  assert (closures w1 !! length (closures w) = Some c0) as Hc0.
  { unfold w1. simpl. by rewrite lookup_app_r, Nat.sub_diag. }
  destruct (init_uninitialized (length (closures w)) w1 c0 e Hc0)
    as (d' & e' & Hd' & Hwf' & Hp' & Hw' & Hk' & Hsh' & Hdw & He' & Hshe & Hi);
    [done..|].
  simpl in *. rewrite (step_bind _ _ _ _ _ Hi).
  rewrite (step_bind get _ _ _ _ eq_refl). simpl.
  assert (b ≠ fresh_node (doc w)) as Hne.
  { intros Heq. pose proof (fresh_node_lookup (doc w)) as Hf.
    rewrite <-Heq, He in Hf. done. }
  assert (<[length (closures w) := initialized_closure c0 e (fresh_node (doc w))]>
            (closures w ++ [c0]) =
          closures w ++ [initialized_closure c0 e (fresh_node (doc w))])
    as Hcs.
  { rewrite insert_app_r_alt, Nat.sub_diag by done. done. }
  assert (∀ k, children_of
                 (<[b := set_attributes (<["aria-live" := "polite"]>) e']> d') k
               = children_of d' k) as Hch.
  { intros k. unfold children_of. destruct (decide (b = k)) as [<-|].
    - by rewrite lookup_insert_eq, He'.
    - by rewrite lookup_insert_ne. }
  unfold shell in Hshe. injection Hshe as Htag Hattr Hcl.
  set (d1 := <[b := set_attributes (<["aria-live" := "polite"]>) e']> d').
  assert (∀ name, attr_of d1 b name =
                  if bool_decide (name = "aria-live") then Some "polite"
                  else attributes e !! name) as Hattrs.
  { intros name. unfold attr_of, d1. rewrite lookup_insert_eq. simpl.
    case_bool_decide; subst.
    - by rewrite lookup_insert_eq.
    - rewrite lookup_insert_ne by done. by rewrite Hattr. }
  assert (classList <$> d1 !! b = Some (classList e)) as Hclass.
  { unfold d1. rewrite lookup_insert_eq. simpl. by rewrite Hcl. }
  assert (is_Some (d1 !! fresh_node (doc w))) as Hfresh.
  { unfold d1. by rewrite lookup_insert_ne. }
  assert (well_formed d1) as Hwf1 by by eapply well_formed_ext.
  destruct (bool_decide (length (closures w) ∈ allInstances w)) eqn:Hreg;
    unfold_M; (eexists; split; [reflexivity|]); simpl; rewrite Hcs;
    split_and!; try done; by rewrite Hch.
Qed.

End init_facts.

(** ** [enableState] and [disableState] with listeners that only look *)

Section enable_disable.
Implicit Types (w : world) (c : closure) (i : inst_id) (d : document).
Variable observers : event → list script.
Variable invoke : inst_id → method → M world unit.
Hypothesis observers_look : ∀ ev, Forall bystander (observers ev).

Lemma setAttribute_run d n name v e :
  d !! n = Some e → plain_name name = true →
  setAttribute n name v d = Ok tt (<[n := set_attributes (<[name := v]>) e]> d).
Proof.
  intros He Hp. unfold plain_name in Hp.
  apply andb_prop in Hp as [[Hv Hl]%andb_prop Hc].
  apply bool_decide_eq_true in Hl.
  apply negb_true_iff, bool_decide_eq_false in Hc.
  rewrite (setAttribute_accepted _ _ _ _ _ He Hv), Hl.
  by rewrite bool_decide_eq_false_2.
Qed.

Lemma truthy_Str s : truthy (Str s) = negb (bool_decide (s = "")).
Proof. done. Qed.

Lemma accepted_classes_tokens v :
  accepted_classes v → validate_tokens (class_tokens v) = None.
Proof.
  destruct v as [| |s]; simpl; [done..|]. intros H.
  case_bool_decide; [done|]. by apply H.
Qed.

Lemma insert_same (d : document) n e :
  d !! n = Some e → <[n := e]> d = d.
Proof. apply insert_id. Qed.

Lemma element_eta e :
  Element (tagName e) (attributes e) (classList e) (childNodes e) = e.
Proof. by destruct e. Qed.

Lemma set_doc_same {B} (k : unit → M world B) w b x e :
  doc w !! b = Some e → x = e →
  k tt w = k tt (set_doc (λ _, <[b := x]> (doc w)) w).
Proof. intros He ->. rewrite insert_same by done. by destruct w. Qed.

(** The statements of [enableState] on the button. *)
Lemma step_label {B} b text (k : unit → M world B) w e :
  doc w !! b = Some e →
  ((match text with
    | Str s => if truthy text then dom (setAttribute b "aria-label" s)
               else mret tt
    | _ => mret tt
    end) ≫= k) w
  = k tt (set_doc (λ _, <[b := enabled_button text Undefined e]> (doc w)) w).
Proof.
  intros He. unfold enabled_button. simpl.
  destruct text as [| |s]; try (by apply (set_doc_same k w b _ e He), element_eta).
  rewrite truthy_Str. case_bool_decide; simpl.
  - by apply (set_doc_same k w b _ e He), element_eta.
  - by rewrite (step_dom _ _ w tt _
                  (setAttribute_run _ _ "aria-label" _ _ He eq_refl)).
Qed.

Lemma step_classes {B} b cls (k : unit → M world B) w e :
  doc w !! b = Some e → accepted_classes cls →
  ((if truthy cls then tokens ← split cls; dom (classList_add b tokens)
    else mret tt) ≫= k) w
  = k tt (set_doc (λ _, <[b := enabled_button Undefined cls e]> (doc w)) w).
Proof.
  intros He Hcls. unfold enabled_button. simpl.
  destruct cls as [| |s]; try (by apply (set_doc_same k w b _ e He), element_eta).
  rewrite ?truthy_Str. simpl in *. case_bool_decide as Hs; simpl.
  - by apply (set_doc_same k w b _ e He), element_eta.
  - unfold_M. unfold dom, classList_add. by rewrite He, (Hcls Hs).
Qed.

(** The statements of [disableState] on the button. *)
Lemma step_unlabel {B} b text (k : unit → M world B) w e :
  doc w !! b = Some e →
  ((if truthy text then dom (removeAttribute b "aria-label") else mret tt)
     ≫= k) w
  = k tt (set_doc (λ _, <[b := disabled_button text Undefined e]> (doc w)) w).
Proof.
  intros He. unfold disabled_button, set_doc. simpl.
  rewrite filter_id by (intros x _; apply not_elem_of_nil).
  fold (set_doc (λ _, <[b := Element (tagName e)
                                     (if truthy text
                                      then delete "aria-label" (attributes e)
                                      else attributes e)
                                     (classList e) (childNodes e)]> (doc w)) w).
  destruct (truthy text).
  - by rewrite (step_dom _ _ w tt _ (removeAttribute_run _ _ _ _ He)).
  - by apply (set_doc_same k w b _ e He), element_eta.
Qed.

Lemma step_unclass {B} b cls (k : unit → M world B) w e :
  doc w !! b = Some e → accepted_classes cls →
  ((if truthy cls then tokens ← split cls; dom (classList_remove b tokens)
    else mret tt) ≫= k) w
  = k tt (set_doc (λ _, <[b := disabled_button Undefined cls e]> (doc w)) w).
Proof.
  intros He Hcls. unfold disabled_button. simpl.
  assert (∀ x, Element (tagName e) (attributes e)
                       (filter (λ t, t ∉ []) (classList e)) (childNodes e) = x
               → x = e) as Hnil.
  { intros x <-. rewrite filter_id by (intros x _; apply not_elem_of_nil).
    apply element_eta. }
  destruct cls as [| |s]; simpl;
    try (apply (set_doc_same k w b _ e He); by apply Hnil).
  rewrite ?truthy_Str. simpl in *. case_bool_decide as Hs; simpl.
  - apply (set_doc_same k w b _ e He). by apply Hnil.
  - unfold_M. unfold dom, classList_remove. by rewrite He, (Hcls Hs).
Qed.

Lemma enabled_button_compose text cls e :
  enabled_button Undefined cls (enabled_button text Undefined e)
  = enabled_button text cls e.
Proof. done. Qed.

Lemma disabled_button_compose text cls e :
  disabled_button Undefined cls (disabled_button text Undefined e)
  = disabled_button text cls e.
Proof.
  unfold disabled_button. simpl. f_equal.
  by rewrite (filter_id (λ t, t ∉ [])) by (intros x _; apply not_elem_of_nil).
Qed.

Lemma enableState_run i w c e ew wr :
  closures w !! i = Some c → isInit c = true → wrapper c = Some wr →
  doc w !! btn c = Some e → doc w !! wr = Some ew → wr ≠ btn c →
  accepted_classes (inStateClassName c) →
  enableState observers invoke i w =
  Ok tt (World
           (<[btn c := enabled_button (a11yText c) (inStateClassName c) e]>
              (<[wr := set_attributes (<["aria-hidden" := "true"]>) ew]>
                 (doc w)))
           (<[i := set_isInState true c]> (closures w))
           (allInstances w)
           (dispatched w ++
            [Event (btn c) "stateful-btn:enable-before" (isInState c);
             Event (btn c) "stateful-btn:enable-after" true])).
Proof.
  intros Hc Hinit Hwr He Hew Hne Hcls. unfold enableState.
  rewrite (step_var i isInit _ w c Hc), Hinit. cbv beta iota.
  rewrite (step_var i btn _ w c Hc), (step_var i isInState _ w c Hc).
  rewrite (step_bind _ _ _ _ _
             (dispatchEvent_bystanders observers invoke _ _ _ w
                (observers_look _))).
  cbv iota. set (w1 := logged _ w).
  rewrite (step_var i wrapper _ w1 c Hc), Hwr. unfold on_wrapper.
  rewrite (step_dom _ _ w1 tt _
             (setAttribute_run _ _ "aria-hidden" _ _ Hew eq_refl)).
  set (w2 := set_doc _ w1).
  assert (doc w2 !! btn c = Some e) as He2.
  { unfold w2. simpl. by rewrite lookup_insert_ne. }
  rewrite (step_var i a11yText _ w2 c Hc).
  rewrite (step_label (btn c) (a11yText c) _ w2 e He2).
  set (w3 := set_doc _ w2).
  assert (doc w3 !! btn c = Some (enabled_button (a11yText c) Undefined e))
    as He3 by apply lookup_insert_eq.
  rewrite (step_var i inStateClassName _ w3 c Hc).
  rewrite (step_classes (btn c) _ _ w3 _ He3 Hcls).
  set (w4 := set_doc _ w3). rewrite step_assign.
  set (w5 := set_closures _ w4).
  assert (closures w5 !! i = Some (set_isInState true c)) as Hc5.
  { unfold w5. simpl. by rewrite list_lookup_alter_eq, Hc. }
  rewrite (step_var i isInState _ w5 _ Hc5).
  rewrite (step_bind _ _ _ _ _
             (dispatchEvent_bystanders observers invoke _ _ _ w5
                (observers_look _))).
  unfold_M. f_equal. unfold logged, set_dispatched. simpl.
  rewrite insert_insert_eq, enabled_button_compose.
  rewrite (alter_insert _ _ _ _ Hc), <-app_assoc. done.
Qed.

Lemma disableState_run i w c e ew wr :
  closures w !! i = Some c → isInit c = true → wrapper c = Some wr →
  doc w !! btn c = Some e → doc w !! wr = Some ew → wr ≠ btn c →
  accepted_classes (inStateClassName c) →
  disableState observers invoke i w =
  Ok tt (World
           (<[wr := set_attributes (delete "aria-hidden") ew]>
              (<[btn c := disabled_button (a11yText c) (inStateClassName c) e]>
                 (doc w)))
           (<[i := set_isInState false c]> (closures w))
           (allInstances w)
           (dispatched w ++
            [Event (btn c) "htz-stateful-btn:disable-before" (isInState c);
             Event (btn c) "htz-stateful-btn:disable-after" false])).
Proof.
  intros Hc Hinit Hwr He Hew Hne Hcls. unfold disableState.
  rewrite (step_var i isInit _ w c Hc), Hinit. cbv beta iota.
  rewrite (step_var i btn _ w c Hc), (step_var i isInState _ w c Hc).
  rewrite (step_bind _ _ _ _ _
             (dispatchEvent_bystanders observers invoke _ _ _ w
                (observers_look _))).
  cbv iota. set (w1 := logged _ w).
  assert (doc w1 !! btn c = Some e) as He1 by done.
  rewrite (step_var i a11yText _ w1 c Hc).
  rewrite (step_unlabel (btn c) (a11yText c) _ w1 e He1).
  set (w2 := set_doc _ w1).
  assert (doc w2 !! btn c = Some (disabled_button (a11yText c) Undefined e))
    as He2 by apply lookup_insert_eq.
  rewrite (step_var i inStateClassName _ w2 c Hc).
  rewrite (step_unclass (btn c) _ _ w2 _ He2 Hcls).
  set (w3 := set_doc _ w2).
  assert (doc w3 !! wr = Some ew) as Hew3.
  { unfold w3, w2. simpl. by rewrite !lookup_insert_ne by done. }
  rewrite (step_var i wrapper _ w3 c Hc), Hwr. unfold on_wrapper.
  rewrite (step_dom _ _ w3 tt _ (removeAttribute_run _ _ _ _ Hew3)).
  set (w4 := set_doc _ w3). rewrite step_assign.
  set (w5 := set_closures _ w4).
  assert (closures w5 !! i = Some (set_isInState false c)) as Hc5.
  { unfold w5. simpl. by rewrite list_lookup_alter_eq, Hc. }
  rewrite (step_var i isInState _ w5 _ Hc5).
  rewrite (step_bind _ _ _ _ _
             (dispatchEvent_bystanders observers invoke _ _ _ w5
                (observers_look _))).
  unfold_M. f_equal. unfold logged, set_dispatched. simpl.
  rewrite insert_insert_eq, disabled_button_compose.
  rewrite (alter_insert _ _ _ _ Hc), <-app_assoc. done.
Qed.

Lemma foldl_add_token_elem tokens :
  ∀ cl t, t ∈ foldl add_token cl tokens ↔ t ∈ cl ∨ t ∈ tokens.
Proof.
  induction tokens as [|t' tokens IH]; intros cl t; simpl.
  - rewrite elem_of_nil. naive_solver.
  - rewrite IH, elem_of_cons. unfold add_token. case_bool_decide.
    + naive_solver.
    + rewrite elem_of_app, list_elem_of_singleton. naive_solver.
Qed.

Lemma foldl_add_token_prefix tokens :
  ∀ cl, ∃ added, foldl add_token cl tokens = cl ++ added ∧
                 ∀ t, t ∈ added → t ∈ tokens.
Proof.
  induction tokens as [|t' tokens IH]; intros cl; simpl.
  - exists []. by rewrite app_nil_r.
  - destruct (IH (add_token cl t')) as (added & -> & Hadded).
    unfold add_token. case_bool_decide.
    + exists added. split; [done|]. intros t Ht. right. by apply Hadded.
    + exists (t' :: added). rewrite <-app_assoc. split; [done|].
      intros t [->|Ht]%elem_of_cons; [by left|right; by apply Hadded].
Qed.

Lemma filter_added_tokens cl tokens :
  filter (λ t, t ∉ tokens) (foldl add_token cl tokens)
  = filter (λ t, t ∉ tokens) cl.
Proof.
  destruct (foldl_add_token_prefix tokens cl) as (added & -> & Hadded).
  rewrite filter_app.
  assert (filter (λ t, t ∉ tokens) added = []) as ->; [|by rewrite app_nil_r].
  induction added as [|t added IH]; [done|].
  rewrite filter_cons_False by (intros Ht; apply Ht, Hadded; by left).
  apply IH. intros t' Ht'. apply Hadded. by right.
Qed.

Lemma filter_twice {A} (P : A → Prop) `{∀ x, Decision (P x)} (l : list A) :
  filter P (filter P l) = filter P l.
Proof. apply filter_id. by intros x [? _]%list_elem_of_filter. Qed.

Lemma disabled_button_twice text cls e :
  disabled_button text cls (disabled_button text cls e)
  = disabled_button text cls e.
Proof.
  unfold disabled_button. simpl. f_equal.
  - destruct (truthy text); [apply delete_delete_eq|done].
  - apply filter_twice.
Qed.

End enable_disable.

(** ** [destroy] with class names: the content is restored *)

Section destroy_run.
Implicit Types (w : world) (c : closure) (i : inst_id) (d : document).

Lemma children_of_insert_shell d b e e' k :
  d !! b = Some e → childNodes e' = childNodes e →
  children_of (<[b := e']> d) k = children_of d k.
Proof.
  intros He Hch. unfold children_of. destruct (decide (b = k)) as [<-|].
  - by rewrite lookup_insert_eq, He.
  - by rewrite lookup_insert_ne.
Qed.

Lemma classList_remove_run d n tokens e :
  d !! n = Some e → validate_tokens tokens = None →
  classList_remove n tokens d
  = Ok tt (<[n := set_classList (filter (λ t, t ∉ tokens)) e]> d).
Proof. intros He Hv. unfold classList_remove. by rewrite He, Hv. Qed.

Lemma destroy_run i w c e s wr pre post :
  closures w !! i = Some c → isInit c = true → wrapper c = Some wr →
  inStateClassName c = Str s → validate_tokens (split_space s) = None →
  well_formed (doc w) → doc w !! btn c = Some e → is_Some (doc w !! wr) →
  children_of (doc w) (btn c) = pre ++ wr :: post →
  ∃ w', destroy i w = Ok tt w' ∧
    closures w' =
      <[i := set_isInState false (set_isInit false (set_wrapper None c))]>
        (closures w) ∧
    allInstances w' = allInstances w ∧ dispatched w' = dispatched w ∧
    well_formed (doc w') ∧
    children_of (doc w') (btn c) = pre ++ children_of (doc w) wr ++ post ∧
    (∀ k, k ≠ btn c → k ≠ wr →
          children_of (doc w') k = children_of (doc w) k) ∧
    attr_of (doc w') (btn c) "aria-live" = None ∧
    attr_of (doc w') (btn c) "aria-label" = None ∧
    (∀ name, name ≠ "aria-live" → name ≠ "aria-label" →
             attr_of (doc w') (btn c) name = attributes e !! name) ∧
    classList <$> doc w' !! btn c
      = Some (filter (λ t, t ∉ split_space s) (classList e)).
Proof.
  intros Hc Hinit Hwr Hcls Hvalid Hwf He Hw Hb.
  set (e3 := set_classList (filter (λ t, t ∉ split_space s))
               (set_attributes (delete "aria-label")
                  (set_attributes (delete "aria-live") e))).
  set (d3 := <[btn c := e3]> (doc w)).
  assert (∀ k, children_of d3 k = children_of (doc w) k) as Hch3.
  { intros k. by apply (children_of_insert_shell _ _ e). }
  assert (well_formed d3) as Hwf3 by by eapply well_formed_ext.
  assert (wr ≠ btn c) as Hne.
  { intros Heq. apply (wf_acyclic (doc w) Hwf (btn c) wr).
    - unfold child_of. rewrite Hb. set_solver.
    - rewrite Heq. constructor. }
  assert (is_Some (d3 !! wr)) as Hw3.
  { unfold d3. by rewrite lookup_insert_ne. }
  destruct (unwrap_ok (btn c) wr (children_of (doc w) wr)
              (S (length (children_of d3 wr))) d3 pre post)
    as (d4 & Hun & Hsh4 & Hwf4 & Hb4 & Hw4 & Hk4); [done| | |done| |].
  { by rewrite Hch3. }
  { apply Hch3. }
  { rewrite Hch3. lia. }
  rewrite app_assoc in Hb4.
  destruct (removeChild_ok d4 (btn c) wr _ _ Hwf4 Hb4)
    as (d5 & Hrm & Hsh5 & Hwf5 & Hb5 & Hk5).
  set (c' := set_isInState false (set_isInit false (set_wrapper None c))).
  exists (World d5 (<[i := c']> (closures w)) (allInstances w) (dispatched w)).
  assert (same_shells d3 d5) as Hsh by by eapply same_shells_trans.
  assert (d3 !! btn c = Some e3) as He3 by apply lookup_insert_eq.
  split_and!; try done.
  - unfold destroy.
    rewrite (step_var i isInit _ w c Hc), Hinit. cbv beta iota.
    rewrite (step_var i btn _ w c Hc).
    rewrite (step_dom _ _ w tt _ (removeAttribute_run _ _ "aria-live" e He)).
    set (w1 := set_doc _ w).
    assert (doc w1 !! btn c = Some (set_attributes (delete "aria-live") e))
      as He1 by apply lookup_insert_eq.
    rewrite (step_dom _ _ w1 tt _ (removeAttribute_run _ _ "aria-label" _ He1)).
    set (w2 := set_doc _ w1).
    rewrite (step_var i inStateClassName _ w2 c Hc), Hcls.
    unfold split. rewrite step_ret.
    assert (doc w2 !! btn c
            = Some (set_attributes (delete "aria-label")
                      (set_attributes (delete "aria-live") e))) as He2
      by apply lookup_insert_eq.
    rewrite (step_dom _ _ w2 tt _ (classList_remove_run _ _ _ _ He2 Hvalid)).
    set (w3 := set_doc _ w2).
    assert (doc w3 = d3) as Hd3.
    { unfold w3, w2, w1, d3. simpl. by rewrite !insert_insert_eq. }
    rewrite (step_var i wrapper _ w3 c Hc), Hwr. unfold on_wrapper.
    assert ((get ≫= λ d, unwrap (S (length (children_of d wr))) (btn c) wr)
              (doc w3) = Ok tt d4) as Hun'.
    { rewrite (step_bind get _ _ _ _ eq_refl). by rewrite Hd3. }
    rewrite (step_dom _ _ w3 tt _ Hun').
    set (w4 := set_doc _ w3).
    rewrite (step_dom _ _ w4 tt _ Hrm).
    rewrite !step_assign. unfold assign, modify, set_closures, set_doc. simpl.
    rewrite !list_alter_alter_eq, (alter_insert _ _ _ _ Hc). done.
  - simpl. by rewrite Hb5, <-app_assoc.
  - intros k Hkb Hkw. simpl. by rewrite Hk5, Hk4, Hch3.
  - simpl. rewrite (attr_of_same_shells d3 d5) by done.
    unfold attr_of. rewrite He3. simpl.
    by rewrite lookup_delete_ne, lookup_delete_eq.
  - simpl. rewrite (attr_of_same_shells d3 d5) by done.
    unfold attr_of. rewrite He3. simpl. by rewrite lookup_delete_eq.
  - intros name H1 H2. simpl. rewrite (attr_of_same_shells d3 d5) by done.
    unfold attr_of. rewrite He3. simpl. by rewrite !lookup_delete_ne.
  - simpl. destruct (same_shells_lookup d3 d5 (btn c) e3 Hsh He3)
      as (e5 & -> & He5).
    unfold shell in He5. simpl. by injection He5 as _ _ ->.
Qed.

(** With class names that [classList] accepts, [destroy] after the factory
    (and so after [init]) puts the children of the button back in their
    order, removes [aria-live] and leaves the instance uninitialized. *)
Lemma statefulBtn_then_destroy_restores b text cls w e s :
  well_formed (doc w) → doc w !! b = Some e →
  resolved cls (attributes e !! "data-in-state-class") = Str s →
  validate_tokens (split_space s) = None →
  ∃ w1 w2 c2,
    statefulBtn b text cls w = Ok (length (closures w)) w1 ∧
    destroy (length (closures w)) w1 = Ok tt w2 ∧
    children_of (doc w2) b = children_of (doc w) b ∧
    attr_of (doc w2) b "aria-live" = None ∧
    closures w2 !! length (closures w) = Some c2 ∧
    isInit c2 = false ∧ isInState c2 = false ∧ wrapper c2 = None.
Proof.
  intros Hwf He Hcls Hvalid.
  destruct (statefulBtn_run b text cls w e Hwf He)
    as (w1 & Hnew & Hcs & _ & _ & Hwf1 & Hb1 & Hw1 & Hfresh & Hattr & _).
  set (c1 := initialized_closure
               (Closure b text cls false false Undefined Undefined None) e
               (fresh_node (doc w))) in Hcs.
  assert (closures w1 !! length (closures w) = Some c1) as Hc1.
  { rewrite Hcs. by rewrite lookup_app_r, Nat.sub_diag. }
  assert (is_Some (doc w1 !! b)) as [e1 He1].
  { apply (children_of_is_Some (doc w1) b (fresh_node (doc w))).
    rewrite Hb1. set_solver. }
  destruct (destroy_run (length (closures w)) w1 c1 e1 s
              (fresh_node (doc w)) [] [])
    as (w2 & Hd & Hcs2 & _ & _ & _ & Hb2 & _ & Hlive & _); try done.
  exists w1, w2, (set_isInState false (set_isInit false (set_wrapper None c1))).
  split_and!; try done.
  - simpl in Hb2. by rewrite Hb2, app_nil_r, Hw1.
  - rewrite Hcs2. apply list_lookup_insert_eq. by eapply lookup_lt_Some.
Qed.

End destroy_run.

(** ** [init] in any state *)

Section reinit.
Implicit Types (w : world) (c : closure) (i : inst_id) (d : document).

Lemma bind_Ok_inv {S A B} (m : M S A) (k : A → M S B) s b s2 :
  (m ≫= k) s = Ok b s2 → ∃ a s1, m s = Ok a s1 ∧ k a s1 = Ok b s2.
Proof. unfold_M. destruct (m s) as [a s1|]; [eauto|done]. Qed.

Lemma dom_Ok_inv {A} (m : M document A) w a w' :
  dom m w = Ok a w' → ∃ d', m (doc w) = Ok a d' ∧ w' = set_doc (λ _, d') w.
Proof.
  unfold dom. destruct (m (doc w)) as [a' d'|]; [|done].
  intros [= <- <-]. eauto.
Qed.

Lemma var_Ok_inv {A} i (proj : closure → A) w a w' :
  var i proj w = Ok a w' → w' = w ∧ ∃ c, closures w !! i = Some c ∧ a = proj c.
Proof.
  unfold var. destruct (closures w !! i) as [c|]; [|done].
  intros [= <- <-]. eauto.
Qed.

Lemma same_shells_final_appendChild p (o : option node_id) d :
  same_shells d (final_state (appendChild p o d)).
Proof.
  unfold appendChild. destruct (d !! p), o as [n|]; simpl;
    try apply same_shells_refl.
  destruct (contains d n p); simpl; [apply same_shells_refl|].
  eapply same_shells_trans;
    [apply same_shells_detach|apply same_shells_alter_children].
Qed.

Lemma same_shells_final_move_children fuel p n :
  ∀ d, same_shells d (final_state (move_children fuel p n d)).
Proof.
  induction fuel as [|fuel IH]; intros d; simpl; [apply same_shells_refl|].
  unfold_M. unfold firstChild. destruct (d !! p) as [e|]; simpl;
    [|apply same_shells_refl].
  case_decide; simpl; [apply same_shells_refl|].
  pose proof (same_shells_final_appendChild n (head (childNodes e)) d) as H1.
  destruct (appendChild n (head (childNodes e)) d) as [[] d1|]; simpl in *;
    [|done].
  eapply same_shells_trans; [done|apply IH].
Qed.

Lemma same_shells_final_insertBefore p (o : option node_id) ref d :
  same_shells d (final_state (insertBefore p o ref d)).
Proof.
  unfold insertBefore. destruct (d !! p), o as [n|]; simpl;
    try apply same_shells_refl.
  destruct (contains d n p); simpl; [apply same_shells_refl|].
  case_bool_decide; simpl; [|apply same_shells_refl].
  case_decide; simpl; [apply same_shells_refl|].
  eapply same_shells_trans;
    [apply same_shells_detach|apply same_shells_alter_children].
Qed.

Lemma same_shells_final_unwrap fuel b n :
  ∀ d, same_shells d (final_state (unwrap fuel b n d)).
Proof.
  induction fuel as [|fuel IH]; intros d; simpl; [apply same_shells_refl|].
  unfold_M. unfold firstChild. destruct (d !! n) as [e|]; simpl;
    [|apply same_shells_refl].
  destruct (head (childNodes e)) as [c|] eqn:Hhead; simpl;
    [|apply same_shells_refl].
  pose proof (same_shells_final_insertBefore b (Some c) n d) as H1.
  destruct (insertBefore b (Some c) n d) as [[] d1|]; simpl in *; [|done].
  eapply same_shells_trans; [done|apply IH].
Qed.

Lemma same_shells_unwrap_all b n d a d' :
  (get ≫= λ d0, unwrap (S (length (children_of d0 n))) b n) d = Ok a d' →
  same_shells d d'.
Proof.
  rewrite (step_bind get _ _ _ _ eq_refl). intros H.
  pose proof (same_shells_final_unwrap (S (length (children_of d n))) b n d)
    as Hs.
  by rewrite H in Hs.
Qed.

Lemma same_shells_final_removeChild p n d :
  same_shells d (final_state (removeChild p n d)).
Proof.
  unfold removeChild. destruct (d !! p); simpl; [|apply same_shells_refl].
  case_bool_decide; simpl; [apply same_shells_detach|apply same_shells_refl].
Qed.

Lemma removeAttribute_other n nm d a d' k name :
  removeAttribute n nm d = Ok a d' → name ≠ nm →
  attr_of d' k name = attr_of d k name.
Proof.
  unfold removeAttribute. destruct (d !! n) as [e|] eqn:He; [|done].
  intros [= <- <-] Hne. unfold attr_of.
  destruct (decide (n = k)) as [<-|].
  - rewrite lookup_insert_eq, He. simpl. by rewrite lookup_delete_ne.
  - by rewrite lookup_insert_ne.
Qed.

Lemma classList_remove_attr n tokens d a d' k name :
  classList_remove n tokens d = Ok a d' →
  attr_of d' k name = attr_of d k name.
Proof.
  unfold classList_remove. destruct (d !! n) as [e|] eqn:He; [|done].
  destruct (validate_tokens tokens); [done|].
  intros [= <- <-]. unfold attr_of. destruct (decide (n = k)) as [<-|].
  - by rewrite lookup_insert_eq, He.
  - by rewrite lookup_insert_ne.
Qed.

(** A [destroy] that returns keeps the button, the two arguments and every
    attribute of the button other than [aria-live] and [aria-label], and
    leaves the instance uninitialized. *)
Lemma destroy_Ok_keeps i w c w' name :
  closures w !! i = Some c → destroy i w = Ok tt w' →
  name ≠ "aria-live" → name ≠ "aria-label" →
  (∃ c', closures w' !! i = Some c' ∧ btn c' = btn c ∧
         inStateText c' = inStateText c ∧ inStateClass c' = inStateClass c ∧
         isInit c' = false) ∧
  attr_of (doc w') (btn c) name = attr_of (doc w) (btn c) name.
Proof.
  intros Hc Hd Hlive Hlabel. unfold destroy in Hd.
  rewrite (step_var i isInit _ w c Hc) in Hd.
  destruct (isInit c) eqn:Hinit; cbv beta iota in Hd.
  2: { injection Hd as <-. split; [|done]. by exists c. }
  rewrite (step_var i btn _ w c Hc) in Hd.
  apply bind_Ok_inv in Hd as ([] & w1 & (d1 & H1 & ->)%dom_Ok_inv & Hd).
  apply bind_Ok_inv in Hd as ([] & w2 & (d2 & H2 & ->)%dom_Ok_inv & Hd).
  simpl in H2.
  apply bind_Ok_inv in Hd as (cls & w3 & [-> _]%var_Ok_inv & Hd).
  apply bind_Ok_inv in Hd as (tokens & w3 & Hsplit & Hd).
  assert (w3 = set_doc (λ _, d2) (set_doc (λ _, d1) w)) as ->.
  { destruct cls; simpl in Hsplit; [done..|]. by injection Hsplit as _ <-. }
  apply bind_Ok_inv in Hd as ([] & w4 & (d3 & H3 & ->)%dom_Ok_inv & Hd).
  simpl in H3.
  apply bind_Ok_inv in Hd as (wr & w5 & [-> _]%var_Ok_inv & Hd).
  destruct wr as [n|]; [|done]. simpl in Hd.
  apply bind_Ok_inv in Hd as ([] & w5 & (d4 & H4 & ->)%dom_Ok_inv & Hd).
  apply bind_Ok_inv in Hd as ([] & w6 & (d5 & H5 & ->)%dom_Ok_inv & Hd).
  simpl in H5. rewrite !step_assign in Hd. unfold assign, modify in Hd.
  injection Hd as <-. simpl. split.
  - rewrite !list_lookup_alter_eq, Hc. simpl. eauto 10.
  - assert (same_shells d3 d4) as Hs4
      by exact (same_shells_unwrap_all (btn c) n d3 tt d4 H4).
    assert (same_shells d4 d5) as Hs5.
    { pose proof (same_shells_final_removeChild (btn c) n d4) as Hs.
      by rewrite H5 in Hs. }
    rewrite (attr_of_same_shells d4 d5), (attr_of_same_shells d3 d4) by done.
    rewrite (classList_remove_attr _ _ _ _ _ _ _ H3).
    rewrite (removeAttribute_other _ _ _ _ _ _ _ H2) by done.
    by rewrite (removeAttribute_other _ _ _ _ _ _ _ H1).
Qed.

(** A [wrapInner] with a new [span] that returns keeps the attributes of the
    parent, which is an element. *)
Lemma wrapInner_span_Ok b d r d' :
  wrapInner b (TagName "span") [] d = Ok r d' →
  ∃ e', d' !! b = Some e' ∧ ∀ name, attributes e' !! name = attr_of d b name.
Proof.
  intros Hw. pose proof (wrapInner_Ok_parent _ _ _ _ _ _ Hw) as [e' He'].
  exists e'. split; [done|]. intros name.
  revert Hw. rewrite wrapInner_tag by done.
  change (ascii_lowercase "span") with "span".
  set (n := fresh_node d). set (d0 := <[n := Element "span" ∅ [] []]> d).
  unfold wrapInner, mbind, M_bind, bind, mret, M_ret, ret, get.
  cbv beta iota. simpl set_attrs. unfold mret, M_ret, ret. cbv beta iota.
  pose proof (same_shells_final_appendChild b (Some n) d0) as Hs1.
  destruct (appendChild b (Some n) d0) as [[] d1|] eqn:Happ; [|done].
  simpl in Hs1.
  pose proof (same_shells_final_move_children
                (S (length (children_of d1 b))) b n d1) as Hs2.
  destruct (move_children _ b n d1) as [[] d2|]; [|done]. simpl in Hs2.
  intros [= _ <-].
  assert (b ≠ n) as Hbn.
  { intros ->. unfold appendChild in Happ.
    destruct (d0 !! n); [|done]. unfold contains in Happ.
    destruct (size d0); simpl in Happ;
      by rewrite bool_decide_eq_true_2 in Happ. }
  assert (attr_of d2 b name = attr_of d b name) as Hattr.
  { rewrite (attr_of_same_shells d1 d2), (attr_of_same_shells d0 d1) by done.
    unfold attr_of, d0. by rewrite lookup_insert_ne. }
  unfold attr_of in Hattr at 1. by rewrite He' in Hattr.
Qed.

(** [init] that returns, in any state of the instance and of the document:
    the variables that it leaves. *)
Lemma init_Ok_resolved i w c w' :
  closures w !! i = Some c → init i w = Ok tt w' →
  ∃ c', closures w' !! i = Some c' ∧ isInit c' = true ∧
    a11yText c' =
      resolved (inStateText c)
               (attr_of (doc w) (btn c) "data-in-state-text") ∧
    inStateClassName c' =
      resolved (inStateClass c)
               (attr_of (doc w) (btn c) "data-in-state-class").
Proof.
  intros Hc Hi. unfold init in Hi.
  rewrite (step_var i isInit _ w c Hc) in Hi.
  apply bind_Ok_inv in Hi as ([] & w1 & Hd & Hi).
  assert (∃ c1, closures w1 !! i = Some c1 ∧ btn c1 = btn c ∧
                inStateText c1 = inStateText c ∧
                inStateClass c1 = inStateClass c ∧
                ∀ name, name ≠ "aria-live" → name ≠ "aria-label" →
                        attr_of (doc w1) (btn c) name
                        = attr_of (doc w) (btn c) name)
    as (c1 & Hc1 & Hb & Ht & Hk & Hattr).
  { destruct (isInit c).
    - destruct (destroy_Ok_keeps i w c w1 "data-in-state-text" Hc Hd)
        as [(c1 & Hc1 & ? & ? & ? & _) _]; [done..|].
      exists c1. split_and!; [done..|]. intros name Hn1 Hn2.
      by apply (destroy_Ok_keeps i w c w1 name Hc Hd).
    - injection Hd as <-. exists c. by split_and!. }
  rewrite (step_var i btn _ w1 c1 Hc1), Hb in Hi.
  apply bind_Ok_inv in Hi as (pw & w2 & (d2 & Hw & ->)%dom_Ok_inv & Hi).
  destruct (wrapInner_span_Ok _ _ _ _ Hw) as (e2 & He2 & Hattr2).
  pose proof (init_tail_run i (btn c) pw (set_doc (λ _, d2) w1) c1 e2 Hc1 He2)
    as Hrun.
  unfold init_tail in Hrun. rewrite Hrun in Hi. injection Hi as <-.
  exists (initialized_closure c1 e2 pw.2). simpl. split_and!.
  - apply list_lookup_insert_eq. by eapply lookup_lt_Some.
  - done.
  - by rewrite Ht, Hattr2, Hattr.
  - by rewrite Hk, Hattr2, Hattr.
Qed.

End reinit.

(** ** [destroy] after [init] *)

(** C2, at a button set up without class names ([statefulBtn(btn)], no
    [data-in-state-class] attribute): [destroy()] throws a [TypeError]
    before it unwraps anything.  The children of the button before [init]
    were [2; 3]; after [destroy] the only child of the button is still the
    wrapper, which still holds them, and the instance is still
    initialized. *)
Theorem destroy_without_class_names_leaves_content_wrapped :
  children_of button_doc 1 = [2; 3] ∧
  ∃ w', destroy 0 plain_page = Throw TypeError w' ∧
        children_of (doc w') 1 = [4] ∧
        children_of (doc w') 4 = [2; 3] ∧
        isInit <$> closures w' !! 0 = Some true.
Proof.
  split; [by vm_compute|]. eexists. split; [by vm_compute|].
  by vm_compute.
Qed.

(** ** The state invariants are kept *)

(** C3.  Every public operation keeps the two state invariants of every
    instance (the wrapper is defined exactly when the instance is
    initialized; an active instance is initialized), whether the operation
    returns or throws and whatever the event listeners do: the methods
    [init], [destroy], [toggle], [enableState], [disableState] and the two
    setters, the factory [statefulBtn], and every script made of them. *)
Theorem public_operations_keep_invariants observers depth w :
  state_invariant w →
  (∀ i m,
     state_invariant (final_state (invoke_at depth observers i m w))) ∧
  (∀ b text cls,
     state_invariant (final_state (statefulBtn b text cls w))) ∧
  (∀ s, state_invariant (run depth observers s w)).
Proof.
  intros Hw. split_and!.
  - intros i m. pose proof (invoke_at_invariant observers depth i m w Hw) as H.
    by destruct (invoke_at depth observers i m w).
  - intros b text cls.
    pose proof (statefulBtn_invariant b text cls w Hw) as H.
    by destruct (statefulBtn b text cls w).
  - intros s. unfold run.
    pose proof (run_script_invariant (invoke_at depth observers)
                  (invoke_at_invariant observers depth) s (w, false) Hw) as H.
    by destruct (run_script (invoke_at depth observers) s (w, false)).
Qed.

Lemma public_operations_keep_invariants_witness :
  state_invariant busy_page ∧
  state_invariant
    (final_state (invoke_at 2 destroying_observers 0 EnableState busy_page)).
Proof.
  assert (state_invariant busy_page) as Hw.
  { apply (bool_decide_unpack (state_invariant busy_page)). by vm_compute. }
  split; [done|].
  apply (public_operations_keep_invariants destroying_observers 2 busy_page Hw).
Defined.

(** ** A vetoed "before" event *)

(** C4.  For an initialized instance: when the dispatch of the
    enable-before event returns [false] (a listener called
    [preventDefault]), [enableState] returns in the state the dispatch
    reached and does nothing else; if the listeners of that event only look
    and veto, the document and the variables of every instance are as before
    the call and the only new event is the enable-before one, so the active
    flag is unchanged, nothing was set on the wrapper or the target and no
    enable-after event was fired.  The same holds for [disableState] and the
    disable-before event. *)
Theorem vetoed_before_event_skips_the_rest observers depth i w c :
  closures w !! i = Some c → isInit c = true →
  (∀ w', dispatchEvent observers (invoke_at depth observers) (btn c)
           "stateful-btn:enable-before" (isInState c) w = Ok false w' →
     enableState observers (invoke_at depth observers) i w = Ok tt w' ∧
     (Forall onlooker
        (observers (Event (btn c) "stateful-btn:enable-before" (isInState c))) →
      doc w' = doc w ∧ closures w' = closures w ∧
      allInstances w' = allInstances w ∧
      dispatched w' =
        dispatched w ++
        [Event (btn c) "stateful-btn:enable-before" (isInState c)])) ∧
  (∀ w', dispatchEvent observers (invoke_at depth observers) (btn c)
           "htz-stateful-btn:disable-before" (isInState c) w = Ok false w' →
     disableState observers (invoke_at depth observers) i w = Ok tt w' ∧
     (Forall onlooker
        (observers
           (Event (btn c) "htz-stateful-btn:disable-before" (isInState c))) →
      doc w' = doc w ∧ closures w' = closures w ∧
      allInstances w' = allInstances w ∧
      dispatched w' =
        dispatched w ++
        [Event (btn c) "htz-stateful-btn:disable-before" (isInState c)])).
Proof.
  intros Hc Hinit. split; intros w' Hd; (split; [|intros Hobs]).
  - unfold enableState.
    rewrite (step_var i isInit _ w c Hc), Hinit. cbv beta iota.
    rewrite (step_var i btn _ w c Hc), (step_var i isInState _ w c Hc).
    by rewrite (step_bind _ _ _ _ _ Hd).
  - destruct (dispatchEvent_onlookers observers (invoke_at depth observers)
                _ _ _ w Hobs) as [allowed Hd'].
    rewrite Hd' in Hd. by injection Hd as _ <-.
  - unfold disableState.
    rewrite (step_var i isInit _ w c Hc), Hinit. cbv beta iota.
    rewrite (step_var i btn _ w c Hc), (step_var i isInState _ w c Hc).
    by rewrite (step_bind _ _ _ _ _ Hd).
  - destruct (dispatchEvent_onlookers observers (invoke_at depth observers)
                _ _ _ w Hobs) as [allowed Hd'].
    rewrite Hd' in Hd. by injection Hd as _ <-.
Qed.

Lemma vetoed_before_event_skips_the_rest_witness :
  enableState vetoing_observers (invoke_at 1 vetoing_observers) 0 busy_page
  = Ok tt (logged (Event 1 "stateful-btn:enable-before" false) busy_page).
Proof.
  destruct (vetoed_before_event_skips_the_rest vetoing_observers 1 0 busy_page
              (Closure 1 Undefined (Str "busy") false true (Str "Loading")
                       (Str "busy") (Some 4)))
    as [Hen _]; [by vm_compute..|].
  apply Hen. by vm_compute.
Defined.

(** ** [enableState] then [disableState] *)

(** C5 as stated fails: a second [disableState()] in a row dispatches the
    two disable events again. *)
Lemma second_disable_fires_again_counterexample :
  ¬ second_disable_is_silent no_observers 0 busy_page ∧
  dispatched disabled_twice_page =
    dispatched cycled_page ++
    [ Event 1 "htz-stateful-btn:disable-before" false;
      Event 1 "htz-stateful-btn:disable-after" false ].
Proof.
  split; [|by vm_compute].
  intros H. specialize (H 0).
  destruct (disableState no_observers (invoke_at 0 no_observers) 0 busy_page)
    as [[] w1|] eqn:Hw1; [|by vm_compute in Hw1].
  specialize (H w1 eq_refl). vm_compute in Hw1. injection Hw1 as <-.
  vm_compute in H. discriminate.
Qed.

(** C5, amended.  For an initialized instance whose wrapper and button are
    elements, whose class names are tokens that [classList] accepts, and on a
    page whose listeners only look: [enableState()] followed by
    [disableState()] returns with the active flag false (its original value
    for an instance that was not active), the button without [aria-label] if
    a label text is configured, without the class tokens of the in-state
    class names, and the wrapper without [aria-hidden]; the four events were
    dispatched in order.  A second [disableState()] in a row leaves the
    document, the instances and the registry as they are, but dispatches the
    disable-before and disable-after events again. *)
Theorem enable_then_disable_then_disable observers depth i w c e ew wr :
  (∀ ev, Forall bystander (observers ev)) →
  closures w !! i = Some c → isInit c = true → wrapper c = Some wr →
  doc w !! btn c = Some e → doc w !! wr = Some ew → wr ≠ btn c →
  accepted_classes (inStateClassName c) →
  ∃ w1 w2 w3,
    enableState observers (invoke_at depth observers) i w = Ok tt w1 ∧
    disableState observers (invoke_at depth observers) i w1 = Ok tt w2 ∧
    disableState observers (invoke_at depth observers) i w2 = Ok tt w3 ∧
    closures w2 = <[i := set_isInState false c]> (closures w) ∧
    attr_of (doc w2) (btn c) "aria-label" =
      (if truthy (a11yText c) then None else attributes e !! "aria-label") ∧
    classList <$> doc w2 !! btn c =
      Some (filter (λ t, t ∉ class_tokens (inStateClassName c))
                   (classList e)) ∧
    attr_of (doc w2) wr "aria-hidden" = None ∧
    dispatched w2 =
      dispatched w ++
      [ Event (btn c) "stateful-btn:enable-before" (isInState c);
        Event (btn c) "stateful-btn:enable-after" true;
        Event (btn c) "htz-stateful-btn:disable-before" true;
        Event (btn c) "htz-stateful-btn:disable-after" false ] ∧
    doc w3 = doc w2 ∧ closures w3 = closures w2 ∧
    allInstances w3 = allInstances w2 ∧
    dispatched w3 =
      dispatched w2 ++
      [ Event (btn c) "htz-stateful-btn:disable-before" false;
        Event (btn c) "htz-stateful-btn:disable-after" false ].
Proof.
  intros Hobs Hc Hinit Hwr He Hew Hne Hcls.
  assert (i < length (closures w)) as Hi by by eapply lookup_lt_Some.
  set (inv := invoke_at depth observers).
  pose proof (enableState_run observers inv Hobs i w c e ew wr
                Hc Hinit Hwr He Hew Hne Hcls) as H1.
  set (w1 := World _ _ _ _) in H1.
  set (c1 := set_isInState true c).
  set (e1 := enabled_button (a11yText c) (inStateClassName c) e).
  set (ew1 := set_attributes (<["aria-hidden" := "true"]>) ew).
  assert (closures w1 !! i = Some c1) as Hc1 by by apply list_lookup_insert_eq.
  assert (doc w1 !! btn c1 = Some e1) as He1 by apply lookup_insert_eq.
  assert (doc w1 !! wr = Some ew1) as Hew1.
  { unfold w1. simpl. by rewrite lookup_insert_ne, lookup_insert_eq. }
  pose proof (disableState_run observers inv Hobs i w1 c1 e1 ew1 wr
                Hc1 Hinit Hwr He1 Hew1 Hne Hcls) as H2.
  set (w2 := World _ _ _ _) in H2.
  set (c2 := set_isInState false c1).
  set (e2 := disabled_button (a11yText c1) (inStateClassName c1) e1).
  set (ew2 := set_attributes (delete "aria-hidden") ew1).
  assert (closures w2 !! i = Some c2) as Hc2.
  { apply list_lookup_insert_eq. unfold w1. simpl. by rewrite length_insert. }
  assert (doc w2 !! btn c2 = Some e2) as He2.
  { unfold w2. simpl. by rewrite lookup_insert_ne, lookup_insert_eq. }
  assert (doc w2 !! wr = Some ew2) as Hew2 by apply lookup_insert_eq.
  pose proof (disableState_run observers inv Hobs i w2 c2 e2 ew2 wr
                Hc2 Hinit Hwr He2 Hew2 Hne Hcls) as H3.
  set (w3 := World _ _ _ _) in H3.
  exists w1, w2, w3. split_and!; [done..| | | | | | | |done|].
  - unfold w2, w1. simpl. by rewrite list_insert_insert_eq.
  - unfold attr_of. change (btn c) with (btn c2). rewrite He2. simpl.
    destruct (a11yText c) as [| |s]; simpl; [done..|].
    case_bool_decide; simpl; [done|].
    by rewrite lookup_delete_eq.
  - change (btn c) with (btn c2). rewrite He2. simpl.
    by rewrite filter_added_tokens.
  - unfold attr_of. rewrite Hew2. simpl. by rewrite lookup_delete_eq.
  - unfold w2, w1. simpl. by rewrite <-app_assoc.
  - assert (disabled_button (a11yText c) (inStateClassName c) e2 = e2) as Hb
      by apply disabled_button_twice.
    assert (set_attributes (delete "aria-hidden") ew2 = ew2) as Hh.
    { unfold ew2, set_attributes. simpl. by rewrite delete_delete_eq. }
    change (<[wr := set_attributes (delete "aria-hidden") ew2]>
              (<[btn c := disabled_button (a11yText c) (inStateClassName c)
                                          e2]> (doc w2)) = doc w2).
    rewrite Hb, Hh, (insert_same (doc w2) (btn c) e2 He2).
    by apply insert_same.
  - change (<[i := set_isInState false c2]> (closures w2) = closures w2).
    apply list_insert_id. exact Hc2.
  - done.
Qed.

Lemma enable_then_disable_then_disable_witness :
  ∃ w3, disableState no_observers (invoke_at 1 no_observers) 0 cycled_page
        = Ok tt w3 ∧ doc w3 = doc cycled_page.
Proof.
  destruct (enable_then_disable_then_disable no_observers 1 0 busy_page
              (Closure 1 Undefined (Str "busy") false true (Str "Loading")
                       (Str "busy") (Some 4))
              (Element "button"
                       (<["aria-live" := "polite"]>
                          {[ "data-in-state-text" := "Loading" ]})
                       ["o-btn"] [4])
              (Element "span" ∅ [] [2; 3]) 4)
    as (w1 & w2 & w3 & H1 & H2 & H3 & _ & _ & _ & _ & _ & Hdoc & _).
  - intros ev. constructor.
  - by vm_compute.
  - done.
  - done.
  - by vm_compute.
  - by vm_compute.
  - done.
  - intros _. by vm_compute.
  - exists w3. vm_compute in H1. injection H1 as <-.
    vm_compute in H2. injection H2 as <-.
    split; [|by rewrite Hdoc; vm_compute].
    rewrite <-H3. by vm_compute.
Defined.

(** ** [destroy] without class names *)

(** C6 as stated fails in its second part: the removal of [aria-label] is
    not guarded by the label text.  The button carries [aria-label="Send"]
    of its own, [statefulBtn(btn)] resolves neither a label text nor class
    names, and [destroy] deletes the label of the button before it throws. *)
Lemma destroy_deletes_own_label_counterexample :
  ¬ label_kept_when_unset 0 labelled_page ∧
  a11yText <$> closures labelled_page !! 0 = Some Null ∧
  inStateClassName <$> closures labelled_page !! 0 = Some Null ∧
  attr_of (doc labelled_page) 1 "aria-label" = Some "Send" ∧
  ∃ w', destroy 0 labelled_page = Throw TypeError w' ∧
        attr_of (doc w') 1 "aria-label" = None.
Proof.
  split_and!; [|by vm_compute..|eexists; split; by vm_compute].
  intros H.
  specialize (H (Closure 1 Undefined Undefined false true Null Null (Some 3))).
  vm_compute in H. by specialize (H eq_refl eq_refl).
Qed.

(** C6, amended.  For an initialized instance whose button is an element and
    whose class names are unset ([null] after [init] found neither an
    argument nor a [data-in-state-class] attribute, or [undefined]),
    [destroy] throws a [TypeError] at [inStateClassName.split].  No step of
    [destroy] is guarded by its optional value: whatever the label text, set
    or unset, [destroy] has by then removed [aria-live] and [aria-label]
    from the button, also an [aria-label] that the page gave it.  It leaves
    everything else as it was: the instance variables (the instance still
    initialized, the content still wrapped), the registry, the event log,
    every child list, every other node, the other attributes and the class
    tokens of the button.  The document is unchanged exactly when the button
    had neither of the two attributes. *)
Theorem destroy_fails_without_class_names w i c e :
  closures w !! i = Some c → isInit c = true → doc w !! btn c = Some e →
  inStateClassName c = Null ∨ inStateClassName c = Undefined →
  ∃ w', destroy i w = Throw TypeError w' ∧
     closures w' = closures w ∧
     allInstances w' = allInstances w ∧
     dispatched w' = dispatched w ∧
     (∀ k, children_of (doc w') k = children_of (doc w) k) ∧
     (∀ k, k ≠ btn c → doc w' !! k = doc w !! k) ∧
     attr_of (doc w') (btn c) "aria-live" = None ∧
     attr_of (doc w') (btn c) "aria-label" = None ∧
     (∀ name, name ≠ "aria-live" → name ≠ "aria-label" →
              attr_of (doc w') (btn c) name = attributes e !! name) ∧
     classes_of (doc w') (btn c) = classList e ∧
     (doc w' = doc w ↔
      attributes e !! "aria-live" = None ∧
      attributes e !! "aria-label" = None).
Proof.
  intros Hc Hinit He Hcls.
  eexists. split.
  { apply (destroy_throws_at_split w i c e); [done..|].
    intros s. destruct Hcls as [-> | ->]; done. }
  simpl. split_and!; [done..| | | | | | |].
  - intros k. unfold children_of. destruct (decide (btn c = k)) as [<-|].
    + by rewrite lookup_insert_eq, He.
    + by rewrite lookup_insert_ne.
  - intros k Hk. by rewrite lookup_insert_ne.
  - unfold attr_of. rewrite lookup_insert_eq. simpl.
    by rewrite lookup_delete_ne, lookup_delete_eq.
  - unfold attr_of. rewrite lookup_insert_eq. simpl.
    by rewrite lookup_delete_eq.
  - intros name H1 H2. unfold attr_of. rewrite lookup_insert_eq. simpl.
    by rewrite !lookup_delete_ne.
  - unfold classes_of. by rewrite lookup_insert_eq.
  - split.
    + intros Hd.
      assert (<[btn c := set_attributes (delete "aria-label")
                           (set_attributes (delete "aria-live") e)]> (doc w)
              !! btn c = Some e) as Hl by (by rewrite Hd).
      rewrite lookup_insert_eq in Hl. apply (inj Some) in Hl.
      apply (f_equal attributes) in Hl. simpl in Hl. split.
      * rewrite <-Hl. by rewrite lookup_delete_ne, lookup_delete_eq.
      * rewrite <-Hl. by rewrite lookup_delete_eq.
    + intros [Hlive Hlabel]. apply insert_id. rewrite He. f_equal.
      destruct e as [t a cl ch]. unfold set_attributes. simpl in *.
      f_equal. by rewrite (delete_id a "aria-live"), delete_id.
Qed.

Lemma destroy_fails_without_class_names_witness :
  ∃ w', destroy 0 labelled_page = Throw TypeError w' ∧
        closures w' = closures labelled_page ∧
        attr_of (doc w') 1 "aria-label" = None ∧
        doc w' ≠ doc labelled_page.
Proof.
  destruct (destroy_fails_without_class_names labelled_page 0
              (Closure 1 Undefined Undefined false true Null Null (Some 3))
              (Element "button"
                       (<["aria-live" := "polite"]>
                          {[ "aria-label" := "Send" ]})
                       [] [3]))
    as (w' & Hw' & Hcl & _ & _ & _ & _ & _ & Hlabel & _ & _ & Hiff);
    [by vm_compute..|by left|].
  exists w'. split_and!; [done..|].
  intros Hd. apply Hiff in Hd as [Hd _]. by vm_compute in Hd.
Defined.

(** ** The configuration that [init] resolves *)

Lemma resolved_resolves_to argument attribute :
  resolves_to argument attribute (resolved argument attribute).
Proof.
  unfold resolves_to, resolved. split_and!.
  - intros s -> Hs. simpl. by rewrite bool_decide_eq_false_2.
  - by intros -> v ->.
  - by intros -> ->.
Qed.

(** C7 as stated fails for an explicit argument that is the empty string:
    the button carries [data-in-state-text="Loading"], the label text is
    passed as [''], and [init] resolves it to ["Loading"]. *)
Lemma empty_argument_counterexample :
  a11yText <$>
    closures (final_state (statefulBtn 1 (Str "") Undefined button_page)) !! 0
  ≠ Some (argument_first (Str "")
                         (attr_of button_doc 1 "data-in-state-text")).
Proof. by vm_compute. Qed.

(** C7, amended.  On a well-formed document and a button that is an
    element, [init] on an instance that is not initialized returns, and so
    does the factory [statefulBtn], which calls it.  The label text is then
    the explicit argument when that is a non-empty string; otherwise (the
    argument is [undefined], [null] or the empty string) it is the value of
    the [data-in-state-text] attribute of the button, and [null] when the
    button has no such attribute.  The class names are resolved in the same
    way from the explicit argument and [data-in-state-class].  Every call of
    [init] that returns, a re-initialization included, has resolved both in
    this way. *)
Theorem init_resolves_label_and_classes w :
  (∀ i c e,
     well_formed (doc w) →
     closures w !! i = Some c → isInit c = false → doc w !! btn c = Some e →
     ∃ w' c', init i w = Ok tt w' ∧ closures w' !! i = Some c' ∧
       resolves_to (inStateText c) (attributes e !! "data-in-state-text")
                   (a11yText c') ∧
       resolves_to (inStateClass c) (attributes e !! "data-in-state-class")
                   (inStateClassName c')) ∧
  (∀ b text cls e,
     well_formed (doc w) → doc w !! b = Some e →
     ∃ w' c', statefulBtn b text cls w = Ok (length (closures w)) w' ∧
       closures w' !! length (closures w) = Some c' ∧
       resolves_to text (attributes e !! "data-in-state-text")
                   (a11yText c') ∧
       resolves_to cls (attributes e !! "data-in-state-class")
                   (inStateClassName c')) ∧
  (∀ i c w',
     closures w !! i = Some c → init i w = Ok tt w' →
     ∃ c', closures w' !! i = Some c' ∧
       resolves_to (inStateText c)
                   (attr_of (doc w) (btn c) "data-in-state-text")
                   (a11yText c') ∧
       resolves_to (inStateClass c)
                   (attr_of (doc w) (btn c) "data-in-state-class")
                   (inStateClassName c')).
Proof.
  split_and!.
  - intros i c e Hwf Hc Hinit He.
    destruct (init_uninitialized i w c e Hc Hinit Hwf He)
      as (d' & e' & _ & _ & _ & _ & _ & _ & _ & _ & _ & ->).
    eexists _. exists (initialized_closure c e (fresh_node (doc w))).
    split_and!; [done| |apply resolved_resolves_to..].
    simpl. apply list_lookup_insert_eq. by eapply lookup_lt_Some.
  - intros b text cls e Hwf He.
    destruct (statefulBtn_run b text cls w e Hwf He) as (w' & -> & Hcs & _).
    exists w', (initialized_closure
                  (Closure b text cls false false Undefined Undefined None)
                  e (fresh_node (doc w))).
    split_and!; [done| |apply resolved_resolves_to..].
    rewrite Hcs. by rewrite lookup_app_r, Nat.sub_diag.
  - intros i c w' Hc Hi.
    destruct (init_Ok_resolved i w c w' Hc Hi) as (c' & Hc' & _ & Ht & Hk).
    exists c'. rewrite Ht, Hk.
    split_and!; [done|apply resolved_resolves_to..].
Qed.

Lemma init_resolves_label_and_classes_witness :
  ∃ w' c', statefulBtn 1 (Str "Busy") Undefined button_page = Ok 0 w' ∧
           closures w' !! 0 = Some c' ∧
           a11yText c' = Str "Busy" ∧ inStateClassName c' = Null.
Proof.
  destruct (init_resolves_label_and_classes button_page) as (_ & Hnew & _).
  destruct (Hnew 1 (Str "Busy") Undefined
              (Element "button" {[ "data-in-state-text" := "Loading" ]}
                       ["o-btn"] [2; 3]))
    as (w' & c' & Hw' & Hc' & Ht & Hcl);
    [apply button_doc_well_formed|by vm_compute|].
  exists w', c'. split_and!; [done..| |].
  - by apply (proj1 Ht "Busy").
  - by apply (proj2 (proj2 Hcl)).
Defined.

(** ** The names of the events *)

(** C8, at a page without listeners: [enableState()] then [disableState()]
    on a new instance dispatch four events on the button.  The two enable
    events are named with the prefix [stateful-btn:], as the documentation
    of the module names all four, and the two disable events with the
    prefix [htz-stateful-btn:].  Each carries the active flag at the time of
    its dispatch. *)
Theorem disable_events_have_another_prefix :
  dispatched cycled_page =
  [ Event 1 "stateful-btn:enable-before" false;
    Event 1 "stateful-btn:enable-after" true;
    Event 1 "htz-stateful-btn:disable-before" true;
    Event 1 "htz-stateful-btn:disable-after" false ].
Proof. by vm_compute. Qed.

(** ** The registry *)

(** C9 as stated fails: two calls of [statefulBtn] for one button register
    two instances, both initialized, with that button as target. *)
Lemma two_instances_for_one_button_counterexample :
  ¬ one_instance_per_element twice_page.
Proof.
  intros H.
  specialize (H 0 1
                (Closure 1 Undefined (Str "busy") false true (Str "Loading")
                         (Str "busy") (Some 4))
                (Closure 1 Undefined (Str "busy") false true (Str "Loading")
                         (Str "busy") (Some 5))).
  assert (0 = 1) as Heq; [|done].
  apply H; try by vm_compute.
  - apply (bool_decide_unpack (0 ∈ allInstances twice_page)). by vm_compute.
  - apply (bool_decide_unpack (1 ∈ allInstances twice_page)). by vm_compute.
Qed.

(** C9, amended.  In every state that constructor and method calls reach
    from a page with an empty registry, the registry lists each instance
    object at most once and only instance objects that exist; a call of
    [statefulBtn] that returns appends the new instance to the registry,
    whether or not the element already has a registered instance. *)
Theorem registry_lists_each_instance_once observers w :
  reachable observers w →
  registry_ok w ∧
  ∀ b text cls i w',
    statefulBtn b text cls w = Ok i w' →
    (i ∉ allInstances w) ∧ allInstances w' = allInstances w ++ [i].
Proof.
  intros Hr. assert (registry_ok w) as Hok.
  { induction Hr as [d|depth s w _ IH].
    - split; simpl; [constructor|done].
    - unfold run.
      pose proof (run_script_stable (invoke_at depth observers) registry_ok
                    registry_ok_stable
                    (invoke_at_registry_ok observers depth)
                    statefulBtn_registry_ok s (w, false) IH) as H.
      by destruct (run_script (invoke_at depth observers) s (w, false)). }
  split; [done|]. intros b text cls i w' Hnew.
  by apply statefulBtn_registers in Hnew as (_ & ? & ? & _).
Qed.

Lemma registry_lists_each_instance_once_witness :
  reachable no_observers twice_page ∧ registry_ok twice_page.
Proof.
  assert (reachable no_observers twice_page) as Hr.
  { apply reachable_run, reachable_start. }
  split; [done|].
  apply (registry_lists_each_instance_once no_observers twice_page Hr).
Defined.

(** ** Looking up an instance *)

(** C10.  [getInstance] takes an element or a string, the string being
    looked up with [document.getElementById].  It never throws and changes
    nothing.  Its result is the first registered instance, in the order of
    registration, whose target is that element; the result is absent exactly
    when no registered instance has that element as target, in particular
    when the identifier denotes no element. *)
Theorem getInstance_finds_the_registered_instance getElementById r w :
  ∃ result,
    getInstance getElementById r w = Ok result w ∧
    let elem := match r with
                | RefString s => getElementById (doc w) s
                | RefElement n => Some n
                end in
    (∀ i, result = Some i →
          ∃ c before after,
            closures w !! i = Some c ∧ Some (btn c) = elem ∧
            allInstances w = before ++ i :: after ∧
            ∀ j cj, j ∈ before → closures w !! j = Some cj →
                    Some (btn cj) ≠ elem) ∧
    (result = None ↔
     ∀ i c, i ∈ allInstances w → closures w !! i = Some c →
            Some (btn c) ≠ elem) ∧
    (elem = None → result = None).
Proof.
  set (elem := match r with
               | RefString s => getElementById (doc w) s
               | RefElement n => Some n
               end).
  set (elem' := match r with
                | RefString s => RefElement <$> getElementById (doc w) s
                | RefElement n => Some (RefElement n)
                end).
  exists (head (filter (λ i, has_target w elem' i) (allInstances w))).
  split.
  { unfold getInstance, elem'. destruct r; vm_compute capture; cbv beta iota;
      rewrite step_ret; vm_compute bool_decide; cbv beta iota;
      by rewrite (step_bind get _ w w w eq_refl). }
  assert (∀ c, Some (RefElement (btn c)) = elem' ↔ Some (btn c) = elem)
    as Helem.
  { intros c. unfold elem, elem'. destruct r as [s|n]; simpl.
    - destruct (getElementById (doc w) s); naive_solver.
    - naive_solver. }
  assert (∀ i, Is_true (has_target w elem' i) ↔
               ∃ c, closures w !! i = Some c ∧ Some (btn c) = elem) as Ht.
  { intros i. rewrite Is_true_true, has_target_spec.
    by setoid_rewrite Helem. }
  cbv zeta. split_and!.
  - intros i (before & after & Hal & Hi & Hb)%head_filter_Some.
    apply Ht in Hi as (c & Hc & Hci). exists c, before, after.
    split_and!; [done..|]. intros j cj Hj Hcj Hbtn.
    rewrite Forall_forall in Hb. apply (Hb j Hj), Ht. eauto.
  - rewrite head_filter_None, Forall_forall. split.
    + intros Hall i c Hi Hc Hbtn. apply (Hall i Hi), Ht. eauto.
    + intros Hall i Hi (c & Hc & Hbtn)%Ht. by eapply Hall.
  - intros Hnone. apply head_filter_None, Forall_forall.
    intros i _ (c & _ & Hbtn)%Ht. by rewrite Hnone in Hbtn.
Qed.

(** ** Further properties of [wrapInner] *)

Section wrap_inner_more.
Implicit Types (d : document).

Lemma own_value_not_own attrs name :
  not_own attrs name → own_value attrs name = None.
Proof.
  intros Hno. destruct (own_value attrs name) as [v|] eqn:Hv; [|done].
  apply own_value_elem in Hv as (pr & Hin & Hown & Hname & _).
  by rewrite (Hno pr Hin Hname) in Hown.
Qed.

(** X1.  The [while] loop of [wrapInner] ends on every document, well-formed
    or not, for every container, wrapper and attribute object: it never needs
    more iterations than the container has children after the wrapper was
    appended, and so the bound that the model gives to the loop is never
    reached. *)
Theorem wrapInner_loop_ends parent wrapper attrs d :
  diverged (wrapInner parent wrapper attrs d) = false.
Proof.
  destruct (wrapInner parent wrapper attrs d) as [r d'|x d'] eqn:H; [done|].
  destruct x; try done. by apply wrapInner_terminates in H.
Qed.

(** X2.  What [wrapInner] leaves alone, in a well-formed document, for a
    parent that is an element, a wrapper that the DOM accepts (a tag name
    that [createElement] accepts, or an element that does not contain the
    parent) and an object [attrs] whose own properties have names that
    [setAttribute] accepts: every node other than the wrapper keeps its
    tag, attributes and class tokens (none appears, none disappears); the
    child list of a node other than the parent and the wrapper only loses
    the wrapper, if it held it; an attribute of the wrapper that no own
    property of [attrs] sets (the names compared in lower case, inherited
    properties not counted) keeps its value, and the class tokens of the
    wrapper are as they were when no own property sets [class]. *)
Theorem wrapInner_leaves_the_rest d parent wrapper attrs :
  well_formed d → is_Some (d !! parent) → usable_wrapper d parent wrapper →
  accepted_names attrs = true →
  ∃ d', wrapInner parent wrapper attrs d
          = Ok (parent, wrapper_elem d wrapper) d' ∧
    (∀ k, k ≠ wrapper_elem d wrapper → shell <$> d' !! k = shell <$> d !! k) ∧
    (∀ k, k ≠ parent → k ≠ wrapper_elem d wrapper →
          children_of d' k
          = filter (λ c, c ≠ wrapper_elem d wrapper) (children_of d k)) ∧
    (∀ name, not_own attrs name →
             attr_of d' (wrapper_elem d wrapper) name
             = attr_of d (wrapper_elem d wrapper) name) ∧
    (not_own attrs "class" →
     classes_of d' (wrapper_elem d wrapper)
     = classes_of d (wrapper_elem d wrapper)).
Proof.
  intros Hwf Hp Hu Hacc. destruct wrapper as [tag|n]; simpl in *.
  - destruct (wrapInner_new_element d parent tag attrs Hwf Hp Hu Hacc)
      as (d' & Hd' & _ & _ & _ & Hk & Hsh & _ & Hattr & Hclass & Hcs & _).
    exists d'. split_and!; [done..| | |].
    + intros k Hkp Hkw. rewrite (Hk k Hkp Hkw).
      symmetry. apply filter_ne_notin, fresh_node_not_child.
    + intros name Hno. unfold attr_of at 2. rewrite fresh_node_lookup. simpl.
      destruct (decide (name = "class")) as [->|Hname]; [done|].
      by rewrite Hattr, (own_value_not_own _ _ Hno).
    + intros Hno. rewrite Hcs, (own_value_not_own _ _ Hno).
      unfold classes_of. by rewrite fresh_node_lookup.
  - destruct Hu as [Hn Hnd].
    destruct (wrapInner_element d parent n attrs Hwf Hp Hn Hnd Hacc)
      as (d' & Hd' & _ & _ & _ & Hk & Hsh & _ & Hattr & Hclass & Hcs & _).
    exists d'. split_and!; [done..| |].
    + intros name Hno.
      destruct (decide (name = "class")) as [->|Hname]; [done|].
      by rewrite Hattr, (own_value_not_own _ _ Hno).
    + intros Hno. by rewrite Hcs, (own_value_not_own _ _ Hno).
Qed.

Lemma wrapInner_leaves_the_rest_witness :
  ∃ d', wrapInner 1 (ElementRef 2)
                  [Property "title" "inherited" false;
                   Property "Lang" "he" true]
                  button_doc = Ok (1, 2) d' ∧
        shell <$> d' !! 1 = shell <$> button_doc !! 1 ∧
        attr_of d' 2 "title" = None ∧
        classes_of d' 2 = [].
Proof.
  destruct (wrapInner_leaves_the_rest
              button_doc 1 (ElementRef 2)
              [Property "title" "inherited" false;
               Property "Lang" "he" true])
    as (d' & Hd' & Hsh & Hk & Hattr & Hcs).
  - exact button_doc_well_formed.
  - by eexists.
  - split; [by eexists|].
    intros Hd. apply (descends_childless button_doc 2 1) in Hd; [done|].
    by vm_compute.
  - by vm_compute.
  - assert (∀ name, name ≠ "lang" →
                    not_own [Property "title" "inherited" false;
                             Property "Lang" "he" true] name) as Hno.
    { intros name Hname pr Hpr Hlow.
      apply elem_of_cons in Hpr as [->|Hpr]; [done|].
      apply list_elem_of_singleton in Hpr. subst pr.
      vm_compute in Hlow. by subst name. }
    cbn [wrapper_elem] in Hd', Hsh, Hattr, Hcs.
    exists d'. split_and!.
    + exact Hd'.
    + apply Hsh. by vm_compute.
    + rewrite (Hattr "title") by (by apply Hno). by vm_compute.
    + rewrite Hcs by (by apply Hno). by vm_compute.
Defined.

(** X3.  The parent given as its own wrapper, with an object [attrs] whose
    own properties have names that [setAttribute] accepts: the DOM refuses
    to append an element to itself, so [wrapInner] throws a
    [HierarchyRequestError].  It has set the own properties of [attrs] as
    attributes of the parent by then (under their names in lower case, the
    last own property of a name deciding, [class] as the class tokens); no
    child list has changed and every other node is as it was. *)
Theorem wrapInner_with_the_container_itself d parent attrs :
  is_Some (d !! parent) → accepted_names attrs = true →
  ∃ d', wrapInner parent (ElementRef parent) attrs d
          = Throw HierarchyRequestError d' ∧
    (∀ k, children_of d' k = children_of d k) ∧
    (∀ k, k ≠ parent → d' !! k = d !! k) ∧
    (∀ name, name ≠ "class" →
             attr_of d' parent name =
             match own_value attrs name with
             | Some v => Some v
             | None => attr_of d parent name
             end) ∧
    classes_of d' parent =
      match own_value attrs "class" with
      | Some v => parse_tokens v
      | None => classes_of d parent
      end.
Proof.
  intros Hp Hacc.
  destruct (set_attrs_ok parent attrs d Hp Hacc)
    as (d' & Hset & [e He] & Hother & Hch & Hattr & _ & Hcs & _).
  exists d'. split_and!; [|done..].
  unfold wrapInner. rewrite step_ret, (step_bind _ _ _ _ _ Hset).
  apply step_bind_throw. unfold appendChild. rewrite He.
  unfold contains. destruct (size d'); simpl;
    by rewrite bool_decide_eq_true_2.
Qed.

Lemma wrapInner_with_the_container_itself_witness :
  ∃ d', wrapInner 1 (ElementRef 1)
                  [Property "Title" "x" true; Property "class" "inner" true]
                  button_doc
          = Throw HierarchyRequestError d' ∧
        children_of d' 1 = [2; 3] ∧
        attr_of d' 1 "title" = Some "x" ∧
        classes_of d' 1 = ["inner"].
Proof.
  destruct (wrapInner_with_the_container_itself
              button_doc 1
              [Property "Title" "x" true; Property "class" "inner" true])
    as (d' & Hd' & Hch & _ & Hattr & Hcs).
  - by eexists.
  - by vm_compute.
  - exists d'. split_and!.
    + exact Hd'.
    + exact (Hch 1).
    + by apply (Hattr "title").
    + exact Hcs.
Defined.

(** X4.  Wrapping twice nests: in a well-formed document, for a parent that
    is an element, two tag names that [createElement] accepts and two
    objects whose own properties have names that [setAttribute] accepts,
    after two calls of [wrapInner] on the same parent the parent holds the
    second wrapper only, the second wrapper holds the first only, and the
    first still holds the original children in their order. *)
Theorem wrapInner_twice_nests d parent tag1 attrs1 tag2 attrs2 :
  well_formed d → is_Some (d !! parent) →
  valid_name tag1 = true → accepted_names attrs1 = true →
  valid_name tag2 = true → accepted_names attrs2 = true →
  ∃ d1 d2 w1 w2,
    wrapInner parent (TagName tag1) attrs1 d = Ok (parent, w1) d1 ∧
    wrapInner parent (TagName tag2) attrs2 d1 = Ok (parent, w2) d2 ∧
    w1 ≠ w2 ∧
    children_of d2 parent = [w2] ∧
    children_of d2 w2 = [w1] ∧
    children_of d2 w1 = children_of d parent ∧
    well_formed d2.
Proof.
  intros Hwf Hp Hv1 Hacc1 Hv2 Hacc2.
  destruct (wrapInner_new_element d parent tag1 attrs1 Hwf Hp Hv1 Hacc1)
    as (d1 & Hd1 & Hwf1 & Hp1 & Hw1 & Hk1 & Hsh1 & Hdw1 & _).
  assert (parent ≠ fresh_node d) as Hne1.
  { intros Heq. rewrite Heq, fresh_node_lookup in Hp. by destruct Hp. }
  assert (is_Some (d1 !! parent)) as Hp'.
  { pose proof (Hsh1 parent Hne1) as Hs. destruct Hp as [e He].
    rewrite He in Hs. destruct (d1 !! parent); [by eexists|done]. }
  destruct (wrapInner_new_element d1 parent tag2 attrs2 Hwf1 Hp' Hv2 Hacc2)
    as (d2 & Hd2 & Hwf2 & Hp2 & Hw2 & Hk2 & Hsh2 & Hdw2 & _).
  assert (fresh_node d ≠ fresh_node d1) as Hne.
  { intros Heq. rewrite Heq, fresh_node_lookup in Hdw1. by destruct Hdw1. }
  exists d1, d2, (fresh_node d), (fresh_node d1). split_and!; [done..| | |done].
  - by rewrite Hw2, Hp1.
  - rewrite Hk2 by done. done.
Qed.

Lemma wrapInner_twice_nests_witness :
  ∃ d1 d2 w1 w2,
    wrapInner 1 (TagName "span") [] button_doc = Ok (1, w1) d1 ∧
    wrapInner 1 (TagName "em") [] d1 = Ok (1, w2) d2 ∧
    w1 ≠ w2 ∧
    children_of d2 1 = [w2] ∧
    children_of d2 w2 = [w1] ∧
    children_of d2 w1 = children_of button_doc 1 ∧
    well_formed d2.
Proof.
  apply (wrapInner_twice_nests button_doc 1 "span" [] "em" []).
  - exact button_doc_well_formed.
  - by eexists.
  - by vm_compute.
  - reflexivity.
  - by vm_compute.
  - reflexivity.
Defined.

End wrap_inner_more.

(** ** What no call changes: the registry and the parameters *)

Section settled_facts.
Implicit Types (w : world) (c : closure) (i : inst_id) (d : document).

Ltac settled_step :=
  lazymatch goal with
  | |- keeps _ (mret _) => apply keeps_ret
  | |- keeps _ (ret _) => apply keeps_ret
  | |- keeps _ (throw _) => apply keeps_throw
  | |- keeps _ (var _ _) => apply keeps_var
  | |- keeps _ (split _) => apply keeps_split
  | |- keeps _ get => apply keeps_get
  | |- keeps _ (dom _) => apply keeps_dom; intros; by apply settled_doc
  | |- keeps _ (on_wrapper _ _) =>
      apply keeps_on_wrapper; intros; by apply settled_doc
  | |- keeps _ (assign _ _) =>
      apply triple_assign; intros; by apply settled_assign
  | |- keeps _ (mbind _ _) => apply keeps_bind; [|intros ?]
  | |- keeps _ (bind _ _) => apply keeps_bind; [|intros ?]
  | |- keeps _ (or_else _ _) => unfold or_else
  | |- keeps _ (fmap _ _) => unfold fmap, M_fmap
  | |- keeps _ (if _ then _ else _) => apply keeps_if
  | |- keeps _ (match ?x with _ => _ end) => destruct x
  end.

Ltac settled_steps := repeat settled_step.

Lemma destroy_settled P i : settled P → keeps P (destroy i).
Proof. intros HP. unfold destroy. settled_steps. Qed.

Lemma init_settled P i : settled P → keeps P (init i).
Proof.
  intros HP. unfold init. settled_steps. by apply destroy_settled.
Qed.

Section methods.
Variable observers : event → list script.
Variable invoke : inst_id → method → M world unit.
Variable P : world → Prop.
Hypothesis P_settled : settled P.
Hypothesis invoke_keeps : ∀ i m, keeps P (invoke i m).
Hypothesis statefulBtn_keeps : ∀ b text cls, keeps P (statefulBtn b text cls).

Lemma keeps_page_settled {A} (m : M world A) :
  keeps P m → keeps (λ st : world * bool, P st.1) (page m).
Proof.
  intros Hm [w p] Hw. specialize (Hm w Hw). unfold page. simpl.
  by destruct (m w).
Qed.

Lemma run_script_settled s :
  keeps (λ st : world * bool, P st.1) (run_script invoke s).
Proof.
  induction s as [|k IH|i m k IH|b text cls k IH|f k IH|body IHb k IH|k IH];
    simpl.
  - apply keeps_ret.
  - apply keeps_bind; [by apply keeps_modify|done].
  - apply keeps_bind; [by apply keeps_page_settled|done].
  - apply keeps_bind; [by apply keeps_page_settled|done].
  - apply keeps_bind; [|done].
    apply keeps_page_settled, keeps_dom. intros. by apply settled_doc.
  - apply keeps_bind; [|done].
    intros st Hst. specialize (IHb st Hst).
    by destruct (run_script invoke body st).
  - apply keeps_bind; [apply keeps_get|intros st; apply IH].
Qed.

Lemma dispatchEvent_settled target type detail :
  keeps P (dispatchEvent observers invoke target type detail).
Proof.
  intros w Hw. unfold dispatchEvent. cbv zeta.
  generalize (observers (Event target type detail)).
  assert (P (set_dispatched (λ l, l ++ [Event target type detail]) w, false).1)
    as Hst by by apply settled_dispatched.
  revert Hst. generalize (set_dispatched
                            (λ l, l ++ [Event target type detail]) w, false).
  intros st Hst l. revert st Hst.
  induction l as [|s l IH]; intros st Hst; simpl; [done|].
  apply IH. pose proof (run_script_settled s st Hst) as Hs.
  by destruct (run_script invoke s st).
Qed.

Lemma enableState_settled i : keeps P (enableState observers invoke i).
Proof.
  unfold enableState. pose proof dispatchEvent_settled.
  settled_steps; done.
Qed.

Lemma disableState_settled i : keeps P (disableState observers invoke i).
Proof.
  unfold disableState. pose proof dispatchEvent_settled.
  settled_steps; done.
Qed.

Lemma call_settled i m : keeps P (call observers invoke i m).
Proof.
  destruct m; simpl.
  - by apply init_settled.
  - by apply destroy_settled.
  - unfold toggle. settled_steps.
    + apply disableState_settled.
    + apply enableState_settled.
  - apply enableState_settled.
  - apply disableState_settled.
  - settled_steps.
  - settled_steps.
Qed.

End methods.

Lemma fmap_parameters_alter (f : closure → closure) i (l : list closure) :
  (∀ c, parameters (f c) = parameters c) →
  parameters <$> alter f i l = parameters <$> l.
Proof.
  intros Hf. apply list_eq. intros j. rewrite !list_lookup_fmap.
  destruct (decide (i = j)) as [<-|Hne].
  - rewrite list_lookup_alter_eq. destruct (l !! i); simpl; [|done].
    by rewrite Hf.
  - by rewrite list_lookup_alter_ne.
Qed.

Lemma grows_from_settled w0 : settled (grows_from w0).
Proof.
  split; [done| |done].
  intros w i f Hf [Hreg Hpar]. split; [done|]. simpl.
  by rewrite fmap_parameters_alter.
Qed.

Lemma grows_from_refl w : grows_from w w.
Proof. by split. Qed.

Lemma statefulBtn_grows w0 b text cls :
  keeps (grows_from w0) (statefulBtn b text cls).
Proof.
  intros w [Hreg Hpar]. unfold statefulBtn.
  rewrite (step_bind get _ w w w eq_refl). cbv zeta.
  rewrite (step_bind (modify _) _ w tt _ eq_refl).
  set (w1 := set_closures _ w).
  assert (grows_from w0 w1) as Hw1.
  { split; [done|]. simpl. rewrite fmap_app. by apply prefix_app_r. }
  pose proof (init_settled (grows_from w0) (length (closures w))
                (grows_from_settled w0) w1 Hw1) as Hinit.
  unfold_M. destruct (init (length (closures w)) w1) as [[] w2|]; [|done].
  destruct (bool_decide _); simpl; [done|].
  destruct Hinit as [Hreg2 Hpar2]. split; [|done]. simpl.
  by apply prefix_app_r.
Qed.

Lemma invoke_at_grows w0 observers depth i m :
  keeps (grows_from w0) (invoke_at depth observers i m).
Proof.
  revert i m. induction depth as [|depth IH]; intros i m; simpl.
  - apply keeps_throw.
  - apply call_settled;
      [apply grows_from_settled|done|apply statefulBtn_grows].
Qed.

Lemma run_grows observers depth s w : grows_from w (run depth observers s w).
Proof.
  unfold run.
  pose proof (run_script_settled (invoke_at depth observers) (grows_from w)
                (grows_from_settled w) (invoke_at_grows w observers depth)
                (statefulBtn_grows w) s (w, false) (grows_from_refl w)) as H.
  by destruct (run_script _ s (w, false)).
Qed.

(** An instance of [w0] is an instance of every page that grows from it,
    with the same button. *)
Lemma grows_from_lookup w0 w i c :
  grows_from w0 w → closures w0 !! i = Some c →
  ∃ c', closures w !! i = Some c' ∧ parameters c' = parameters c.
Proof.
  intros [_ [more Hpar]] Hc.
  assert ((parameters <$> closures w) !! i = Some (parameters c)) as Hi.
  { rewrite Hpar. apply lookup_app_l_Some. by rewrite list_lookup_fmap, Hc. }
  rewrite list_lookup_fmap in Hi.
  destruct (closures w !! i) as [c'|]; [|done].
  exists c'. split; [done|]. by apply (inj Some) in Hi.
Qed.

End settled_facts.

(** ** The example pages are well-formed *)

Section examples_more.
Implicit Types (d : document).

Lemma children_of_fmap_eq d d' :
  childNodes <$> d' = childNodes <$> d →
  ∀ k, children_of d' k = children_of d k.
Proof.
  intros H k. apply (f_equal (λ m, m !! k)) in H.
  rewrite !lookup_fmap in H. unfold children_of.
  destruct (d' !! k), (d !! k); simpl in H; by simplify_eq.
Qed.

Lemma busy_page_well_formed : well_formed (doc busy_page).
Proof.
  destruct (statefulBtn_run 1 Undefined (Str "busy") button_page
              (Element "button" {[ "data-in-state-text" := "Loading" ]}
                       ["o-btn"] [2; 3]) button_doc_well_formed)
    as (w' & Hnew & _ & _ & _ & Hwf & _); [by vm_compute|].
  unfold busy_page. by rewrite Hnew.
Qed.

Lemma active_page_well_formed : well_formed (doc active_page).
Proof.
  apply (well_formed_ext (doc busy_page)); [|apply busy_page_well_formed].
  apply children_of_fmap_eq. by vm_compute.
Qed.

End examples_more.

(** ** Further properties of the registry and of [getInstance] *)

Section registry_more.
Implicit Types (w : world) (c : closure) (i : inst_id) (d : document).

Lemma filter_ext_elem {A} (P Q : A → Prop) `{∀ x, Decision (P x)}
    `{∀ x, Decision (Q x)} (l : list A) :
  (∀ x, x ∈ l → P x ↔ Q x) → filter P l = filter Q l.
Proof.
  induction l as [|a l IH]; intros Hl; [done|].
  rewrite !filter_cons.
  pose proof (Hl a (list_elem_of_here _ _)) as Ha.
  rewrite IH by (intros x Hx; apply Hl; by right).
  destruct (decide (P a)), (decide (Q a)); naive_solver.
Qed.

Lemma has_target_grows w w' elem j :
  registry_ok w → grows_from w w' → j ∈ allInstances w →
  has_target w' elem j = has_target w elem j.
Proof.
  intros [_ Hlt] Hg Hj. rewrite Forall_forall in Hlt.
  destruct (lookup_lt_is_Some_2 _ _ (Hlt j Hj)) as [c Hc].
  destruct (grows_from_lookup w w' j c Hg Hc) as (c' & Hc' & Hpar).
  unfold has_target. rewrite Hc, Hc'.
  unfold parameters in Hpar. injection Hpar as Hb _ _. by rewrite Hb.
Qed.

Lemma getInstance_element getElementById n w :
  getInstance getElementById (RefElement n) w =
  Ok (head (filter (λ i, has_target w (Some (RefElement n)) i)
                   (allInstances w))) w.
Proof.
  unfold getInstance. vm_compute capture. cbv beta iota.
  rewrite step_ret. vm_compute bool_decide. cbv beta iota.
  by rewrite (step_bind get _ w w w eq_refl).
Qed.

Lemma filter_has_target_grows w w' elem :
  registry_ok w → grows_from w w' →
  ∃ more, allInstances w' = allInstances w ++ more ∧
    filter (λ i, has_target w' elem i) (allInstances w')
    = filter (λ i, has_target w elem i) (allInstances w) ++
      filter (λ i, has_target w' elem i) more.
Proof.
  intros Hok Hg. destruct Hg as [[more Hreg] Hpar].
  exists more. split; [done|]. rewrite Hreg, filter_app. f_equal.
  apply filter_ext_elem. intros j Hj.
  by rewrite (has_target_grows w w' elem j Hok (conj (ex_intro _ more Hreg) Hpar) Hj).
Qed.

(** X5.  Nothing is ever taken out of the registry and no parameter of an
    instance is ever reassigned: after every method call (by whatever
    listeners, at whatever depth, returning or throwing), every call of the
    factory and every script of them, the registry begins with the registry
    as it was, and the instances that existed still exist with the button,
    the label text argument and the class argument they were made with.  In
    particular [destroy] does not remove the instance from the registry. *)
Theorem registry_and_parameters_only_grow observers depth w :
  (∀ i m, grows_from w (final_state (invoke_at depth observers i m w))) ∧
  (∀ b text cls, grows_from w (final_state (statefulBtn b text cls w))) ∧
  (∀ s, grows_from w (run depth observers s w)).
Proof.
  split_and!.
  - intros i m.
    pose proof (invoke_at_grows w observers depth i m w (grows_from_refl w))
      as H.
    by destruct (invoke_at depth observers i m w).
  - intros b text cls.
    pose proof (statefulBtn_grows w b text cls w (grows_from_refl w)) as H.
    by destruct (statefulBtn b text cls w).
  - intros s. apply run_grows.
Qed.

(** X6.  Once [getInstance] returns an instance for an element, it returns
    that instance for that element for good: on a page whose registry lists
    existing instances, whatever script of factory and method calls runs
    afterwards ([destroy] of that very instance included), the lookup of the
    element gives the same instance. *)
Theorem getInstance_result_is_permanent getElementById observers depth s w n j :
  registry_ok w →
  getInstance getElementById (RefElement n) w = Ok (Some j) w →
  getInstance getElementById (RefElement n) (run depth observers s w)
  = Ok (Some j) (run depth observers s w).
Proof.
  intros Hok. rewrite !getInstance_element. intros [= Hj]. f_equal.
  destruct (filter_has_target_grows w (run depth observers s w)
              (Some (RefElement n)) Hok (run_grows observers depth s w))
    as (more & _ & ->).
  destruct (filter _ (allInstances w)); [done|]. done.
Qed.

Lemma getInstance_result_is_permanent_witness :
  getInstance (λ _ _, None) (RefElement 1)
              (run 1 no_observers (SCall 0 Destroy SDone) busy_page)
  = Ok (Some 0) (run 1 no_observers (SCall 0 Destroy SDone) busy_page).
Proof.
  apply (getInstance_result_is_permanent
           (λ _ _, None) no_observers 1 (SCall 0 Destroy SDone) busy_page 1 0).
  - split.
    + apply (bool_decide_unpack (NoDup (allInstances busy_page))).
      by vm_compute.
    + apply (bool_decide_unpack
               (Forall (λ i, i < length (closures busy_page))
                       (allInstances busy_page))).
      by vm_compute.
  - by vm_compute.
Defined.

(** X7.  The factory registers what [getInstance] finds: on a page whose
    registry lists existing instances, with a well-formed document and a
    button that is an element, [statefulBtn(btn)] returns a new instance,
    and [getInstance(btn)] then returns the instance that it returned for
    the button before the call if there was one (the older instance shadows
    the new one), and the new instance otherwise. *)
Theorem getInstance_after_statefulBtn getElementById b text cls w e :
  registry_ok w → well_formed (doc w) → doc w !! b = Some e →
  ∃ w' earlier,
    statefulBtn b text cls w = Ok (length (closures w)) w' ∧
    getInstance getElementById (RefElement b) w = Ok earlier w ∧
    getInstance getElementById (RefElement b) w'
    = Ok (Some (default (length (closures w)) earlier)) w'.
Proof.
  intros Hok Hwf He.
  destruct (statefulBtn_run b text cls w e Hwf He)
    as (w' & Hnew & Hcs & Hreg & _).
  pose proof (statefulBtn_grows w b text cls w (grows_from_refl w)) as Hg.
  rewrite Hnew in Hg.
  assert (length (closures w) ∉ allInstances w) as Hfresh.
  { intros Hin. destruct Hok as [_ Hlt]. rewrite Forall_forall in Hlt.
    apply Hlt in Hin. lia. }
  rewrite bool_decide_eq_false_2 in Hreg by done.
  exists w', (head (filter (λ i, has_target w (Some (RefElement b)) i)
                           (allInstances w))).
  split_and!; [done|apply getInstance_element|].
  rewrite getInstance_element. f_equal.
  destruct (filter_has_target_grows w w' (Some (RefElement b)) Hok Hg)
    as (more & Hmore & ->).
  rewrite Hreg in Hmore. apply app_inv_head in Hmore. subst more.
  destruct (filter _ (allInstances w)) as [|j l]; [|done]. simpl.
  rewrite filter_cons_True; [done|].
  apply Is_true_true, has_target_spec. eexists. split.
  - rewrite Hcs. by rewrite lookup_app_r, Nat.sub_diag.
  - done.
Qed.

Lemma getInstance_after_statefulBtn_witness :
  ∃ w' earlier,
    statefulBtn 1 Undefined (Str "busy") button_page = Ok 0 w' ∧
    getInstance (λ _ _, None) (RefElement 1) button_page
    = Ok earlier button_page ∧
    getInstance (λ _ _, None) (RefElement 1) w'
    = Ok (Some (default 0 earlier)) w'.
Proof.
  eapply (getInstance_after_statefulBtn
            (λ _ _, None) 1 Undefined (Str "busy") button_page).
  - split; [apply NoDup_nil_2|apply Forall_nil_2].
  - exact button_doc_well_formed.
  - vm_compute. reflexivity.
Defined.

End registry_more.

(** ** Further properties of [init], [destroy] and the factory *)

Section lifecycle_more.
Implicit Types (w : world) (c : closure) (i : inst_id) (d : document).

(** The steps that touch neither the event log nor the registry. *)
Ltac quiet_step :=
  lazymatch goal with
  | |- keeps _ (mret _) => apply keeps_ret
  | |- keeps _ (ret _) => apply keeps_ret
  | |- keeps _ (throw _) => apply keeps_throw
  | |- keeps _ (var _ _) => apply keeps_var
  | |- keeps _ (split _) => apply keeps_split
  | |- keeps _ get => apply keeps_get
  | |- keeps _ (dom _) => apply keeps_dom; intros ? ? H; exact H
  | |- keeps _ (on_wrapper _ _) =>
      apply keeps_on_wrapper; intros ? ? H; exact H
  | |- keeps _ (assign _ _) => apply triple_assign; intros ? H; exact H
  | |- keeps _ (mbind _ _) => apply keeps_bind; [|intros ?]
  | |- keeps _ (bind _ _) => apply keeps_bind; [|intros ?]
  | |- keeps _ (or_else _ _) => unfold or_else
  | |- keeps _ (fmap _ _) => unfold fmap, M_fmap
  | |- keeps _ (if _ then _ else _) => apply keeps_if
  | |- keeps _ (match ?x with _ => _ end) => destruct x
  end.

Lemma destroy_quiet (l : list event) (r : list inst_id) i :
  keeps (λ w, dispatched w = l ∧ allInstances w = r) (destroy i).
Proof. unfold destroy. repeat quiet_step. Qed.

Lemma init_quiet (l : list event) (r : list inst_id) i :
  keeps (λ w, dispatched w = l ∧ allInstances w = r) (init i).
Proof. unfold init. repeat quiet_step. apply destroy_quiet. Qed.

Lemma setter_quiet (l : list event) (r : list inst_id) i f :
  keeps (λ w, dispatched w = l ∧ allInstances w = r)
        (var i btn ;; assign i f).
Proof. repeat quiet_step. Qed.

(** X8.  Setting up and tearing down are silent: [init] (a
    re-initialization included), [destroy] and the two setters dispatch no
    event and leave the registry as it is, whether they return or throw; the
    factory dispatches no event either, and when it throws it has registered
    nothing. *)
Theorem setup_and_teardown_are_silent observers invoke w :
  (∀ i m, m ≠ Toggle → m ≠ EnableState → m ≠ DisableState →
          dispatched (final_state (call observers invoke i m w))
          = dispatched w ∧
          allInstances (final_state (call observers invoke i m w))
          = allInstances w) ∧
  (∀ b text cls,
     dispatched (final_state (statefulBtn b text cls w)) = dispatched w ∧
     (returned (statefulBtn b text cls w) = None →
      allInstances (final_state (statefulBtn b text cls w))
      = allInstances w)).
Proof.
  split.
  - intros i m H1 H2 H3.
    assert (keeps (λ w', dispatched w' = dispatched w ∧
                         allInstances w' = allInstances w)
                  (call observers invoke i m)) as Hk.
    { destruct m; try done; simpl;
        [apply init_quiet|apply destroy_quiet|apply setter_quiet..]. }
    specialize (Hk w (conj eq_refl eq_refl)).
    by destruct (call observers invoke i m w).
  - intros b text cls. unfold statefulBtn.
    rewrite (step_bind get _ w w w eq_refl). cbv zeta.
    rewrite (step_bind (modify _) _ w tt _ eq_refl).
    set (w1 := set_closures _ w).
    pose proof (init_quiet (dispatched w) (allInstances w)
                  (length (closures w)) w1 (conj eq_refl eq_refl)) as Hi.
    unfold_M.
    destruct (init (length (closures w)) w1) as [[] w2|x w2]; simpl.
    + destruct Hi as [Hev Hreg]. by destruct (bool_decide _).
    + by destruct Hi.
Qed.

Lemma setup_and_teardown_are_silent_witness :
  dispatched (final_state (call no_observers (invoke_at 0 no_observers)
                                0 Destroy busy_page))
  = dispatched busy_page ∧
  allInstances (final_state (call no_observers (invoke_at 0 no_observers)
                                  0 Destroy busy_page))
  = allInstances busy_page.
Proof.
  by apply (proj1 (setup_and_teardown_are_silent
                     no_observers (invoke_at 0 no_observers) busy_page)
                  0 Destroy).
Defined.

(** X9.  After a [destroy] that returned, the instance is idle: a second
    [destroy], [enableState], [disableState] and [toggle] all return at once,
    change nothing and dispatch no event, whatever listeners there are. *)
Theorem after_destroy_the_instance_is_idle observers invoke i w c w' :
  closures w !! i = Some c → destroy i w = Ok tt w' →
  destroy i w' = Ok tt w' ∧
  enableState observers invoke i w' = Ok tt w' ∧
  disableState observers invoke i w' = Ok tt w' ∧
  toggle observers invoke i w' = Ok tt w'.
Proof.
  intros Hc Hd.
  destruct (destroy_Ok_keeps i w c w' "" Hc Hd)
    as [(c' & Hc' & _ & _ & _ & Hinit) _]; [done..|].
  unfold destroy, enableState, disableState, toggle.
  rewrite !(step_var i isInit _ w' c' Hc'), Hinit. done.
Qed.

Lemma after_destroy_the_instance_is_idle_witness :
  ∃ w', destroy 0 busy_page = Ok tt w' ∧
        destroy 0 w' = Ok tt w' ∧
        enableState no_observers (invoke_at 1 no_observers) 0 w' = Ok tt w' ∧
        disableState no_observers (invoke_at 1 no_observers) 0 w' = Ok tt w' ∧
        toggle no_observers (invoke_at 1 no_observers) 0 w' = Ok tt w'.
Proof.
  assert (destroy 0 busy_page = Ok tt (final_state (destroy 0 busy_page)))
    as Hd by by vm_compute.
  exists (final_state (destroy 0 busy_page)). split; [exact Hd|].
  eapply (after_destroy_the_instance_is_idle
            no_observers (invoke_at 1 no_observers) 0 busy_page).
  - vm_compute. reflexivity.
  - exact Hd.
Defined.

End lifecycle_more.

(** ** [destroy] and [init], one after the other *)

Section round_trip.
Implicit Types (w : world) (c : closure) (i : inst_id) (d : document).

Lemma lookup_ext d d' k :
  shell <$> d' !! k = shell <$> d !! k →
  children_of d' k = children_of d k → d' !! k = d !! k.
Proof.
  unfold children_of, shell.
  destruct (d' !! k) as [[]|], (d !! k) as [[]|]; simpl; intros; by simplify_eq.
Qed.

Lemma removeAttribute_lookup_ne n nm d a d' k :
  removeAttribute n nm d = Ok a d' → k ≠ n → d' !! k = d !! k.
Proof.
  unfold removeAttribute. destruct (d !! n); [|done].
  intros [= _ <-] Hne. by rewrite lookup_insert_ne.
Qed.

Lemma classList_remove_lookup_ne n tokens d a d' k :
  classList_remove n tokens d = Ok a d' → k ≠ n → d' !! k = d !! k.
Proof.
  unfold classList_remove. destruct (d !! n); [|done].
  destruct (validate_tokens tokens); [done|].
  intros [= _ <-] Hne. by rewrite lookup_insert_ne.
Qed.

(** The loop of [destroy] ends when the wrapper has no child left. *)
Lemma unwrap_Ok_empty fuel b n :
  ∀ d d', unwrap fuel b n d = Ok tt d' → children_of d' n = [].
Proof.
  induction fuel as [|fuel IH]; intros d d'; simpl; [done|].
  unfold_M. unfold firstChild, children_of.
  destruct (d !! n) as [e|] eqn:He; [|done].
  destruct (head (childNodes e)) as [c|] eqn:Hhead.
  - destruct (insertBefore b (Some c) n d) as [[] d1|]; [|done]. apply IH.
  - intros [= <-]. rewrite He. by destruct (childNodes e).
Qed.

(** What a [destroy] that returns has done to the nodes other than the
    button, for an initialized instance around the wrapper [wr]. *)
Lemma destroy_Ok_frame i w c wr w' :
  closures w !! i = Some c → isInit c = true → wrapper c = Some wr →
  destroy i w = Ok tt w' →
  (∀ k, k ≠ btn c → shell <$> doc w' !! k = shell <$> doc w !! k) ∧
  children_of (doc w') wr = [] ∧
  (∀ k, wr ∉ children_of (doc w') k).
Proof.
  intros Hc Hinit Hwr Hd. unfold destroy in Hd.
  rewrite (step_var i isInit _ w c Hc), Hinit in Hd. cbv beta iota in Hd.
  rewrite (step_var i btn _ w c Hc) in Hd.
  apply bind_Ok_inv in Hd as ([] & w1 & (d1 & H1 & ->)%dom_Ok_inv & Hd).
  apply bind_Ok_inv in Hd as ([] & w2 & (d2 & H2 & ->)%dom_Ok_inv & Hd).
  simpl in H2.
  apply bind_Ok_inv in Hd as (cls & w3 & [-> _]%var_Ok_inv & Hd).
  apply bind_Ok_inv in Hd as (tokens & w3 & Hsplit & Hd).
  assert (w3 = set_doc (λ _, d2) (set_doc (λ _, d1) w)) as ->.
  { destruct cls; simpl in Hsplit; [done..|]. by injection Hsplit as _ <-. }
  apply bind_Ok_inv in Hd as ([] & w4 & (d3 & H3 & ->)%dom_Ok_inv & Hd).
  simpl in H3.
  apply bind_Ok_inv in Hd as (wr' & w5 & [-> (c' & Hc' & ->)]%var_Ok_inv & Hd).
  simpl in Hc'. rewrite Hc in Hc'. injection Hc' as <-. rewrite Hwr in Hd.
  unfold on_wrapper in Hd.
  apply bind_Ok_inv in Hd as ([] & w5 & (d4 & H4 & ->)%dom_Ok_inv & Hd).
  apply bind_Ok_inv in Hd as ([] & w6 & (d5 & H5 & ->)%dom_Ok_inv & Hd).
  simpl in H5. rewrite !step_assign in Hd. unfold assign, modify in Hd.
  injection Hd as <-. simpl.
  assert (same_shells d3 d4) as Hs4
    by exact (same_shells_unwrap_all (btn c) wr d3 tt d4 H4).
  assert (children_of d4 wr = []) as Hempty.
  { apply (unwrap_Ok_empty (S (length (children_of d3 wr))) (btn c) wr d3).
    exact H4. }
  unfold removeChild in H5. destruct (d4 !! btn c); [|done].
  destruct (bool_decide _); [|done]. injection H5 as <-.
  split_and!.
  - intros k Hk. rewrite lookup_detach, <-option_fmap_compose.
    change (shell ∘ set_childNodes (filter (λ x : nat, x ≠ wr))) with shell.
    rewrite (Hs4 k).
    rewrite (classList_remove_lookup_ne _ _ _ _ _ _ H3 Hk).
    rewrite (removeAttribute_lookup_ne _ _ _ _ _ _ H2 Hk).
    by rewrite (removeAttribute_lookup_ne _ _ _ _ _ _ H1 Hk).
  - by rewrite children_of_detach, Hempty.
  - intros k. rewrite children_of_detach, list_elem_of_filter. naive_solver.
Qed.

(** X10.  [destroy] on an initialized instance, active or not, under these
    premises: the class names of the instance are a string whose pieces
    between single spaces are tokens that [classList] accepts (none empty,
    none with whitespace); the document is well-formed; the button and the
    wrapper of the instance are elements; the wrapper is a child of the
    button.  Then [destroy] returns; the children of the wrapper are
    children of the button again, in their order and at the place of the
    wrapper; the wrapper is left without children and is a child of no
    node, and keeps its tag, attributes ([aria-hidden] included) and class
    tokens; [aria-live], [aria-label] and the class tokens among the class
    names are gone from the button; every other node is exactly as it was,
    and the document is well-formed.  The instance is not initialized, not
    active and has no wrapper; it is still in the registry, and no event
    was dispatched. *)
Theorem destroy_unwraps_and_resets i w c e s wr pre post :
  closures w !! i = Some c → isInit c = true → wrapper c = Some wr →
  inStateClassName c = Str s → validate_tokens (split_space s) = None →
  well_formed (doc w) → doc w !! btn c = Some e → is_Some (doc w !! wr) →
  children_of (doc w) (btn c) = pre ++ wr :: post →
  ∃ w' e',
    destroy i w = Ok tt w' ∧
    closures w' =
      <[i := set_isInState false (set_isInit false (set_wrapper None c))]>
        (closures w) ∧
    allInstances w' = allInstances w ∧ dispatched w' = dispatched w ∧
    doc w' !! btn c = Some e' ∧
    childNodes e' = pre ++ children_of (doc w) wr ++ post ∧
    attributes e' = delete "aria-label" (delete "aria-live" (attributes e)) ∧
    classList e' = filter (λ t, t ∉ split_space s) (classList e) ∧
    children_of (doc w') wr = [] ∧
    (∀ k, wr ∉ children_of (doc w') k) ∧
    shell <$> doc w' !! wr = shell <$> doc w !! wr ∧
    (∀ k, k ≠ btn c → k ≠ wr → doc w' !! k = doc w !! k) ∧
    well_formed (doc w').
Proof.
  intros Hc Hinit Hwr Hcls Hvalid Hwf He Hw Hb.
  destruct (destroy_run i w c e s wr pre post)
    as (w' & Hd & Hcs & Hreg & Hev & Hwf' & Hb' & Hk' & Hlive & Hlabel
        & Hother & Hcl); try done.
  destruct (destroy_Ok_frame i w c wr w' Hc Hinit Hwr Hd)
    as (Hsh & Hwr' & Hdet).
  assert (wr ≠ btn c) as Hne.
  { intros Heq. apply (wf_acyclic (doc w) Hwf (btn c) wr).
    - unfold child_of. rewrite Hb. set_solver.
    - rewrite Heq. constructor. }
  assert (is_Some (doc w' !! btn c)) as [e' He'].
  { destruct (doc w' !! btn c); [by eexists|done]. }
  exists w', e'. split_and!; try done.
  - unfold children_of in Hb'. by rewrite He' in Hb'.
  - apply map_eq. intros name. unfold attr_of in *.
    rewrite He' in Hlive, Hlabel, Hother. simpl in *.
    destruct (decide (name = "aria-label")) as [->|Hn1].
    { by rewrite lookup_delete_eq. }
    rewrite lookup_delete_ne by done.
    destruct (decide (name = "aria-live")) as [->|Hn2].
    { by rewrite lookup_delete_eq. }
    rewrite lookup_delete_ne by done. by apply Hother.
  - rewrite He' in Hcl. simpl in Hcl. by injection Hcl.
  - by apply Hsh.
  - intros k Hkb Hkw. apply lookup_ext; [by apply Hsh|by apply Hk'].
Qed.

Lemma destroy_unwraps_and_resets_witness :
  ∃ w' e',
    destroy 0 active_page = Ok tt w' ∧
    isInState <$> closures active_page !! 0 = Some true ∧
    isInState <$> closures w' !! 0 = Some false ∧
    doc w' !! 1 = Some e' ∧
    childNodes e' = [2; 3] ∧
    classList e' = ["o-btn"] ∧
    attr_of (doc w') 4 "aria-hidden" = Some "true" ∧
    dispatched w' = dispatched active_page.
Proof.
  destruct (destroy_unwraps_and_resets
              0 active_page
              (Closure 1 Undefined (Str "busy") true true
                       (Str "Loading") (Str "busy") (Some 4))
              (Element "button"
                       {[ "data-in-state-text" := "Loading";
                          "aria-live" := "polite";
                          "aria-label" := "Loading" ]}
                       ["o-btn"; "busy"] [4])
              "busy" 4 [] [])
    as (w' & e' & Hd & Hcs & _ & Hev & He' & Hch & _ & Hcl & _ & _ & Hsh & _).
  - vm_compute. reflexivity.
  - reflexivity.
  - reflexivity.
  - reflexivity.
  - by vm_compute.
  - exact active_page_well_formed.
  - vm_compute. reflexivity.
  - eexists. vm_compute. reflexivity.
  - by vm_compute.
  - exists w', e'. split_and!.
    + exact Hd.
    + by vm_compute.
    + rewrite Hcs. by vm_compute.
    + exact He'.
    + rewrite Hch. by vm_compute.
    + rewrite Hcl. by vm_compute.
    + assert (shell <$> doc w' !! 4
              = Some ("span", {[ "aria-hidden" := "true" ]}, [])) as H.
      { rewrite Hsh. vm_compute. reflexivity. }
      unfold attr_of. destruct (doc w' !! 4) as [ew|]; [|discriminate H].
      unfold shell in H. simpl in H. injection H as _ Hattr _.
      simpl. rewrite Hattr. by vm_compute.
    + exact Hev.
Defined.

Lemma statefulBtn_frame b text cls w e w' :
  well_formed (doc w) → doc w !! b = Some e →
  statefulBtn b text cls w = Ok (length (closures w)) w' →
  ∀ k, k ≠ b → k ≠ fresh_node (doc w) → doc w' !! k = doc w !! k.
Proof.
  intros Hwf He. unfold statefulBtn.
  rewrite (step_bind get _ w w w eq_refl). cbv zeta.
  rewrite (step_bind (modify _) _ w tt _ eq_refl).
  set (c0 := Closure b text cls false false Undefined Undefined None).
  set (w1 := set_closures (λ cs, cs ++ [c0]) w).
  assert (closures w1 !! length (closures w) = Some c0) as Hc0.
  { unfold w1. simpl. by rewrite lookup_app_r, Nat.sub_diag. }
  destruct (init_uninitialized (length (closures w)) w1 c0 e Hc0)
    as (d' & e' & Hd' & Hwf' & Hp' & Hw' & Hk' & Hsh' & Hdw & He' & Hshe & Hi);
    [done..|].
  simpl in *. rewrite (step_bind _ _ _ _ _ Hi).
  rewrite (step_bind get _ _ _ _ eq_refl). simpl.
  intros Hnew k Hkb Hkf.
  assert (doc w' = <[b := set_attributes (<["aria-live" := "polite"]>) e']> d')
    as ->.
  { destruct (bool_decide _); unfold_M; by injection Hnew as <-. }
  rewrite lookup_insert_ne by done.
  apply lookup_ext; [by apply Hsh'|by apply Hk'].
Qed.

(** X11.  The factory and then [destroy], with class names that
    [classList] accepts, on a well-formed document and a button that is an
    element: both return; every node of the document other than the button
    is exactly as it was before the factory was called, the button has its
    children back in their order, and the wrapper that was created is left
    without children and is a child of no node.  The round trip is not the
    identity on the button: [aria-live] and [aria-label] are gone even if
    the button had them before, and so are the class tokens that are among
    the class names; the other attributes and class tokens are as they
    were.  No event was dispatched. *)
Theorem statefulBtn_then_destroy_round_trip b text cls w e s :
  well_formed (doc w) → doc w !! b = Some e →
  resolved cls (attributes e !! "data-in-state-class") = Str s →
  validate_tokens (split_space s) = None →
  ∃ w1 w2 e2,
    statefulBtn b text cls w = Ok (length (closures w)) w1 ∧
    destroy (length (closures w)) w1 = Ok tt w2 ∧
    (∀ k, k ≠ b → k ≠ fresh_node (doc w) → doc w2 !! k = doc w !! k) ∧
    children_of (doc w2) (fresh_node (doc w)) = [] ∧
    (∀ k, fresh_node (doc w) ∉ children_of (doc w2) k) ∧
    doc w2 !! b = Some e2 ∧
    childNodes e2 = childNodes e ∧
    attributes e2 = delete "aria-label" (delete "aria-live" (attributes e)) ∧
    classList e2 = filter (λ t, t ∉ split_space s) (classList e) ∧
    dispatched w2 = dispatched w.
Proof.
  intros Hwf He Hcls Hvalid.
  destruct (statefulBtn_run b text cls w e Hwf He)
    as (w1 & Hnew & Hcs & _ & Hev1 & Hwf1 & Hb1 & Hw1 & Hfresh & Hattr & Hcl1).
  pose proof (statefulBtn_frame b text cls w e w1 Hwf He Hnew) as Hframe.
  set (wr := fresh_node (doc w)) in *.
  set (c1 := initialized_closure
               (Closure b text cls false false Undefined Undefined None) e
               wr) in Hcs.
  assert (closures w1 !! length (closures w) = Some c1) as Hc1.
  { rewrite Hcs. by rewrite lookup_app_r, Nat.sub_diag. }
  assert (is_Some (doc w1 !! b)) as [e1 He1].
  { apply (children_of_is_Some (doc w1) b wr). rewrite Hb1. set_solver. }
  assert (b ≠ wr) as Hne.
  { intros Heq. pose proof (fresh_node_lookup (doc w)) as Hf.
    fold wr in Hf. rewrite <-Heq, He in Hf. done. }
  destruct (destroy_run (length (closures w)) w1 c1 e1 s wr [] [])
    as (w2 & Hd & Hcs2 & _ & Hev2 & Hwf2 & Hb2 & Hk2 & Hlive & Hlabel
        & Hother & Hcl2); try done.
  destruct (destroy_Ok_frame (length (closures w)) w1 c1 wr w2 Hc1)
    as (Hsh2 & Hwr2 & Hdet); [done..|].
  simpl in Hb2, Hk2, Hsh2, Hlive, Hlabel, Hother, Hcl2.
  rewrite app_nil_r, Hw1 in Hb2.
  assert (is_Some (doc w2 !! b)) as [e2 He2].
  { destruct (doc w2 !! b); [by eexists|done]. }
  exists w1, w2, e2. split_and!; try done.
  - intros k Hkb Hkw. rewrite <-(Hframe k Hkb Hkw).
    apply lookup_ext; [by apply Hsh2|by apply Hk2].
  - unfold children_of in Hb2. rewrite He2, He in Hb2. done.
  - apply map_eq. intros name. unfold attr_of in *.
    rewrite He2 in Hlive, Hlabel, Hother. simpl in *.
    destruct (decide (name = "aria-label")) as [->|Hn1].
    { by rewrite lookup_delete_eq. }
    rewrite lookup_delete_ne by done.
    destruct (decide (name = "aria-live")) as [->|Hn2].
    { by rewrite lookup_delete_eq. }
    rewrite lookup_delete_ne by done.
    rewrite (Hother name Hn2 Hn1).
    specialize (Hattr name). rewrite He1 in Hattr. simpl in Hattr.
    rewrite Hattr. by rewrite bool_decide_eq_false_2.
  - rewrite He2 in Hcl2. simpl in Hcl2. injection Hcl2 as ->.
    rewrite He1 in Hcl1. simpl in Hcl1. by injection Hcl1 as ->.
  - by rewrite Hev2.
Qed.

Lemma statefulBtn_then_destroy_round_trip_witness :
  ∃ w1 w2,
    statefulBtn 1 Undefined (Str "busy") button_page = Ok 0 w1 ∧
    destroy 0 w1 = Ok tt w2 ∧
    doc w2 !! 2 = button_doc !! 2 ∧
    children_of (doc w2) 1 = [2; 3] ∧
    children_of (doc w2) 4 = [] ∧
    dispatched w2 = [].
Proof.
  destruct (statefulBtn_then_destroy_round_trip
              1 Undefined (Str "busy") button_page
              (Element "button" {[ "data-in-state-text" := "Loading" ]}
                       ["o-btn"] [2; 3]) "busy")
    as (w1 & w2 & e2 & Hnew & Hd & Hk & Hwr & _ & He2 & Hch & _ & _ & Hev).
  - exact button_doc_well_formed.
  - by vm_compute.
  - by vm_compute.
  - by vm_compute.
  - exists w1, w2. split_and!.
    + exact Hnew.
    + exact Hd.
    + apply (Hk 2); by vm_compute.
    + unfold children_of. by rewrite He2, Hch.
    + exact Hwr.
    + exact Hev.
Defined.

Lemma init_after_destroy i w c w1 c1 :
  closures w !! i = Some c → isInit c = true →
  destroy i w = Ok tt w1 →
  closures w1 !! i = Some c1 → isInit c1 = false →
  init i w = init i w1.
Proof.
  intros Hc Hinit Hd Hc1 Hinit1. unfold init.
  rewrite (step_var i isInit _ w c Hc), Hinit.
  rewrite (step_var i isInit _ w1 c1 Hc1), Hinit1. cbv beta iota.
  by rewrite (step_bind _ _ _ _ _ Hd), step_ret.
Qed.

(** X12.  [init] on an initialized instance, active or not, under these
    premises: the class names of the instance are a string whose pieces
    between single spaces are tokens that [classList] accepts (none empty,
    none with whitespace); the document is well-formed; the button and the
    wrapper of the instance are elements; the wrapper is a child of the
    button.  Then [init] returns; the content that the button had around
    and inside the old wrapper is inside a new wrapper, which is the only
    child of the button, and the old wrapper is a child of no node; the
    document is well-formed.  The instance is initialized and not active,
    whether or not it was active before: [aria-label] and the class tokens
    among the class names are gone from the button, [aria-live] is
    [polite], and no event was dispatched. *)
Theorem init_again_rewraps_and_deactivates i w c e s wr pre post :
  closures w !! i = Some c → isInit c = true → wrapper c = Some wr →
  inStateClassName c = Str s → validate_tokens (split_space s) = None →
  well_formed (doc w) → doc w !! btn c = Some e → is_Some (doc w !! wr) →
  children_of (doc w) (btn c) = pre ++ wr :: post →
  ∃ w' c' wr',
    init i w = Ok tt w' ∧
    closures w' !! i = Some c' ∧
    isInit c' = true ∧ isInState c' = false ∧
    wrapper c' = Some wr' ∧ wr' ≠ wr ∧
    children_of (doc w') (btn c) = [wr'] ∧
    children_of (doc w') wr' = pre ++ children_of (doc w) wr ++ post ∧
    (∀ k, wr ∉ children_of (doc w') k) ∧
    attr_of (doc w') (btn c) "aria-label" = None ∧
    attr_of (doc w') (btn c) "aria-live" = Some "polite" ∧
    classList <$> doc w' !! btn c
      = Some (filter (λ t, t ∉ split_space s) (classList e)) ∧
    dispatched w' = dispatched w ∧
    well_formed (doc w').
Proof.
  intros Hc Hinit Hwr Hcls Hvalid Hwf He Hw Hb.
  destruct (destroy_run i w c e s wr pre post)
    as (w1 & Hd & Hcs1 & _ & Hev1 & Hwf1 & Hb1 & Hk1 & Hlive1 & Hlabel1
        & Hother1 & Hcl1); try done.
  destruct (destroy_Ok_frame i w c wr w1 Hc Hinit Hwr Hd)
    as (Hsh1 & Hwr1 & Hdet1).
  set (c1 := set_isInState false (set_isInit false (set_wrapper None c)))
    in Hcs1.
  assert (closures w1 !! i = Some c1) as Hc1.
  { rewrite Hcs1. apply list_lookup_insert_eq. by eapply lookup_lt_Some. }
  assert (wr ≠ btn c) as Hne.
  { intros Heq. apply (wf_acyclic (doc w) Hwf (btn c) wr).
    - unfold child_of. rewrite Hb. set_solver.
    - rewrite Heq. constructor. }
  assert (is_Some (doc w1 !! btn c)) as [e1 He1].
  { destruct (doc w1 !! btn c); [by eexists|done]. }
  destruct (init_uninitialized i w1 c1 e1 Hc1)
    as (d' & e' & Hd' & Hwf' & Hp' & Hw' & Hk' & Hsh' & Hdw & He' & Hshe & Hi);
    [done..|].
  change (btn c1) with (btn c) in *.
  set (wr' := fresh_node (doc w1)) in *.
  assert (wr' ≠ wr) as Hfresh.
  { intros Heq. pose proof (fresh_node_lookup (doc w1)) as Hf.
    fold wr' in Hf. rewrite Heq in Hf.
    pose proof (Hsh1 wr Hne) as Hs. rewrite Hf in Hs.
    destruct Hw as [ew Hew]. by rewrite Hew in Hs. }
  set (d2 := <[btn c := set_attributes (<["aria-live" := "polite"]>) e']> d').
  assert (∀ k, children_of d2 k = children_of d' k) as Hch.
  { intros k. by apply (children_of_insert_shell _ _ e'). }
  unfold shell in Hshe. injection Hshe as Htag Hattr Hclass.
  exists (World d2 (<[i := initialized_closure c1 e1 wr']> (closures w1))
                (allInstances w1) (dispatched w1)),
         (initialized_closure c1 e1 wr'), wr'.
  split_and!; try done.
  - by rewrite (init_after_destroy i w c w1 c1).
  - simpl. apply list_lookup_insert_eq. by eapply lookup_lt_Some.
  - simpl. by rewrite Hch.
  - simpl. by rewrite Hch, Hw', Hb1.
  - intros k. simpl. rewrite Hch.
    destruct (decide (k = btn c)) as [->|Hkb].
    { rewrite Hp'. by intros ->%list_elem_of_singleton. }
    destruct (decide (k = wr')) as [->|Hkw].
    { rewrite Hw'. apply Hdet1. }
    rewrite Hk' by done. apply Hdet1.
  - simpl. unfold attr_of, d2. rewrite lookup_insert_eq. simpl.
    rewrite lookup_insert_ne by done. rewrite Hattr.
    unfold attr_of in Hlabel1. by rewrite He1 in Hlabel1.
  - simpl. unfold attr_of, d2. rewrite lookup_insert_eq. simpl.
    by rewrite lookup_insert_eq.
  - simpl. unfold d2. rewrite lookup_insert_eq. simpl. rewrite Hclass.
    by rewrite He1 in Hcl1.
  - simpl. by eapply well_formed_ext.
Qed.

Lemma init_again_rewraps_and_deactivates_witness :
  ∃ w' c' wr',
    init 0 active_page = Ok tt w' ∧
    closures w' !! 0 = Some c' ∧
    isInState <$> closures active_page !! 0 = Some true ∧
    isInit c' = true ∧ isInState c' = false ∧
    children_of (doc w') 1 = [wr'] ∧
    children_of (doc w') wr' = [2; 3] ∧
    attr_of (doc w') 1 "aria-label" = None ∧
    dispatched w' = dispatched active_page.
Proof.
  destruct (init_again_rewraps_and_deactivates
              0 active_page
              (Closure 1 Undefined (Str "busy") true true
                       (Str "Loading") (Str "busy") (Some 4))
              (Element "button"
                       {[ "data-in-state-text" := "Loading";
                          "aria-live" := "polite";
                          "aria-label" := "Loading" ]}
                       ["o-btn"; "busy"] [4])
              "busy" 4 [] [])
    as (w' & c' & wr' & Hi & Hc' & Hinit & Hst & _ & _ & Hb & Hw & _ & Hlabel
        & _ & _ & Hev & _).
  - vm_compute. reflexivity.
  - reflexivity.
  - reflexivity.
  - reflexivity.
  - by vm_compute.
  - exact active_page_well_formed.
  - vm_compute. reflexivity.
  - eexists. vm_compute. reflexivity.
  - by vm_compute.
  - exists w', c', wr'. split_and!.
    + exact Hi.
    + exact Hc'.
    + by vm_compute.
    + exact Hinit.
    + exact Hst.
    + exact Hb.
    + exact Hw.
    + exact Hlabel.
    + exact Hev.
Defined.

End round_trip.

(** ** Class names that [classList] rejects *)

Section rejected_class_names.
Implicit Types (w : world) (c : closure) (i : inst_id) (d : document).

Lemma classList_remove_rejected d n tokens e x :
  d !! n = Some e → validate_tokens tokens = Some x →
  classList_remove n tokens d = Throw x d.
Proof. intros He Hx. unfold classList_remove. by rewrite He, Hx. Qed.


(** X13.  [destroy] on an initialized instance whose class names are a
    string that [classList.remove] rejects (a string with an empty piece
    between, before or after its spaces, the empty string included, or with
    other white space): it throws the exception of [classList.remove].  By
    then it has removed [aria-live] and [aria-label] from the button;
    the class tokens, every child list, the variables of the instance (it is
    still initialized, the content still wrapped), the registry and the event
    log are as they were. *)
Theorem destroy_with_rejected_class_names w i c e s x :
  closures w !! i = Some c → isInit c = true → doc w !! btn c = Some e →
  inStateClassName c = Str s → validate_tokens (split_space s) = Some x →
  ∃ w' e',
    destroy i w = Throw x w' ∧
    closures w' = closures w ∧
    allInstances w' = allInstances w ∧
    dispatched w' = dispatched w ∧
    (∀ k, k ≠ btn c → doc w' !! k = doc w !! k) ∧
    doc w' !! btn c = Some e' ∧
    attributes e' = delete "aria-label" (delete "aria-live" (attributes e)) ∧
    classList e' = classList e ∧ childNodes e' = childNodes e.
Proof.
  intros Hc Hinit He Hcls Hx.
  set (e' := set_attributes (delete "aria-label")
               (set_attributes (delete "aria-live") e)).
  exists (set_doc (λ _, <[btn c := e']> (doc w)) w), e'.
  split_and!; try done.
  - unfold destroy.
    rewrite (step_var i isInit _ w c Hc), Hinit. cbv beta iota.
    rewrite (step_var i btn _ w c Hc).
    rewrite (step_dom _ _ w tt _ (removeAttribute_run _ _ "aria-live" e He)).
    set (w1 := set_doc _ w).
    assert (doc w1 !! btn c = Some (set_attributes (delete "aria-live") e))
      as He1 by apply lookup_insert_eq.
    rewrite (step_dom _ _ w1 tt _ (removeAttribute_run _ _ "aria-label" _ He1)).
    set (w2 := set_doc _ w1).
    rewrite (step_var i inStateClassName _ w2 c Hc), Hcls.
    unfold split. rewrite step_ret.
    assert (doc w2 !! btn c = Some e') as He2 by apply lookup_insert_eq.
    rewrite (step_dom_throw _ _ w2 _ _
               (classList_remove_rejected _ _ _ _ _ He2 Hx)).
    unfold w2, w1, set_doc. simpl. by rewrite insert_insert_eq.
  - intros k Hk. simpl. by rewrite lookup_insert_ne.
  - simpl. apply lookup_insert_eq.
Qed.

Lemma destroy_with_rejected_class_names_witness :
  ∃ w' e',
    destroy 0 blank_class_page = Throw SyntaxError w' ∧
    closures w' = closures blank_class_page ∧
    doc w' !! 1 = Some e' ∧
    attributes e' !! "aria-live" = None ∧
    childNodes e' = [4].
Proof.
  destruct (destroy_with_rejected_class_names
              blank_class_page 0
              (Closure 1 Undefined (Str "busy") false true
                       (Str "Loading") (Str "") (Some 4))
              (Element "button"
                       {[ "data-in-state-text" := "Loading";
                          "aria-live" := "polite" ]}
                       ["o-btn"] [4])
              "" SyntaxError)
    as (w' & e' & Hd & Hcs & _ & _ & _ & He' & Hattr & _ & Hch).
  - vm_compute. reflexivity.
  - reflexivity.
  - vm_compute. reflexivity.
  - reflexivity.
  - vm_compute. reflexivity.
  - exists w', e'. split_and!.
    + exact Hd.
    + exact Hcs.
    + exact He'.
    + rewrite Hattr. by vm_compute.
    + exact Hch.
Defined.

Section with_listeners.
Variable observers : event → list script.
Variable invoke : inst_id → method → M world unit.
Hypothesis observers_look : ∀ ev, Forall bystander (observers ev).



End with_listeners.



End rejected_class_names.

(** ** Further properties of [enableState], [disableState] and [toggle] *)

Section state_more.
Implicit Types (w : world) (c : closure) (i : inst_id) (d : document).

Lemma add_token_NoDup cl t : NoDup cl → NoDup (add_token cl t).
Proof.
  intros Hnd. unfold add_token. case_bool_decide as Ht; [done|].
  apply NoDup_app. split_and!; [done| |apply NoDup_singleton].
  by intros x Hx ->%list_elem_of_singleton.
Qed.

Lemma foldl_add_token_NoDup tokens :
  ∀ cl, NoDup cl → NoDup (foldl add_token cl tokens).
Proof.
  induction tokens as [|t tokens IH]; intros cl Hnd; simpl; [done|].
  by apply IH, add_token_NoDup.
Qed.

Lemma foldl_add_token_present tokens :
  ∀ cl, (∀ t, t ∈ tokens → t ∈ cl) → foldl add_token cl tokens = cl.
Proof.
  induction tokens as [|t tokens IH]; intros cl Hin; simpl; [done|].
  unfold add_token at 2. rewrite bool_decide_eq_true_2 by (apply Hin; by left).
  apply IH. intros t' Ht'. apply Hin. by right.
Qed.

Lemma enabled_button_twice text cls e :
  enabled_button text cls (enabled_button text cls e)
  = enabled_button text cls e.
Proof.
  unfold enabled_button. simpl. f_equal.
  - destruct text as [| |s]; try done. case_bool_decide; [done|].
    apply insert_insert_eq.
  - apply foldl_add_token_present. intros t Ht.
    apply foldl_add_token_elem. by right.
Qed.

(** X15.  What [enableState] does, for an initialized instance whose button
    and wrapper are elements, with class names that [classList] accepts and
    listeners that only look.  It returns with the instance active; the
    wrapper has [aria-hidden="true"]; the button has the label text as
    [aria-label] if the label text is a non-empty string, and its
    [aria-label] as it was otherwise; every other attribute of the button is
    as it was; the class tokens of the button are the ones it had, in their
    order, followed by the tokens of the class names that it did not have,
    none twice; every other node is as it was; the enable-before event, with
    the former active flag, and the enable-after event, with [true], were
    dispatched. *)
Theorem enableState_marks_button_and_wrapper observers invoke i w c e ew wr :
  (∀ ev, Forall bystander (observers ev)) →
  closures w !! i = Some c → isInit c = true → wrapper c = Some wr →
  doc w !! btn c = Some e → doc w !! wr = Some ew → wr ≠ btn c →
  accepted_classes (inStateClassName c) →
  ∃ w' e',
    enableState observers invoke i w = Ok tt w' ∧
    closures w' = <[i := set_isInState true c]> (closures w) ∧
    allInstances w' = allInstances w ∧
    dispatched w' =
      dispatched w ++
      [Event (btn c) "stateful-btn:enable-before" (isInState c);
       Event (btn c) "stateful-btn:enable-after" true] ∧
    doc w' !! wr = Some (set_attributes (<["aria-hidden" := "true"]>) ew) ∧
    (∀ k, k ≠ btn c → k ≠ wr → doc w' !! k = doc w !! k) ∧
    doc w' !! btn c = Some e' ∧
    attributes e' !! "aria-label" =
      match a11yText c with
      | Str s => if bool_decide (s = "") then attributes e !! "aria-label"
                 else Some s
      | _ => attributes e !! "aria-label"
      end ∧
    (∀ name, name ≠ "aria-label" →
             attributes e' !! name = attributes e !! name) ∧
    classList e `prefix_of` classList e' ∧
    (∀ t, t ∈ classList e' ↔
          t ∈ classList e ∨ t ∈ class_tokens (inStateClassName c)) ∧
    (NoDup (classList e) → NoDup (classList e')) ∧
    tagName e' = tagName e ∧ childNodes e' = childNodes e.
Proof.
  intros Hlook Hc Hinit Hwr He Hew Hne Hcls.
  pose proof (enableState_run observers invoke Hlook i w c e ew wr
                Hc Hinit Hwr He Hew Hne Hcls) as Hrun.
  eexists _, (enabled_button (a11yText c) (inStateClassName c) e).
  split; [exact Hrun|]. simpl. split_and!; try done.
  - by rewrite lookup_insert_ne, lookup_insert_eq.
  - intros k Hkb Hkw. by rewrite !lookup_insert_ne.
  - apply lookup_insert_eq.
  - destruct (a11yText c) as [| |s]; try done. case_bool_decide; [done|].
    apply lookup_insert_eq.
  - intros name Hname. destruct (a11yText c) as [| |s]; try done.
    case_bool_decide; [done|]. by apply lookup_insert_ne.
  - destruct (foldl_add_token_prefix (class_tokens (inStateClassName c))
                (classList e)) as (added & -> & _).
    by apply prefix_app_r.
  - intros t. apply foldl_add_token_elem.
  - apply foldl_add_token_NoDup.
Qed.

Lemma enableState_marks_button_and_wrapper_witness :
  ∃ w' e',
    enableState no_observers (invoke_at 1 no_observers) 0 busy_page
    = Ok tt w' ∧
    isInState <$> closures w' !! 0 = Some true ∧
    attr_of (doc w') 4 "aria-hidden" = Some "true" ∧
    doc w' !! 1 = Some e' ∧
    attributes e' !! "aria-label" = Some "Loading" ∧
    "busy" ∈ classList e'.
Proof.
  destruct (enableState_marks_button_and_wrapper
              no_observers (invoke_at 1 no_observers) 0 busy_page
              (Closure 1 Undefined (Str "busy") false true (Str "Loading")
                       (Str "busy") (Some 4))
              (Element "button"
                       {[ "data-in-state-text" := "Loading";
                          "aria-live" := "polite" ]}
                       ["o-btn"] [4])
              (Element "span" ∅ [] [2; 3]) 4)
    as (w' & e' & Hrun & Hcs & _ & _ & Hwr & _ & He' & Hlabel & _ & _ & Hcl
        & _).
  - intros ev. apply Forall_nil_2.
  - vm_compute. reflexivity.
  - reflexivity.
  - reflexivity.
  - vm_compute. reflexivity.
  - vm_compute. reflexivity.
  - by vm_compute.
  - intros _. vm_compute. reflexivity.
  - exists w', e'. split_and!.
    + exact Hrun.
    + rewrite Hcs. by vm_compute.
    + unfold attr_of. rewrite Hwr. by vm_compute.
    + exact He'.
    + exact Hlabel.
    + apply Hcl. right. by vm_compute; left.
Defined.

Section with_listeners.
Variable observers : event → list script.
Variable invoke : inst_id → method → M world unit.
Hypothesis observers_look : ∀ ev, Forall bystander (observers ev).

(** One [toggle()] flips the active flag and leaves the instance ready for
    the next one. *)
Lemma toggle_flips i w c e ew wr :
  closures w !! i = Some c → isInit c = true → wrapper c = Some wr →
  doc w !! btn c = Some e → doc w !! wr = Some ew → wr ≠ btn c →
  accepted_classes (inStateClassName c) →
  ∃ w' e' ew',
    toggle observers invoke i w = Ok tt w' ∧
    closures w' = <[i := set_isInState (negb (isInState c)) c]> (closures w) ∧
    doc w' !! btn c = Some e' ∧ doc w' !! wr = Some ew' ∧
    length (dispatched w') = length (dispatched w) + 2.
Proof.
  intros Hc Hinit Hwr He Hew Hne Hcls. unfold toggle.
  rewrite (step_var i isInit _ w c Hc), Hinit. cbv beta iota.
  rewrite (step_var i isInState _ w c Hc).
  destruct (isInState c) eqn:Hst; cbv beta iota.
  - rewrite (disableState_run observers invoke observers_look i w c e ew wr
               Hc Hinit Hwr He Hew Hne Hcls).
    eexists _, _, _. split; [done|]. simpl. split_and!; [done| | |].
    + by rewrite lookup_insert_ne, lookup_insert_eq.
    + apply lookup_insert_eq.
    + rewrite length_app. simpl. lia.
  - rewrite (enableState_run observers invoke observers_look i w c e ew wr
               Hc Hinit Hwr He Hew Hne Hcls).
    eexists _, _, _. split; [done|]. simpl. split_and!; [done| | |].
    + apply lookup_insert_eq.
    + by rewrite lookup_insert_ne, lookup_insert_eq.
    + rewrite length_app. simpl. lia.
Qed.

End with_listeners.

Lemma toggles_run observers depth i wr n :
  (∀ ev, Forall bystander (observers ev)) →
  ∀ w c e ew p,
    closures w !! i = Some c → isInit c = true → wrapper c = Some wr →
    doc w !! btn c = Some e → doc w !! wr = Some ew → wr ≠ btn c →
    accepted_classes (inStateClassName c) →
    ∃ w', run_script (invoke_at (S depth) observers) (toggles n i) (w, p)
          = Ok tt (w', p) ∧
      closures w' !! i
      = Some (set_isInState (xorb (isInState c) (Nat.odd n)) c) ∧
      length (dispatched w') = length (dispatched w) + 2 * n.
Proof.
  intros Hlook. induction n as [|n IH]; intros w c e ew p Hc Hinit Hwr He Hew
    Hne Hcls.
  - exists w. simpl. split_and!; [done| |lia].
    rewrite Hc. f_equal. destruct c as [? ? ? []]; done.
  - destruct (toggle_flips observers (invoke_at depth observers) Hlook
                i w c e ew wr Hc Hinit Hwr He Hew Hne Hcls)
      as (w1 & e1 & ew1 & Ht & Hcs1 & He1 & Hew1 & Hlen1).
    set (c1 := set_isInState (negb (isInState c)) c) in *.
    assert (closures w1 !! i = Some c1) as Hc1.
    { rewrite Hcs1. apply list_lookup_insert_eq. by eapply lookup_lt_Some. }
    destruct (IH w1 c1 e1 ew1 p Hc1 Hinit Hwr He1 Hew1 Hne Hcls)
      as (w' & Hrun & Hc' & Hlen').
    exists w'. split_and!.
    + change (run_script (invoke_at (S depth) observers)
                         (toggles (S n) i) (w, p))
        with ((page (toggle observers (invoke_at depth observers) i) ≫=
               λ _, run_script (invoke_at (S depth) observers)
                               (toggles n i)) (w, p)).
      assert (page (toggle observers (invoke_at depth observers) i) (w, p)
              = Ok tt (w1, p)) as Hp.
      { unfold page. simpl. by rewrite Ht. }
      by rewrite (step_bind _ _ _ _ _ Hp).
    + rewrite Hc'. f_equal. unfold c1, set_isInState. simpl. f_equal.
      rewrite Nat.odd_succ, <-Nat.negb_odd.
      by destruct (isInState c), (Nat.odd n).
    + lia.
Qed.

(** X16.  [toggle] alternates: for an initialized instance whose button and
    wrapper are elements, with class names that [classList] accepts and
    listeners that only look, [n] calls of [toggle()] in a row all return,
    the active flag is then its former value if [n] is even and the opposite
    one if [n] is odd, and each call has dispatched two events. *)
Theorem toggle_alternates observers depth n i w c e ew wr :
  (∀ ev, Forall bystander (observers ev)) →
  closures w !! i = Some c → isInit c = true → wrapper c = Some wr →
  doc w !! btn c = Some e → doc w !! wr = Some ew → wr ≠ btn c →
  accepted_classes (inStateClassName c) →
  isInState <$> closures (run (S depth) observers (toggles n i) w) !! i
  = Some (xorb (isInState c) (Nat.odd n)) ∧
  isInit <$> closures (run (S depth) observers (toggles n i) w) !! i
  = Some true ∧
  length (dispatched (run (S depth) observers (toggles n i) w))
  = length (dispatched w) + 2 * n.
Proof.
  intros Hlook Hc Hinit Hwr He Hew Hne Hcls.
  destruct (toggles_run observers depth i wr n Hlook w c e ew false
              Hc Hinit Hwr He Hew Hne Hcls) as (w' & Hrun & Hc' & Hlen).
  unfold run. rewrite Hrun. simpl. rewrite Hc'. simpl.
  by rewrite Hinit.
Qed.

Lemma toggle_alternates_witness :
  isInState <$> closures (run 1 no_observers (toggles 3 0) busy_page) !! 0
  = Some true ∧
  isInit <$> closures (run 1 no_observers (toggles 3 0) busy_page) !! 0
  = Some true ∧
  length (dispatched (run 1 no_observers (toggles 3 0) busy_page)) = 6.
Proof.
  apply (toggle_alternates
           no_observers 0 3 0 busy_page
           (Closure 1 Undefined (Str "busy") false true (Str "Loading")
                    (Str "busy") (Some 4))
           (Element "button"
                    {[ "data-in-state-text" := "Loading";
                       "aria-live" := "polite" ]}
                    ["o-btn"] [4])
           (Element "span" ∅ [] [2; 3]) 4).
  - intros ev. apply Forall_nil_2.
  - vm_compute. reflexivity.
  - reflexivity.
  - reflexivity.
  - vm_compute. reflexivity.
  - vm_compute. reflexivity.
  - by vm_compute.
  - intros _. vm_compute. reflexivity.
Defined.

End state_more.

(** ** The setters, repeated calls and listeners that call back *)

Section setters_more.
Implicit Types (w : world) (c : closure) (i : inst_id) (d : document).

(** X17.  The setters are not retroactive.  Premises: every listener of
    every event only looks at the page (it calls no method and vetoes
    nothing); the instance is initialized; its button and its wrapper are
    elements, and not the same node; the class names of the instance, and
    the class names that are assigned, are each falsy or a string whose
    pieces between single spaces are tokens that [classList] accepts.  Then
    [enableState()], the assignment of a label text, the assignment of
    class names and [disableState()] return one after the other; the two
    assignments change no node and dispatch no event; and [disableState]
    works with the new values only: if the new label text is falsy, the
    [aria-label] that [enableState] set stays on the button; a class token
    that [enableState] added and that is not among the new class names
    stays on the button; and a token among the new class names is removed
    although [enableState] did not add it.  The instance ends not
    active. *)
Theorem setters_are_not_retroactive observers invoke i w c e ew wr text' cls' :
  (∀ ev, Forall bystander (observers ev)) →
  closures w !! i = Some c → isInit c = true → wrapper c = Some wr →
  doc w !! btn c = Some e → doc w !! wr = Some ew → wr ≠ btn c →
  accepted_classes (inStateClassName c) → accepted_classes cls' →
  ∃ w1 w2 w3 w4 e4,
    enableState observers invoke i w = Ok tt w1 ∧
    call observers invoke i (SetA11yText text') w1 = Ok tt w2 ∧
    call observers invoke i (SetStateClass cls') w2 = Ok tt w3 ∧
    disableState observers invoke i w3 = Ok tt w4 ∧
    doc w3 = doc w1 ∧ dispatched w3 = dispatched w1 ∧
    isInState <$> closures w4 !! i = Some false ∧
    doc w4 !! btn c = Some e4 ∧
    (∀ s, a11yText c = Str s → s ≠ "" → truthy text' = false →
          attributes e4 !! "aria-label" = Some s) ∧
    (∀ t, t ∈ class_tokens (inStateClassName c) → t ∉ class_tokens cls' →
          t ∈ classList e4) ∧
    (∀ t, t ∈ class_tokens cls' → t ∉ classList e4).
Proof.
  intros Hlook Hc Hinit Hwr He Hew Hne Hcls Hcls'.
  assert (i < length (closures w)) as Hi by by eapply lookup_lt_Some.
  pose proof (enableState_run observers invoke Hlook i w c e ew wr
                Hc Hinit Hwr He Hew Hne Hcls) as H1.
  set (w1 := World _ _ _ _) in H1.
  set (c1 := set_isInState true c).
  set (e1 := enabled_button (a11yText c) (inStateClassName c) e).
  set (ew1 := set_attributes (<["aria-hidden" := "true"]>) ew).
  assert (closures w1 !! i = Some c1) as Hc1 by by apply list_lookup_insert_eq.
  set (w2 := set_closures (alter (set_a11yText text') i) w1).
  set (w3 := set_closures (alter (set_inStateClassName cls') i) w2).
  set (c3 := set_inStateClassName cls' (set_a11yText text' c1)).
  assert (closures w2 !! i = Some (set_a11yText text' c1)) as Hc2.
  { change (closures w2) with (alter (set_a11yText text') i (closures w1)).
    by rewrite list_lookup_alter_eq, Hc1. }
  assert (closures w3 !! i = Some c3) as Hc3.
  { change (closures w3)
      with (alter (set_inStateClassName cls') i (closures w2)).
    by rewrite list_lookup_alter_eq, Hc2. }
  assert (doc w3 !! btn c3 = Some e1) as He3 by apply lookup_insert_eq.
  assert (doc w3 !! wr = Some ew1) as Hew3.
  { unfold w3, w2, w1. simpl. by rewrite lookup_insert_ne, lookup_insert_eq. }
  pose proof (disableState_run observers invoke Hlook i w3 c3 e1 ew1 wr
                Hc3 Hinit Hwr He3 Hew3 Hne Hcls') as H4.
  set (w4 := World _ _ _ _) in H4.
  exists w1, w2, w3, w4, (disabled_button text' cls' e1).
  split_and!; try done.
  - unfold call. by rewrite (step_var i btn _ w1 c1 Hc1).
  - unfold call. by rewrite (step_var i btn _ w2 _ Hc2).
  - unfold w4. simpl. rewrite list_lookup_insert_eq; [done|].
    unfold w3, w2, w1. simpl. by rewrite !length_alter, length_insert.
  - unfold w4. simpl. by rewrite lookup_insert_ne, lookup_insert_eq.
  - intros s Hs Hne' Hfalsy. simpl. rewrite Hfalsy. unfold e1. simpl.
    rewrite Hs, bool_decide_eq_false_2 by done. apply lookup_insert_eq.
  - intros t Ht Hnot. simpl. apply list_elem_of_filter. split; [done|].
    apply foldl_add_token_elem. by right.
  - intros t Ht. simpl. rewrite list_elem_of_filter. naive_solver.
Qed.

Lemma setters_are_not_retroactive_witness :
  ∃ w1 w2 w3 w4 e4,
    enableState no_observers (invoke_at 1 no_observers) 0 busy_page
    = Ok tt w1 ∧
    call no_observers (invoke_at 1 no_observers) 0 (SetA11yText Null) w1
    = Ok tt w2 ∧
    call no_observers (invoke_at 1 no_observers) 0
         (SetStateClass (Str "o-btn")) w2 = Ok tt w3 ∧
    disableState no_observers (invoke_at 1 no_observers) 0 w3 = Ok tt w4 ∧
    doc w4 !! 1 = Some e4 ∧
    attributes e4 !! "aria-label" = Some "Loading" ∧
    "busy" ∈ classList e4 ∧
    "o-btn" ∉ classList e4.
Proof.
  destruct (setters_are_not_retroactive
              no_observers (invoke_at 1 no_observers) 0 busy_page
              (Closure 1 Undefined (Str "busy") false true (Str "Loading")
                       (Str "busy") (Some 4))
              (Element "button"
                       {[ "data-in-state-text" := "Loading";
                          "aria-live" := "polite" ]}
                       ["o-btn"] [4])
              (Element "span" ∅ [] [2; 3]) 4 Null (Str "o-btn"))
    as (w1 & w2 & w3 & w4 & e4 & H1 & H2 & H3 & H4 & _ & _ & _ & He4 & Hlabel
        & Hstale & Hgone).
  - intros ev. apply Forall_nil_2.
  - vm_compute. reflexivity.
  - reflexivity.
  - reflexivity.
  - vm_compute. reflexivity.
  - vm_compute. reflexivity.
  - by vm_compute.
  - intros _. vm_compute. reflexivity.
  - intros _. vm_compute. reflexivity.
  - exists w1, w2, w3, w4, e4. split_and!.
    + exact H1.
    + exact H2.
    + exact H3.
    + exact H4.
    + exact He4.
    + apply (Hlabel "Loading"); [reflexivity|by vm_compute|reflexivity].
    + apply (Hstale "busy").
      * vm_compute. by left.
      * vm_compute. by intros [= ]%list_elem_of_singleton.
    + apply (Hgone "o-btn"). vm_compute. by left.
Defined.

(** X18.  [enableState] is not counted.  Premises: every listener of
    every event only looks at the page (it calls no method and vetoes
    nothing); the instance is initialized; its button and its wrapper are
    elements, and not the same node; its class names are falsy or a string
    whose pieces between single spaces are tokens that [classList]
    accepts.  Then a second [enableState()] in a row returns and leaves the
    document, the instances and the registry as the first one left them,
    and dispatches the two enable events again, both with [true]; one
    [disableState()] then makes the instance inactive, as after a single
    [enableState()]: it leaves the same document and the same
    instances. *)
Theorem enableState_twice_is_enableState_once
    observers invoke i w c e ew wr :
  (∀ ev, Forall bystander (observers ev)) →
  closures w !! i = Some c → isInit c = true → wrapper c = Some wr →
  doc w !! btn c = Some e → doc w !! wr = Some ew → wr ≠ btn c →
  accepted_classes (inStateClassName c) →
  ∃ w1 w2 w3 w3',
    enableState observers invoke i w = Ok tt w1 ∧
    enableState observers invoke i w1 = Ok tt w2 ∧
    doc w2 = doc w1 ∧ closures w2 = closures w1 ∧
    allInstances w2 = allInstances w1 ∧
    dispatched w2 =
      dispatched w1 ++
      [Event (btn c) "stateful-btn:enable-before" true;
       Event (btn c) "stateful-btn:enable-after" true] ∧
    disableState observers invoke i w2 = Ok tt w3 ∧
    disableState observers invoke i w1 = Ok tt w3' ∧
    doc w3 = doc w3' ∧ closures w3 = closures w3' ∧
    isInState <$> closures w3 !! i = Some false.
Proof.
  intros Hlook Hc Hinit Hwr He Hew Hne Hcls.
  assert (i < length (closures w)) as Hi by by eapply lookup_lt_Some.
  pose proof (enableState_run observers invoke Hlook i w c e ew wr
                Hc Hinit Hwr He Hew Hne Hcls) as H1.
  set (w1 := World _ _ _ _) in H1.
  set (c1 := set_isInState true c).
  set (e1 := enabled_button (a11yText c) (inStateClassName c) e).
  set (ew1 := set_attributes (<["aria-hidden" := "true"]>) ew).
  assert (closures w1 !! i = Some c1) as Hc1 by by apply list_lookup_insert_eq.
  assert (doc w1 !! btn c1 = Some e1) as He1 by apply lookup_insert_eq.
  assert (doc w1 !! wr = Some ew1) as Hew1.
  { unfold w1. simpl. by rewrite lookup_insert_ne, lookup_insert_eq. }
  pose proof (enableState_run observers invoke Hlook i w1 c1 e1 ew1 wr
                Hc1 Hinit Hwr He1 Hew1 Hne Hcls) as H2.
  set (w2 := World _ _ _ _) in H2.
  assert (doc w2 = doc w1) as Hdoc.
  { assert (enabled_button (a11yText c) (inStateClassName c) e1 = e1) as Hb
      by apply enabled_button_twice.
    assert (set_attributes (<["aria-hidden" := "true"]>) ew1 = ew1) as Hh.
    { unfold ew1, set_attributes. simpl. by rewrite insert_insert_eq. }
    change (<[btn c := enabled_button (a11yText c) (inStateClassName c) e1]>
              (<[wr := set_attributes (<["aria-hidden" := "true"]>) ew1]>
                 (doc w1)) = doc w1).
    rewrite Hb, Hh, (insert_same (doc w1) wr ew1 Hew1).
    by apply insert_same. }
  assert (closures w2 = closures w1) as Hcs.
  { change (<[i := set_isInState true c1]> (closures w1) = closures w1).
    apply list_insert_id. exact Hc1. }
  assert (closures w2 !! i = Some c1) as Hc2 by by rewrite Hcs.
  assert (doc w2 !! btn c1 = Some e1) as He2 by by rewrite Hdoc.
  assert (doc w2 !! wr = Some ew1) as Hew2 by by rewrite Hdoc.
  pose proof (disableState_run observers invoke Hlook i w2 c1 e1 ew1 wr
                Hc2 Hinit Hwr He2 Hew2 Hne Hcls) as H3.
  set (w3 := World _ _ _ _) in H3.
  pose proof (disableState_run observers invoke Hlook i w1 c1 e1 ew1 wr
                Hc1 Hinit Hwr He1 Hew1 Hne Hcls) as H3'.
  set (w3' := World _ _ _ _) in H3'.
  exists w1, w2, w3, w3'. split_and!; try done.
  - change (doc w3)
      with (<[wr := set_attributes (delete "aria-hidden") ew1]>
              (<[btn c1 := disabled_button (a11yText c1) (inStateClassName c1)
                                           e1]> (doc w2))).
    by rewrite Hdoc.
  - change (closures w3)
      with (<[i := set_isInState false c1]> (closures w2)).
    by rewrite Hcs.
  - change (closures w3)
      with (<[i := set_isInState false c1]> (closures w2)).
    rewrite Hcs, list_lookup_insert_eq; [done|].
    unfold w1. simpl. by rewrite length_insert.
Qed.

Lemma enableState_twice_is_enableState_once_witness :
  ∃ w1 w2 w3,
    enableState no_observers (invoke_at 1 no_observers) 0 busy_page
    = Ok tt w1 ∧
    enableState no_observers (invoke_at 1 no_observers) 0 w1 = Ok tt w2 ∧
    doc w2 = doc w1 ∧
    length (dispatched w2) = 4 ∧
    disableState no_observers (invoke_at 1 no_observers) 0 w2 = Ok tt w3 ∧
    isInState <$> closures w3 !! 0 = Some false.
Proof.
  destruct (enableState_twice_is_enableState_once
              no_observers (invoke_at 1 no_observers) 0 busy_page
              (Closure 1 Undefined (Str "busy") false true (Str "Loading")
                       (Str "busy") (Some 4))
              (Element "button"
                       {[ "data-in-state-text" := "Loading";
                          "aria-live" := "polite" ]}
                       ["o-btn"] [4])
              (Element "span" ∅ [] [2; 3]) 4)
    as (w1 & w2 & w3 & w3' & H1 & H2 & Hdoc & _ & _ & Hev & H3 & _ & _ & _
        & Hst).
  - intros ev. apply Forall_nil_2.
  - vm_compute. reflexivity.
  - reflexivity.
  - reflexivity.
  - vm_compute. reflexivity.
  - vm_compute. reflexivity.
  - by vm_compute.
  - intros _. vm_compute. reflexivity.
  - exists w1, w2, w3. split_and!.
    + exact H1.
    + exact H2.
    + exact Hdoc.
    + rewrite Hev, length_app. vm_compute in H1. injection H1 as <-.
      reflexivity.
    + exact H3.
    + exact Hst.
Defined.

(** X19.  A listener that tears the instance down under [enableState]: if
    the dispatch of the enable-before event returns [true] and has left the
    instance without a wrapper (a listener called [destroy()]),
    [enableState] throws a [TypeError] at [wrapper.setAttribute], in the
    state that the dispatch reached: it sets nothing and dispatches no
    enable-after event. *)
Theorem enableState_after_a_listener_destroyed
    observers invoke i w c w1 c1 :
  closures w !! i = Some c → isInit c = true →
  dispatchEvent observers invoke (btn c) "stateful-btn:enable-before"
                (isInState c) w = Ok true w1 →
  closures w1 !! i = Some c1 → wrapper c1 = None →
  enableState observers invoke i w = Throw TypeError w1.
Proof.
  intros Hc Hinit Hdispatch Hc1 Hwr. unfold enableState.
  rewrite (step_var i isInit _ w c Hc), Hinit. cbv beta iota.
  rewrite (step_var i btn _ w c Hc), (step_var i isInState _ w c Hc).
  rewrite (step_bind _ _ _ _ _ Hdispatch). cbv iota.
  by rewrite (step_var i wrapper _ w1 c1 Hc1), Hwr.
Qed.

Lemma enableState_after_a_listener_destroyed_witness :
  enableState destroying_observers (invoke_at 1 destroying_observers) 0
              busy_page
  = Throw TypeError
          (final_state
             (dispatchEvent destroying_observers
                            (invoke_at 1 destroying_observers) 1
                            "stateful-btn:enable-before" false busy_page)) ∧
  isInit <$>
    closures
      (final_state
         (dispatchEvent destroying_observers
                        (invoke_at 1 destroying_observers) 1
                        "stateful-btn:enable-before" false busy_page)) !! 0
  = Some false.
Proof.
  split; [|by vm_compute].
  apply (enableState_after_a_listener_destroyed
           destroying_observers (invoke_at 1 destroying_observers) 0 busy_page
           (Closure 1 Undefined (Str "busy") false true (Str "Loading")
                    (Str "busy") (Some 4))
           _
           (Closure 1 Undefined (Str "busy") false false (Str "Loading")
                    (Str "busy") None)).
  - vm_compute. reflexivity.
  - reflexivity.
  - vm_compute. reflexivity.
  - vm_compute. reflexivity.
  - reflexivity.
Defined.

End setters_more.

(** ** The page that the factory leaves, and the loops of [destroy] and
       [init] *)

Section setup_more.
Implicit Types (w : world) (c : closure) (i : inst_id) (d : document).

(** The wrapper that [init] creates is a [span] without attributes and
    without class tokens. *)
Lemma wrapInner_span_shell b d r d' :
  wrapInner b (TagName "span") [] d = Ok r d' →
  shell <$> d' !! fresh_node d = Some ("span", ∅, []).
Proof.
  rewrite wrapInner_tag by done.
  change (ascii_lowercase "span") with "span".
  set (n := fresh_node d). set (d0 := <[n := Element "span" ∅ [] []]> d).
  unfold wrapInner, mbind, M_bind, bind, mret, M_ret, ret, get.
  cbv beta iota. simpl set_attrs. unfold mret, M_ret, ret. cbv beta iota.
  pose proof (same_shells_final_appendChild b (Some n) d0) as Hs1.
  destruct (appendChild b (Some n) d0) as [[] d1|] eqn:Happ; [|done].
  simpl in Hs1.
  pose proof (same_shells_final_move_children
                (S (length (children_of d1 b))) b n d1) as Hs2.
  destruct (move_children _ b n d1) as [[] d2|]; [|done]. simpl in Hs2.
  intros [= _ <-]. rewrite (Hs2 n), (Hs1 n). unfold d0.
  by rewrite lookup_insert_eq.
Qed.

(** X20.  The page that the factory leaves, on a well-formed document and for
    a button that is an element: [statefulBtn] returns a new instance, which
    is initialized and not active and holds the resolved label text and
    class names; the document differs from the former one in two nodes
    only: the button has [aria-live="polite"] and one child, a new [span]
    without attributes and class tokens, and that [span] has the former
    children of the button, in their order.  The tag, the other attributes
    and the class tokens of the button are as they were. *)
Theorem statefulBtn_sets_up b text cls w e :
  well_formed (doc w) → doc w !! b = Some e →
  ∃ w' wr,
    statefulBtn b text cls w = Ok (length (closures w)) w' ∧
    doc w !! wr = None ∧ (∀ k, wr ∉ children_of (doc w) k) ∧
    doc w' =
      <[wr := Element "span" ∅ [] (childNodes e)]>
        (<[b := Element (tagName e)
                        (<["aria-live" := "polite"]> (attributes e))
                        (classList e) [wr]]> (doc w)) ∧
    closures w' =
      closures w ++
      [Closure b text cls false true
               (resolved text (attributes e !! "data-in-state-text"))
               (resolved cls (attributes e !! "data-in-state-class"))
               (Some wr)] ∧
    dispatched w' = dispatched w.
Proof.
  intros Hwf He.
  destruct (statefulBtn_run b text cls w e Hwf He)
    as (w' & Hnew & Hcs & _ & Hev & _).
  exists w', (fresh_node (doc w)).
  split_and!; [done|apply fresh_node_lookup|
               intros k; apply fresh_node_not_child| |done|done].
  revert Hnew. unfold statefulBtn.
  rewrite (step_bind get _ w w w eq_refl). cbv zeta.
  rewrite (step_bind (modify _) _ w tt _ eq_refl).
  set (c0 := Closure b text cls false false Undefined Undefined None).
  set (w1 := set_closures (λ cs, cs ++ [c0]) w).
  assert (closures w1 !! length (closures w) = Some c0) as Hc0.
  { unfold w1. simpl. by rewrite lookup_app_r, Nat.sub_diag. }
  destruct (init_uninitialized (length (closures w)) w1 c0 e Hc0)
    as (d' & e' & Hd' & Hwf' & Hp' & Hw' & Hk' & Hsh' & Hdw & He' & Hshe & Hi);
    [done..|].
  simpl in *. rewrite (step_bind _ _ _ _ _ Hi).
  rewrite (step_bind get _ _ _ _ eq_refl). simpl.
  intros Hnew.
  assert (doc w' = <[b := set_attributes (<["aria-live" := "polite"]>) e']> d')
    as ->.
  { destruct (bool_decide _); unfold_M; by injection Hnew as <-. }
  set (wr := fresh_node (doc w)) in *.
  assert (b ≠ wr) as Hne.
  { intros Heq. pose proof (fresh_node_lookup (doc w)) as Hf.
    fold wr in Hf. rewrite <-Heq, He in Hf. done. }
  pose proof (wrapInner_span_shell _ _ _ _ Hd') as Hspan. fold wr in Hspan.
  apply map_eq. intros k.
  destruct (decide (k = wr)) as [->|Hkw].
  { rewrite lookup_insert_ne, lookup_insert_eq by done.
    unfold children_of in Hw'. rewrite He in Hw'.
    destruct (d' !! wr) as [[tag attrs cl ch]|]; [|done].
    unfold shell in Hspan. simpl in *. by simplify_eq. }
  rewrite (lookup_insert_ne _ wr) by done.
  destruct (decide (k = b)) as [->|Hkb].
  { rewrite !lookup_insert_eq. f_equal.
    unfold children_of in Hp'. rewrite He' in Hp'.
    unfold shell in Hshe. destruct e', e. simpl in *. by simplify_eq. }
  rewrite !lookup_insert_ne by done.
  apply lookup_ext; [by apply Hsh'|by apply Hk'].
Qed.

Lemma statefulBtn_sets_up_witness :
  ∃ w' wr,
    statefulBtn 1 (Str "Wait") Undefined button_page = Ok 0 w' ∧
    doc w' !! wr = Some (Element "span" ∅ [] [2; 3]) ∧
    children_of (doc w') 1 = [wr] ∧
    attr_of (doc w') 1 "aria-live" = Some "polite" ∧
    a11yText <$> closures w' !! 0 = Some (Str "Wait").
Proof.
  destruct (statefulBtn_sets_up
              1 (Str "Wait") Undefined button_page
              (Element "button" {[ "data-in-state-text" := "Loading" ]}
                       ["o-btn"] [2; 3]))
    as (w' & wr & Hnew & Hfresh & _ & Hdoc & Hcs & _).
  - exact button_doc_well_formed.
  - vm_compute. reflexivity.
  - assert (1 ≠ wr) as Hne.
    { intros <-. vm_compute in Hfresh. discriminate Hfresh. }
    exists w', wr. split_and!.
    + exact Hnew.
    + rewrite Hdoc. apply lookup_insert_eq.
    + unfold children_of. rewrite Hdoc.
      by rewrite lookup_insert_ne, lookup_insert_eq.
    + unfold attr_of. rewrite Hdoc.
      rewrite lookup_insert_ne, lookup_insert_eq by done. simpl.
      apply lookup_insert_eq.
    + rewrite Hcs. reflexivity.
Defined.

End setup_more.

(** ** The loops of [destroy] and [init] end *)

Section loops.
Implicit Types (w : world) (c : closure) (i : inst_id) (d : document).

Lemma diverged_bind {S A B} (m : M S A) (k : A → M S B) s :
  diverged (m s) = false →
  (∀ a s', m s = Ok a s' → diverged (k a s') = false) →
  diverged ((m ≫= k) s) = false.
Proof. unfold_M. destruct (m s); eauto. Qed.

Lemma diverged_dom {A} (m : M document A) w :
  diverged (dom m w) = diverged (m (doc w)).
Proof. unfold dom. by destruct (m (doc w)). Qed.

Lemma filter_ne_shorter (l : list node_id) x :
  x ∈ l → length (filter (λ y, y ≠ x) l) < length l.
Proof.
  induction l as [|a l IH]; [by intros ?%elem_of_nil|].
  intros Hx. destruct (decide (a = x)) as [->|Hne].
  - rewrite filter_cons_False by naive_solver. simpl.
    pose proof (length_filter (λ y, y ≠ x) l). lia.
  - rewrite filter_cons_True by done. simpl.
    apply elem_of_cons in Hx as [->|Hx]; [done|].
    specialize (IH Hx). lia.
Qed.

Lemma insertBefore_not_diverged p (o : option node_id) ref d :
  diverged (insertBefore p o ref d) = false.
Proof.
  unfold insertBefore. destruct (d !! p), o as [n|]; try done.
  destruct (contains d n p); [done|].
  case_bool_decide; [|done]. by case_decide.
Qed.

(** In a well-formed document each turn of the loop of [destroy] takes one
    child out of the wrapper. *)
Lemma unwrap_bounded b n :
  ∀ fuel d, well_formed d → length (children_of d n) < fuel →
            diverged (unwrap fuel b n d) = false.
Proof.
  induction fuel as [|fuel IH]; intros d Hwf Hlen; [lia|].
  simpl. apply diverged_bind.
  { unfold firstChild. by destruct (d !! n). }
  intros first d0 Hfirst. unfold firstChild in Hfirst.
  destruct (d !! n) as [en|] eqn:Hen; [|done].
  injection Hfirst as <- <-.
  destruct (head (childNodes en)) as [x|] eqn:Hhead; [|done].
  assert (child_of d n x) as Hx.
  { unfold child_of, children_of. rewrite Hen.
    destruct (childNodes en); simpl in Hhead; [done|].
    injection Hhead as ->. by left. }
  apply diverged_bind; [apply insertBefore_not_diverged|].
  intros [] d1 Hins.
  assert (child_of d b n) as Href.
  { unfold insertBefore in Hins. unfold child_of, children_of.
    destruct (d !! b) as [eb|]; [|done].
    destruct (contains d x b); [done|].
    by case_bool_decide. }
  assert (b ≠ n) as Hbn.
  { intros ->. apply (wf_acyclic d Hwf n n Href). constructor. }
  assert (x ≠ n) as Hxn.
  { intros ->. apply (wf_acyclic d Hwf n n Hx). constructor. }
  apply list_elem_of_split in Href as (pre & post & Hb).
  assert (x ∉ children_of d b) as Hxb.
  { intros Hin. by apply Hbn, (wf_parent d Hwf b n x). }
  destruct (insertBefore_ok d b x n pre post Hwf Hb Hxn)
    as (d' & Hok & _ & Hwf' & _ & Hk').
  - intros Hin. apply Hxb. rewrite Hb. set_solver.
  - intros Hin. apply Hxb. rewrite Hb. set_solver.
  - intros Hdesc. apply (wf_acyclic d Hwf n x Hx).
    eapply rtc_r; [exact Hdesc|]. unfold child_of. rewrite Hb. set_solver.
  - rewrite Hok in Hins. injection Hins as <-.
    apply IH; [done|]. rewrite Hk' by done.
    pose proof (filter_ne_shorter (children_of d n) x Hx). lia.
Qed.

Lemma removeAttribute_children n nm d a d' :
  removeAttribute n nm d = Ok a d' →
  ∀ k, children_of d' k = children_of d k.
Proof.
  unfold removeAttribute. destruct (d !! n) as [e|] eqn:He; [|done].
  intros [= _ <-] k. by apply (children_of_insert_shell _ _ e).
Qed.

Lemma classList_remove_children n tokens d a d' :
  classList_remove n tokens d = Ok a d' →
  ∀ k, children_of d' k = children_of d k.
Proof.
  unfold classList_remove. destruct (d !! n) as [e|] eqn:He; [|done].
  destruct (validate_tokens tokens); [done|].
  intros [= _ <-] k. by apply (children_of_insert_shell _ _ e).
Qed.

Lemma classList_remove_not_diverged n tokens d :
  diverged (classList_remove n tokens d) = false.
Proof.
  unfold classList_remove. destruct (d !! n); [|done].
  destruct (validate_tokens tokens) as [x|] eqn:Hx; [|done].
  induction tokens as [|t tokens IH]; simpl in Hx; [done|].
  case_bool_decide; [by simplify_eq|].
  destruct (has_whitespace t); [by simplify_eq|]. by apply IH.
Qed.

Ltac no_loop :=
  unfold on_wrapper, or_else, split, fmap, M_fmap;
  unfold_M;
  unfold var, dom, assign, modify;
  unfold removeAttribute, setAttribute, getAttribute, removeChild;
  repeat case_match; simplify_eq; done.

Lemma destroy_not_diverged i w :
  well_formed (doc w) → diverged (destroy i w) = false.
Proof.
  intros Hwf. unfold destroy.
  apply diverged_bind; [no_loop|].
  intros init_ ? [-> _]%var_Ok_inv. destruct init_; [|done].
  apply diverged_bind; [no_loop|].
  intros b ? [-> _]%var_Ok_inv.
  apply diverged_bind; [no_loop|].
  intros [] ? (d1 & H1 & ->)%dom_Ok_inv.
  apply diverged_bind; [no_loop|].
  intros [] ? (d2 & H2 & ->)%dom_Ok_inv. simpl in H2.
  apply diverged_bind; [no_loop|].
  intros cls ? [-> _]%var_Ok_inv.
  apply diverged_bind; [no_loop|].
  intros tokens w3 Hsplit.
  assert (w3 = set_doc (λ _, d2) (set_doc (λ _, d1) w)) as ->.
  { destruct cls; simpl in Hsplit; [done..|]. by injection Hsplit as _ <-. }
  apply diverged_bind.
  { rewrite diverged_dom. apply classList_remove_not_diverged. }
  intros [] ? (d3 & H3 & ->)%dom_Ok_inv. simpl in H3.
  assert (well_formed d3) as Hwf3.
  { apply (well_formed_ext (doc w)); [|done]. intros k.
    rewrite (classList_remove_children _ _ _ _ _ H3).
    rewrite (removeAttribute_children _ _ _ _ _ H2).
    by rewrite (removeAttribute_children _ _ _ _ _ H1). }
  apply diverged_bind; [no_loop|].
  intros wr ? [-> _]%var_Ok_inv.
  apply diverged_bind.
  { destruct wr as [n|]; [|done]. unfold on_wrapper.
    rewrite diverged_dom. simpl doc.
    rewrite (step_bind get _ d3 d3 d3 eq_refl).
    apply unwrap_bounded; [done|lia]. }
  intros [] w4 _.
  apply diverged_bind; [no_loop|]. intros [] w5 _.
  apply diverged_bind; [no_loop|]. intros [] w6 _.
  apply diverged_bind; [no_loop|]. intros [] w7 _.
  no_loop.
Qed.

Lemma init_not_diverged i w :
  well_formed (doc w) → diverged (init i w) = false.
Proof.
  intros Hwf. unfold init.
  apply diverged_bind; [no_loop|].
  intros init_ ? [-> _]%var_Ok_inv.
  apply diverged_bind.
  { destruct init_; [by apply destroy_not_diverged|done]. }
  intros [] w1 _.
  apply diverged_bind; [no_loop|].
  intros b ? [-> _]%var_Ok_inv.
  apply diverged_bind.
  { rewrite diverged_dom.
    destruct (wrapInner b (TagName "span") [] (doc w1)) as [r d'|x d'] eqn:H;
      [done|].
    destruct x; try done. by apply wrapInner_terminates in H. }
  intros pw w2 _.
  apply diverged_bind; [no_loop|]. intros [] w3 _.
  apply diverged_bind; [no_loop|]. intros text w4 _.
  apply diverged_bind; [no_loop|]. intros a11y w5 _.
  apply diverged_bind; [no_loop|]. intros [] w6 _.
  apply diverged_bind; [no_loop|]. intros cls w7 _.
  apply diverged_bind; [no_loop|]. intros clsName w8 _.
  apply diverged_bind; [no_loop|]. intros [] w9 _.
  apply diverged_bind; [no_loop|]. intros [] w10 _.
  no_loop.
Qed.

(** X21.  The [while] loop of [destroy] ends on every well-formed document,
    whatever the state of the instance and wherever its wrapper is: each turn
    takes one child out of the wrapper, and the bound that the model gives
    to the loop is never reached.  [init], which may call [destroy] and
    calls [wrapInner], and the factory, which calls [init], do not loop
    either. *)
Theorem destroy_and_init_loops_end w :
  well_formed (doc w) →
  (∀ i, diverged (destroy i w) = false) ∧
  (∀ i, diverged (init i w) = false) ∧
  (∀ b text cls, diverged (statefulBtn b text cls w) = false).
Proof.
  intros Hwf. split_and!.
  - intros i. by apply destroy_not_diverged.
  - intros i. by apply init_not_diverged.
  - intros b text cls. unfold statefulBtn.
    rewrite (step_bind get _ w w w eq_refl). cbv zeta.
    rewrite (step_bind (modify _) _ w tt _ eq_refl).
    apply diverged_bind; [by apply init_not_diverged|].
    intros [] w1 _. rewrite (step_bind get _ w1 w1 w1 eq_refl).
    apply diverged_bind; [|done].
    destruct (bool_decide _); done.
Qed.

Lemma destroy_and_init_loops_end_witness :
  diverged (destroy 0 active_page) = false ∧
  diverged (init 0 active_page) = false ∧
  diverged (statefulBtn 1 Undefined Undefined active_page) = false.
Proof.
  destruct (destroy_and_init_loops_end active_page active_page_well_formed)
    as (Hd & Hi & Hn).
  split_and!; [apply Hd|apply Hi|apply Hn].
Defined.

End loops.

(** ** [disableState] on its own, and two instances for one button *)

Section disable_more.
Implicit Types (w : world) (c : closure) (i : inst_id) (d : document).

(** X22.  What [disableState] does, for an initialized instance whose button
    and wrapper are elements, with class names that [classList] accepts and
    listeners that only look, whether or not the instance is active (the
    method does not look at the active flag).  It returns with the instance
    not active; the wrapper has no [aria-hidden]; if the label text is truthy
    the button has no [aria-label], whoever had set it, and its [aria-label]
    is as it was otherwise; the class tokens of the button are the ones it
    had that are not among the class names, in their order; every other
    attribute and every other node is as it was; the disable-before event,
    with the former active flag, and the disable-after event, with [false],
    were dispatched. *)
Theorem disableState_strips_button_and_wrapper
    observers invoke i w c e ew wr :
  (∀ ev, Forall bystander (observers ev)) →
  closures w !! i = Some c → isInit c = true → wrapper c = Some wr →
  doc w !! btn c = Some e → doc w !! wr = Some ew → wr ≠ btn c →
  accepted_classes (inStateClassName c) →
  ∃ w' e',
    disableState observers invoke i w = Ok tt w' ∧
    closures w' = <[i := set_isInState false c]> (closures w) ∧
    allInstances w' = allInstances w ∧
    dispatched w' =
      dispatched w ++
      [Event (btn c) "htz-stateful-btn:disable-before" (isInState c);
       Event (btn c) "htz-stateful-btn:disable-after" false] ∧
    doc w' !! wr = Some (set_attributes (delete "aria-hidden") ew) ∧
    (∀ k, k ≠ btn c → k ≠ wr → doc w' !! k = doc w !! k) ∧
    doc w' !! btn c = Some e' ∧
    attributes e' !! "aria-label" =
      (if truthy (a11yText c) then None else attributes e !! "aria-label") ∧
    (∀ name, name ≠ "aria-label" →
             attributes e' !! name = attributes e !! name) ∧
    classList e'
    = filter (λ t, t ∉ class_tokens (inStateClassName c)) (classList e) ∧
    tagName e' = tagName e ∧ childNodes e' = childNodes e.
Proof.
  intros Hlook Hc Hinit Hwr He Hew Hne Hcls.
  pose proof (disableState_run observers invoke Hlook i w c e ew wr
                Hc Hinit Hwr He Hew Hne Hcls) as Hrun.
  eexists _, (disabled_button (a11yText c) (inStateClassName c) e).
  split; [exact Hrun|]. simpl. split_and!; try done.
  - apply lookup_insert_eq.
  - intros k Hkb Hkw. by rewrite !lookup_insert_ne.
  - by rewrite lookup_insert_ne, lookup_insert_eq.
  - destruct (truthy (a11yText c)); [apply lookup_delete_eq|done].
  - intros name Hname. destruct (truthy (a11yText c)); [|done].
    by apply lookup_delete_ne.
Qed.

Lemma disableState_strips_button_and_wrapper_witness :
  ∃ w' e',
    disableState no_observers (invoke_at 1 no_observers) 0 busy_page
    = Ok tt w' ∧
    isInState <$> closures busy_page !! 0 = Some false ∧
    doc w' !! 1 = Some e' ∧
    attributes e' !! "aria-label" = None ∧
    classList e' = ["o-btn"] ∧
    length (dispatched w') = 2.
Proof.
  destruct (disableState_strips_button_and_wrapper
              no_observers (invoke_at 1 no_observers) 0 busy_page
              (Closure 1 Undefined (Str "busy") false true (Str "Loading")
                       (Str "busy") (Some 4))
              (Element "button"
                       {[ "data-in-state-text" := "Loading";
                          "aria-live" := "polite" ]}
                       ["o-btn"] [4])
              (Element "span" ∅ [] [2; 3]) 4)
    as (w' & e' & Hrun & _ & _ & Hev & _ & _ & He' & Hlabel & _ & Hcl & _).
  - intros ev. apply Forall_nil_2.
  - vm_compute. reflexivity.
  - reflexivity.
  - reflexivity.
  - vm_compute. reflexivity.
  - vm_compute. reflexivity.
  - by vm_compute.
  - intros _. vm_compute. reflexivity.
  - exists w', e'. split_and!.
    + exact Hrun.
    + by vm_compute.
    + exact He'.
    + exact Hlabel.
    + rewrite Hcl. by vm_compute.
    + rewrite Hev. reflexivity.
Defined.

End disable_more.

(** ** Two instances for one button *)

Section two_instances.
Implicit Types (w : world) (c : closure) (i : inst_id) (d : document).

(** The loop of [destroy] and the [removeChild] after it, when the wrapper
    is not a child of the button: the first DOM call that names the wrapper
    as a child of the button throws. *)
Lemma unwrap_not_child fuel b wr d eb ew :
  d !! b = Some eb → wr ∉ childNodes eb → d !! wr = Some ew →
  (∀ x, x ∈ childNodes ew → ¬ descends d x b) →
  unwrap (S fuel) b wr d = Throw NotFoundError d ∨
  (unwrap (S fuel) b wr d = Ok tt d ∧
   removeChild b wr d = Throw NotFoundError d).
Proof.
  intros Heb Hnot Hew Hdesc. simpl. unfold_M. unfold firstChild.
  rewrite Hew. destruct (childNodes ew) as [|x l] eqn:Hch; simpl.
  - right. split; [done|]. unfold removeChild. rewrite Heb.
    by rewrite bool_decide_eq_false_2.
  - left. unfold insertBefore. rewrite Heb.
    rewrite contains_false by (apply Hdesc; by left).
    by rewrite bool_decide_eq_false_2.
Qed.

(** X23.  Two instances for one button get in each other's way.  Premises:
    the document is well-formed; the button is an element; the class names
    that the first call of the factory resolves (its class argument when
    that is truthy, else the [data-in-state-class] attribute of the button)
    are a string whose pieces between single spaces are tokens that
    [classList] accepts.  Then two calls of the factory for the button
    return, whatever the arguments of the second; the wrapper of the first
    instance is inside the wrapper of the second and is no child of the
    button any more, so [destroy] of the first instance throws a
    [NotFoundError] at the first DOM call that takes its wrapper for a
    child of the button.  By then it has removed [aria-live], which the
    second instance had set as well; no child list has changed and both
    instances are still initialized. *)
Theorem second_instance_blocks_destroy_of_the_first
    b text1 cls1 text2 cls2 w e s :
  well_formed (doc w) → doc w !! b = Some e →
  resolved cls1 (attributes e !! "data-in-state-class") = Str s →
  validate_tokens (split_space s) = None →
  ∃ w1 w2 w3 wr1 wr2,
    statefulBtn b text1 cls1 w = Ok (length (closures w)) w1 ∧
    statefulBtn b text2 cls2 w1 = Ok (S (length (closures w))) w2 ∧
    children_of (doc w2) b = [wr2] ∧ children_of (doc w2) wr2 = [wr1] ∧
    children_of (doc w2) wr1 = children_of (doc w) b ∧
    destroy (length (closures w)) w2 = Throw NotFoundError w3 ∧
    (∀ k, children_of (doc w3) k = children_of (doc w2) k) ∧
    isInit <$> closures w3 !! length (closures w) = Some true ∧
    isInit <$> closures w3 !! S (length (closures w)) = Some true ∧
    attr_of (doc w3) b "aria-live" = None.
Proof.
  intros Hwf He Hres Hvalid.
  destruct (statefulBtn_run b text1 cls1 w e Hwf He)
    as (w1 & Hnew1 & Hcs1 & _ & _ & Hwf1 & Hb1 & Hw1 & Hfresh1 & _).
  set (wr1 := fresh_node (doc w)) in *.
  set (c1 := initialized_closure
               (Closure b text1 cls1 false false Undefined Undefined None) e
               wr1) in Hcs1.
  assert (is_Some (doc w1 !! b)) as [e1 He1].
  { apply (children_of_is_Some (doc w1) b wr1). rewrite Hb1. set_solver. }
  assert (length (closures w1) = S (length (closures w))) as Hlen1.
  { rewrite Hcs1, length_app. simpl. lia. }
  destruct (statefulBtn_run b text2 cls2 w1 e1 Hwf1 He1)
    as (w2 & Hnew2 & Hcs2 & _ & _ & Hwf2 & Hb2 & Hw2 & Hfresh2 & _).
  pose proof (statefulBtn_frame b text2 cls2 w1 e1 w2 Hwf1 He1 Hnew2)
    as Hframe.
  rewrite Hlen1 in Hnew2.
  set (wr2 := fresh_node (doc w1)) in *.
  set (c2 := initialized_closure
               (Closure b text2 cls2 false false Undefined Undefined None) e1
               wr2) in Hcs2.
  assert (wr1 ≠ wr2) as Hwr.
  { intros Heq. pose proof (fresh_node_lookup (doc w1)) as Hf.
    fold wr2 in Hf. rewrite <-Heq in Hf. rewrite Hf in Hfresh1.
    by destruct Hfresh1. }
  assert (wr1 ≠ b) as Hne1.
  { intros Heq. pose proof (fresh_node_lookup (doc w)) as Hf.
    fold wr1 in Hf. rewrite Heq, He in Hf. done. }
  destruct Hfresh1 as [ew1 Hew1].
  assert (doc w2 !! wr1 = Some ew1) as Hew2 by by rewrite Hframe.
  assert (closures w2 !! length (closures w) = Some c1) as Hc1.
  { rewrite Hcs2, Hcs1. rewrite lookup_app_l by (rewrite length_app; simpl; lia).
    by rewrite lookup_app_r, Nat.sub_diag. }
  assert (closures w2 !! S (length (closures w)) = Some c2) as Hc2.
  { rewrite Hcs2, <-Hlen1. by rewrite lookup_app_r, Nat.sub_diag. }
  assert (is_Some (doc w2 !! b)) as [e2 He2].
  { apply (children_of_is_Some (doc w2) b wr2). rewrite Hb2. set_solver. }
  set (e3 := set_classList (filter (λ t, t ∉ split_space s))
               (set_attributes (delete "aria-label")
                  (set_attributes (delete "aria-live") e2))).
  set (d3 := <[b := e3]> (doc w2)).
  assert (∀ k, children_of d3 k = children_of (doc w2) k) as Hch3.
  { intros k. by apply (children_of_insert_shell _ _ e2). }
  assert (well_formed d3) as Hwf3 by by eapply well_formed_ext.
  assert (childNodes e3 = [wr2]) as He3ch.
  { unfold children_of in Hb2. by rewrite He2 in Hb2. }
  assert (destroy (length (closures w)) w2
          = Throw NotFoundError (set_doc (λ _, d3) w2)) as Hd.
  { unfold destroy.
    rewrite (step_var _ isInit _ w2 c1 Hc1). cbv beta iota.
    change (isInit c1) with true. cbv iota.
    rewrite (step_var _ btn _ w2 c1 Hc1). change (btn c1) with b.
    rewrite (step_dom _ _ w2 tt _ (removeAttribute_run _ _ "aria-live" e2 He2)).
    set (w2a := set_doc _ w2).
    assert (doc w2a !! b = Some (set_attributes (delete "aria-live") e2))
      as He2a by apply lookup_insert_eq.
    rewrite (step_dom _ _ w2a tt _
               (removeAttribute_run _ _ "aria-label" _ He2a)).
    set (w2b := set_doc _ w2a).
    rewrite (step_var _ inStateClassName _ w2b c1 Hc1).
    change (inStateClassName c1)
      with (resolved cls1 (attributes e !! "data-in-state-class")).
    rewrite Hres. unfold split. rewrite step_ret.
    assert (doc w2b !! b
            = Some (set_attributes (delete "aria-label")
                      (set_attributes (delete "aria-live") e2))) as He2b
      by apply lookup_insert_eq.
    rewrite (step_dom _ _ w2b tt _
               (classList_remove_run _ _ _ _ He2b Hvalid)).
    set (w2c := set_doc _ w2b).
    assert (doc w2c = d3) as Hd3.
    { unfold w2c, w2b, w2a, d3. simpl. by rewrite !insert_insert_eq. }
    assert (set_doc (λ _, d3) w2c = set_doc (λ _, d3) w2) as Hw3 by done.
    rewrite (step_var _ wrapper _ w2c c1 Hc1).
    change (wrapper c1) with (Some wr1). unfold on_wrapper.
    assert (d3 !! b = Some e3) as Hb3 by apply lookup_insert_eq.
    assert (d3 !! wr1 = Some ew1) as Hw3'.
    { unfold d3. by rewrite lookup_insert_ne. }
    destruct (unwrap_not_child (length (children_of d3 wr1)) b wr1 d3 e3 ew1
                Hb3) as [Hun|[Hun Hrm]]; [|done| | |].
    - rewrite He3ch. by intros ->%list_elem_of_singleton.
    - intros x Hx Hdesc. apply (wf_acyclic d3 Hwf3 wr1 x).
      { unfold child_of, children_of. by rewrite Hw3'. }
      eapply rtc_r; [|instantiate (1 := wr2)].
      + eapply rtc_r; [exact Hdesc|].
        unfold child_of. rewrite Hch3, Hb2. by left.
      + unfold child_of. rewrite Hch3, Hw2, Hb1. by left.
    - rewrite <-Hw3. apply step_dom_throw.
      rewrite (step_bind get _ _ _ _ eq_refl). by rewrite Hd3.
    - rewrite <-Hw3.
      assert ((get ≫= λ d, unwrap (S (length (children_of d wr1))) b wr1)
                (doc w2c) = Ok tt d3) as Hun'.
      { rewrite (step_bind get _ _ _ _ eq_refl). by rewrite Hd3. }
      rewrite (step_dom _ _ w2c tt _ Hun').
      set (w2d := set_doc (λ _, d3) w2c).
      assert (removeChild b wr1 (doc w2d) = Throw NotFoundError d3) as Hrm'
        by exact Hrm.
      by rewrite (step_dom_throw _ _ w2d _ _ Hrm'). }
  exists w1, w2, (set_doc (λ _, d3) w2), wr1, wr2.
  split_and!; try done.
  - by rewrite Hw2, Hb1.
  - rewrite <-Hw1. unfold children_of. by rewrite Hew2, Hew1.
  - simpl. by rewrite Hc1.
  - simpl. by rewrite Hc2.
  - simpl. unfold attr_of, d3. rewrite lookup_insert_eq. simpl.
    by rewrite lookup_delete_ne, lookup_delete_eq.
Qed.

Lemma second_instance_blocks_destroy_of_the_first_witness :
  ∃ w1 w2 w3,
    statefulBtn 1 Undefined (Str "busy") button_page = Ok 0 w1 ∧
    statefulBtn 1 Undefined (Str "busy") w1 = Ok 1 w2 ∧
    destroy 0 w2 = Throw NotFoundError w3 ∧
    isInit <$> closures w3 !! 0 = Some true.
Proof.
  destruct (second_instance_blocks_destroy_of_the_first
              1 Undefined (Str "busy") Undefined (Str "busy") button_page
              (Element "button" {[ "data-in-state-text" := "Loading" ]}
                       ["o-btn"] [2; 3]) "busy")
    as (w1 & w2 & w3 & wr1 & wr2 & H1 & H2 & _ & _ & _ & Hd & _ & Hi & _).
  - exact button_doc_well_formed.
  - vm_compute. reflexivity.
  - reflexivity.
  - by vm_compute.
  - exists w1, w2, w3. split_and!; [exact H1|exact H2|exact Hd|exact Hi].
Defined.

End two_instances.

(** ** A listener that calls back into the instance *)

Section reentrant.
Implicit Types (w : world) (c : closure) (i : inst_id) (d : document).

(** [disableState] when the listeners of its two events only look. *)
Lemma disableState_looked_at observers invoke i w c e ew wr :
  Forall bystander
         (observers (Event (btn c) "htz-stateful-btn:disable-before"
                           (isInState c))) →
  Forall bystander
         (observers (Event (btn c) "htz-stateful-btn:disable-after" false)) →
  closures w !! i = Some c → isInit c = true → wrapper c = Some wr →
  doc w !! btn c = Some e → doc w !! wr = Some ew → wr ≠ btn c →
  accepted_classes (inStateClassName c) →
  disableState observers invoke i w =
  Ok tt (World
           (<[wr := set_attributes (delete "aria-hidden") ew]>
              (<[btn c := disabled_button (a11yText c) (inStateClassName c) e]>
                 (doc w)))
           (<[i := set_isInState false c]> (closures w))
           (allInstances w)
           (dispatched w ++
            [Event (btn c) "htz-stateful-btn:disable-before" (isInState c);
             Event (btn c) "htz-stateful-btn:disable-after" false])).
Proof.
  intros Hb1 Hb2 Hc Hinit Hwr He Hew Hne Hcls. unfold disableState.
  rewrite (step_var i isInit _ w c Hc), Hinit. cbv beta iota.
  rewrite (step_var i btn _ w c Hc), (step_var i isInState _ w c Hc).
  rewrite (step_bind _ _ _ _ _
             (dispatchEvent_bystanders observers invoke _ _ _ w Hb1)).
  cbv iota. set (w1 := logged _ w).
  assert (doc w1 !! btn c = Some e) as He1 by done.
  rewrite (step_var i a11yText _ w1 c Hc).
  rewrite (step_unlabel (btn c) (a11yText c) _ w1 e He1).
  set (w2 := set_doc _ w1).
  assert (doc w2 !! btn c = Some (disabled_button (a11yText c) Undefined e))
    as He2 by apply lookup_insert_eq.
  rewrite (step_var i inStateClassName _ w2 c Hc).
  rewrite (step_unclass (btn c) _ _ w2 _ He2 Hcls).
  set (w3 := set_doc _ w2).
  assert (doc w3 !! wr = Some ew) as Hew3.
  { unfold w3, w2. simpl. by rewrite !lookup_insert_ne by done. }
  rewrite (step_var i wrapper _ w3 c Hc), Hwr. unfold on_wrapper.
  rewrite (step_dom _ _ w3 tt _ (removeAttribute_run _ _ _ _ Hew3)).
  set (w4 := set_doc _ w3). rewrite step_assign.
  set (w5 := set_closures _ w4).
  assert (closures w5 !! i = Some (set_isInState false c)) as Hc5.
  { unfold w5. simpl. by rewrite list_lookup_alter_eq, Hc. }
  rewrite (step_var i isInState _ w5 _ Hc5).
  rewrite (step_bind _ _ _ _ _
             (dispatchEvent_bystanders observers invoke _ _ _ w5 Hb2)).
  unfold_M. f_equal. unfold logged, set_dispatched. simpl.
  rewrite insert_insert_eq, disabled_button_compose.
  rewrite (alter_insert _ _ _ _ Hc), <-app_assoc. done.
Qed.

(** X24.  A listener may call back into the instance while an event is
    dispatched.  Premises: the only listener of the enable-after event of
    the button (dispatched with [true]) calls [disableState()] of the
    instance and does nothing else; the listeners of the events of the three
    other types only look at the page (they call no method and veto
    nothing); the call depth allows one nested call; the instance is
    initialized; its button and its wrapper are elements, and not the same
    node; its class names are falsy or a string whose pieces between single
    spaces are tokens that [classList] accepts.  Then [enableState]
    returns with the instance not active: the label and the class tokens
    that it had set are removed again, the wrapper has no [aria-hidden],
    and four events were dispatched in the order enable-before,
    enable-after, disable-before, disable-after, the enable-after and the
    disable-before event with [true], the disable-after event with
    [false]. *)
Theorem listener_disables_during_enable_after
    observers depth i w c e ew wr :
  observers (Event (btn c) "stateful-btn:enable-after" true)
  = [SCall i DisableState SDone] →
  (∀ ev, ev_type ev ≠ "stateful-btn:enable-after" →
         Forall bystander (observers ev)) →
  closures w !! i = Some c → isInit c = true → wrapper c = Some wr →
  doc w !! btn c = Some e → doc w !! wr = Some ew → wr ≠ btn c →
  accepted_classes (inStateClassName c) →
  ∃ w',
    enableState observers (invoke_at (S depth) observers) i w = Ok tt w' ∧
    closures w' = <[i := set_isInState false c]> (closures w) ∧
    dispatched w' =
      dispatched w ++
      [Event (btn c) "stateful-btn:enable-before" (isInState c);
       Event (btn c) "stateful-btn:enable-after" true;
       Event (btn c) "htz-stateful-btn:disable-before" true;
       Event (btn c) "htz-stateful-btn:disable-after" false] ∧
    doc w' !! btn c
    = Some (disabled_button (a11yText c) (inStateClassName c)
              (enabled_button (a11yText c) (inStateClassName c) e)) ∧
    attr_of (doc w') wr "aria-hidden" = None.
Proof.
  intros Hafter Hlook Hc Hinit Hwr He Hew Hne Hcls.
  assert (i < length (closures w)) as Hi by by eapply lookup_lt_Some.
  set (inv := invoke_at (S depth) observers).
  set (c1 := set_isInState true c).
  set (e1 := enabled_button (a11yText c) (inStateClassName c) e).
  set (ew1 := set_attributes (<["aria-hidden" := "true"]>) ew).
  set (ev1 := Event (btn c) "stateful-btn:enable-before" (isInState c)).
  set (ev2 := Event (btn c) "stateful-btn:enable-after" true).
  set (w5 := World (<[btn c := e1]> (<[wr := ew1]> (doc w)))
                   (<[i := c1]> (closures w)) (allInstances w)
                   (dispatched w ++ [ev1])).
  set (w6 := logged ev2 w5).
  assert (closures w6 !! i = Some c1) as Hc6
    by by apply list_lookup_insert_eq.
  assert (doc w6 !! btn c1 = Some e1) as He6 by apply lookup_insert_eq.
  assert (doc w6 !! wr = Some ew1) as Hew6.
  { unfold w6, w5. simpl. by rewrite lookup_insert_ne, lookup_insert_eq. }
  pose proof (disableState_looked_at observers (invoke_at depth observers)
                i w6 c1 e1 ew1 wr
                (Hlook (Event (btn c1) "htz-stateful-btn:disable-before"
                              (isInState c1)) ltac:(done))
                (Hlook (Event (btn c1) "htz-stateful-btn:disable-after" false)
                       ltac:(done))
                Hc6 Hinit Hwr He6 Hew6 Hne Hcls) as Hdis.
  set (w7 := World _ _ _ _) in Hdis.
  exists w7. split_and!.
  - unfold enableState.
    rewrite (step_var i isInit _ w c Hc), Hinit. cbv beta iota.
    rewrite (step_var i btn _ w c Hc), (step_var i isInState _ w c Hc).
    rewrite (step_bind _ _ _ _ _
               (dispatchEvent_bystanders observers inv _ _ _ w
                  (Hlook ev1 ltac:(done)))).
    cbv iota. set (w1 := logged _ w).
    rewrite (step_var i wrapper _ w1 c Hc), Hwr. unfold on_wrapper.
    rewrite (step_dom _ _ w1 tt _
               (setAttribute_run _ _ "aria-hidden" _ _ Hew eq_refl)).
    set (w2 := set_doc _ w1).
    assert (doc w2 !! btn c = Some e) as He2.
    { unfold w2. simpl. by rewrite lookup_insert_ne. }
    rewrite (step_var i a11yText _ w2 c Hc).
    rewrite (step_label (btn c) (a11yText c) _ w2 e He2).
    set (w3 := set_doc _ w2).
    assert (doc w3 !! btn c = Some (enabled_button (a11yText c) Undefined e))
      as He3 by apply lookup_insert_eq.
    rewrite (step_var i inStateClassName _ w3 c Hc).
    rewrite (step_classes (btn c) _ _ w3 _ He3 Hcls).
    set (w4 := set_doc _ w3). rewrite step_assign.
    assert (set_closures (alter (set_isInState true) i) w4 = w5) as ->.
    { unfold w5, w4, w3, w2, w1, logged, set_closures, set_doc,
        set_dispatched. simpl.
      rewrite insert_insert_eq, enabled_button_compose.
      by rewrite (alter_insert _ _ _ _ Hc). }
    assert (closures w5 !! i = Some c1) as Hc5
      by by apply list_lookup_insert_eq.
    rewrite (step_var i isInState _ w5 _ Hc5).
    assert (dispatchEvent observers inv (btn c) "stateful-btn:enable-after"
                          (isInState c1) w5 = Ok true w7) as Hdispatch.
    { unfold dispatchEvent. cbv zeta. change (isInState c1) with true.
      rewrite Hafter. simpl foldl.
      change (set_dispatched _ w5) with w6.
      change (run_script inv (SCall i DisableState SDone) (w6, false))
        with ((page (disableState observers (invoke_at depth observers) i)
               ≫= λ _, mret tt) (w6, false)).
      assert (page (disableState observers (invoke_at depth observers) i)
                   (w6, false) = Ok tt (w7, false)) as Hp.
      { unfold page. simpl. by rewrite Hdis. }
      by rewrite (step_bind _ _ _ _ _ Hp). }
    by rewrite (step_bind _ _ _ _ _ Hdispatch).
  - unfold w7, w6, w5. simpl. by rewrite list_insert_insert_eq.
  - unfold w7, w6, w5, logged. simpl. by rewrite <-!app_assoc.
  - unfold w7. simpl. by rewrite lookup_insert_ne, lookup_insert_eq.
  - unfold w7, attr_of. simpl. rewrite lookup_insert_eq. simpl.
    apply lookup_delete_eq.
Qed.

Lemma listener_disables_during_enable_after_witness :
  ∃ w',
    enableState undoing_observers (invoke_at 1 undoing_observers) 0 busy_page
    = Ok tt w' ∧
    isInState <$> closures w' !! 0 = Some false ∧
    length (dispatched w') = 4 ∧
    attr_of (doc w') 4 "aria-hidden" = None.
Proof.
  destruct (listener_disables_during_enable_after
              undoing_observers 0 0 busy_page
              (Closure 1 Undefined (Str "busy") false true (Str "Loading")
                       (Str "busy") (Some 4))
              (Element "button"
                       {[ "data-in-state-text" := "Loading";
                          "aria-live" := "polite" ]}
                       ["o-btn"] [4])
              (Element "span" ∅ [] [2; 3]) 4)
    as (w' & Hrun & Hcs & Hev & _ & Hhidden).
  - reflexivity.
  - intros ev Hne. unfold undoing_observers.
    rewrite bool_decide_eq_false_2 by exact Hne. apply Forall_nil_2.
  - vm_compute. reflexivity.
  - reflexivity.
  - reflexivity.
  - vm_compute. reflexivity.
  - vm_compute. reflexivity.
  - by vm_compute.
  - intros _. vm_compute. reflexivity.
  - exists w'. split_and!.
    + exact Hrun.
    + rewrite Hcs. by vm_compute.
    + rewrite Hev. reflexivity.
    + exact Hhidden.
Defined.

End reentrant.
